(** * Crown engine: disk file handle and disk filesystem facade

    A shallow embedding of [src/core/filesystem/filesystem_disk.cpp]:
    the class [FileDisk] in its two platform variants (the stdio variant
    selected by [CROWN_PLATFORM_POSIX] and the Win32 variant selected by
    [CROWN_PLATFORM_WINDOWS]) and the facade [FilesystemDisk].

    The C++ methods are written in a state-and-error monad.  The state is
    the object's fields together with a model of the native layer the
    methods call into (the C library's streams, the Win32 file handles).
    The native layer is not part of the repository; it is modelled after
    its documentation (ISO C / POSIX for stdio, the Win32 API reference
    for [CreateFile], [SetFilePointer], ...), restricted to regular
    files. *)

From Stdlib Require Import ZArith Lia.
From stdpp Require Import base gmap strings list.

Open Scope Z_scope.

(** ** Machine integers *)

(** [u32] (also Win32 [DWORD]): conversion to it wraps modulo 2^32. *)
Definition to_u32 (z : Z) : Z := z mod 2 ^ 32.

(** Win32 [LONG]: a signed 32-bit integer. *)
Definition to_LONG (z : Z) : Z := (z + 2 ^ 31) mod 2 ^ 32 - 2 ^ 31.

(** C [long] of the LP64 targets of the stdio variant (64-bit Linux). *)
Definition to_long (z : Z) : Z := (z + 2 ^ 63) mod 2 ^ 64 - 2 ^ 63.
Definition LONG_MAX : Z := 2 ^ 63 - 1.

(** ** Outcome of a call *)

(** A call returns normally, or stops the process in [crown::error::abort]
    (a failed [CE_ASSERT]/[CE_ENSURE]), or does something that neither the
    language nor the platform defines (a stdio call on a NULL stream, a
    NULL dereference): the model does not say what happens then. *)
Inductive outcome (A : Type) : Type :=
| Done (a : A)
| Fatal (msg : string)
| Undefined.
Arguments Done {A} a.
Arguments Fatal {A} msg.
Arguments Undefined {A}.

(** State-and-error monad: [S] is the mutable state a call works on. *)
Definition M (S A : Type) : Type := S → outcome (A * S).

#[global] Instance M_ret {S} : MRet (M S) := λ A a s, Done (a, s).
#[global] Instance M_bind {S} : MBind (M S) := λ A B k m s,
  match m s with
  | Done (a, s') => k a s'
  | Fatal msg => Fatal msg
  | Undefined => Undefined
  end.

Definition get {S} : M S S := λ s, Done (s, s).
Definition put {S} (s : S) : M S unit := λ _, Done (tt, s).
Definition modify {S} (f : S → S) : M S unit := λ s, Done (tt, f s).
Definition abort {S A} (msg : string) : M S A := λ _, Fatal msg.
Definition undefined {S A} : M S A := λ _, Undefined.

(** Run a computation on the second component of a pair state (a native
    call made from a method: the object's fields are not touched). *)
Definition native {F W A} (m : M W A) : M (F * W) A := λ '(f, w),
  match m w with
  | Done (a, w') => Done (a, (f, w'))
  | Fatal msg => Fatal msg
  | Undefined => Undefined
  end.

(** A method call [file->m()] from code that holds the object [file]:
    returns the result and the object as the call left it. *)
Definition on_object {F W A} (file : F) (m : M (F * W) A) : M W (A * F) := λ w,
  match m (file, w) with
  | Done (a, (file', w')) => Done ((a, file'), w')
  | Fatal msg => Fatal msg
  | Undefined => Undefined
  end.

(** Read and update the object ([this]) in a pair state. *)
Definition this {F W} : M (F * W) F := λ '(f, w), Done (f, (f, w)).
Definition set_this {F W} (g : F → F) : M (F * W) unit :=
  λ '(f, w), Done (tt, (g f, w)).

(** Modelled from the spec: the assertion macros of [core/error/error.h],
    which is not among the sources.  "Contract violations ... are checked
    via assertions and fatal in all builds that enable them": [dbg] says
    whether the build enables assertions; a failed check then aborts, and
    a build that does not enable them evaluates nothing. *)
Definition CE_ASSERT {S} (dbg : bool) (condition : bool) (msg : string)
  : M S unit :=
  if dbg then (if condition then mret tt else abort msg) else mret tt.

Definition CE_ENSURE {S} (dbg : bool) (condition : bool) : M S unit :=
  CE_ASSERT dbg condition EmptyString.

(** A pointer argument is [None] when NULL; [p != NULL]. *)
Definition non_null {A} (p : option A) : bool :=
  if p is Some _ then true else false.

(** [FileOpenMode::Enum] *)
Inductive FileOpenMode : Set := READ | WRITE.

#[global] Instance FileOpenMode_eq_dec : EqDecision FileOpenMode.
Proof. solve_decision. Defined.

(** ** Contents of regular files *)

Definition zlen {A} (l : list A) : Z := Z.of_nat (length l).

(** The [n] bytes (or fewer, at the end) of [content] from offset [pos]. *)
Definition read_at (content : list Byte.byte) (pos n : Z) : list Byte.byte :=
  take (Z.to_nat n) (drop (Z.to_nat pos) content).

(** [content] with [data] stored at offset [pos]; a gap between the end
    of the file and [pos] reads as zero bytes. *)
Definition write_at (content : list Byte.byte) (pos : Z) (data : list Byte.byte)
  : list Byte.byte :=
  let padded := content ++ replicate (Z.to_nat pos - length content) Byte.x00 in
  take (Z.to_nat pos) padded ++ data ++ drop (Z.to_nat pos + length data) content.

(** ** The stdio variant ([CROWN_PLATFORM_POSIX]) *)

Module Posix.

(** *** The C library's streams *)

(** The two mode strings the source passes to [fopen]: "rb" and "wb". *)
Inductive stdio_mode : Set := rb | wb.
Inductive whence : Set := SEEK_SET | SEEK_CUR | SEEK_END.

(** What a [FILE] holds: the file it is bound to, the mode, the file
    position and the end-of-file and error indicators. *)
Record FILE : Type := mkFILE {
  f_path : string;
  f_mode : stdio_mode;
  f_pos : Z;
  f_eof : bool;
  f_err : bool
}.

(** A native call, with its arguments and what it returned. *)
Inductive call : Type :=
| c_fopen (path : string) (mode : stdio_mode) (ret : Z)
| c_fclose (fp : Z)
| c_ftell (fp ret : Z)
| c_fseek (fp offset : Z) (origin : whence) (ret : Z)
| c_fread (fp n ret : Z)
| c_fwrite (fp n ret : Z)
| c_feof (fp ret : Z)
| c_ferror (fp ret : Z)
| c_fflush (fp ret : Z).

(** The native state: the regular files by path, the number of bytes
    the device still takes, the open streams by address ([FILE*]), and
    the native calls made so far, the most recent first. *)
Record world : Type := mkWorld {
  disk : gmap string (list Byte.byte);
  disk_free : Z;
  streams : gmap Z FILE;
  trace : list call
}.

Definition NULL : Z := 0.

Definition log (c : call) : M world unit :=
  modify (λ w, mkWorld (disk w) (disk_free w) (streams w) (c :: trace w)).

(** Dereferencing a [FILE*] that is not an open stream (NULL, or a
    stream already closed) is undefined. *)
Definition stream (fp : Z) : M world FILE := λ w,
  match streams w !! fp with
  | Some f => Done (f, w)
  | None => Undefined
  end.

Definition set_stream (fp : Z) (f : FILE) : M world unit :=
  modify (λ w, mkWorld (disk w) (disk_free w) (<[fp := f]> (streams w)) (trace w)).

Definition content (path : string) : M world (list Byte.byte) :=
  λ w, Done (default [] (disk w !! path), w).

Definition set_content (path : string) (c : list Byte.byte) : M world unit :=
  modify (λ w, mkWorld (<[path := c]> (disk w)) (disk_free w) (streams w) (trace w)).

(** [fopen]: "rb" opens an existing file and fails (NULL) when there is
    none; "wb" truncates the file to zero length or creates it, and
    fails on the empty path. *)
Definition fopen (path : string) (mode : stdio_mode) : M world Z :=
  w ← get;
  let ok := match mode with
            | rb => if disk w !! path is Some _ then true else false
            | wb => negb (String.eqb path EmptyString)
            end in
  if ok then
    let fp := fresh ({[NULL]} ∪ dom (streams w)) in
    (if mode is wb then set_content path [] else mret tt);;
    set_stream fp (mkFILE path mode 0 false false);;
    log (c_fopen path mode fp);;
    mret fp
  else
    log (c_fopen path mode NULL);;
    mret NULL.

Definition fclose (fp : Z) : M world Z :=
  _ ← stream fp;
  modify (λ w, mkWorld (disk w) (disk_free w) (delete fp (streams w)) (trace w));;
  log (c_fclose fp);;
  mret 0.

(** [ftell]: the file position, or -1 when a [long] cannot hold it. *)
Definition ftell (fp : Z) : M world Z :=
  f ← stream fp;
  let ret := if f_pos f <=? LONG_MAX then f_pos f else -1 in
  log (c_ftell fp ret);;
  mret ret.

(** [fseek]: moves the position to [offset] from the origin and clears
    the end-of-file indicator; fails (-1, nothing changed) when the
    resulting position is negative or not representable. Seeking past
    the end of the file is allowed. *)
Definition fseek (fp offset : Z) (origin : whence) : M world Z :=
  f ← stream fp;
  c ← content (f_path f);
  let base := match origin with
              | SEEK_SET => 0
              | SEEK_CUR => f_pos f
              | SEEK_END => zlen c
              end in
  let np := base + offset in
  if (0 <=? np) && (np <=? LONG_MAX) then
    set_stream fp (mkFILE (f_path f) (f_mode f) np false (f_err f));;
    log (c_fseek fp offset origin 0);;
    mret 0
  else
    log (c_fseek fp offset origin (-1));;
    mret (-1).

(** [fread(data, 1, n, fp)]: stores the bytes read at the start of the
    buffer and returns their number. Fewer than [n] are read only at the
    end of the file (the end-of-file indicator is then set) or on an
    error (the error indicator is set): a stream opened with "wb" is not
    readable. A NULL buffer, or one too small for what is read, is
    undefined. *)
Definition fread (data : option (list Byte.byte)) (n : Z) (fp : Z)
  : M world (Z * list Byte.byte) :=
  f ← stream fp;
  if n =? 0 then log (c_fread fp n 0);; mret (0, default [] data)
  else
    match data, f_mode f with
    | None, _ => undefined
    | Some buf, wb =>
        set_stream fp (mkFILE (f_path f) (f_mode f) (f_pos f) (f_eof f) true);;
        log (c_fread fp n 0);;
        mret (0, buf)
    | Some buf, rb =>
        c ← content (f_path f);
        let bytes := read_at c (f_pos f) n in
        let k := zlen bytes in
        if zlen buf <? k then undefined
        else
          set_stream fp (mkFILE (f_path f) (f_mode f) (f_pos f + k)
                                (f_eof f || (k <? n)) (f_err f));;
          log (c_fread fp n k);;
          mret (k, bytes ++ drop (length bytes) buf)
    end.

(** [fwrite(data, 1, n, fp)]: writes the first [n] bytes of the buffer
    at the file position and returns the number written, which is less
    than [n] only if a write error is encountered; the error indicator
    is then set. A stream opened with "rb" is not writable; the device
    takes [disk_free] more bytes. A NULL buffer, or one shorter than
    [n], is undefined.

    The buffer of the stream is not modelled: [disk] holds each file as
    its streams present it, with the bytes written so far. The C library
    may keep these bytes in the buffer of the stream; it then hands them
    to the device, and meets a device that is full, only at the next
    [fflush], [fseek] or [fclose]. What is stated below of the files of
    this variant after a [write] is therefore stated once one of these
    calls has returned, and the examples of a device that is full are
    given on the Win32 variant, where [WriteFile] reports it. *)
Definition fwrite (data : option (list Byte.byte)) (n : Z) (fp : Z)
  : M world Z :=
  f ← stream fp;
  if n =? 0 then log (c_fwrite fp n 0);; mret 0
  else
    match data, f_mode f with
    | None, _ => undefined
    | Some buf, rb =>
        set_stream fp (mkFILE (f_path f) (f_mode f) (f_pos f) (f_eof f) true);;
        log (c_fwrite fp n 0);;
        mret 0
    | Some buf, wb =>
        if zlen buf <? n then undefined
        else
          w ← get;
          c ← content (f_path f);
          let k := Z.min n (Z.max 0 (disk_free w)) in
          (if k =? 0 then mret tt
           else set_content (f_path f)
                  (write_at c (f_pos f) (take (Z.to_nat k) buf)));;
          modify (λ w, mkWorld (disk w) (disk_free w - k) (streams w) (trace w));;
          set_stream fp (mkFILE (f_path f) (f_mode f) (f_pos f + k)
                                (f_eof f) (f_err f || (k <? n)));;
          log (c_fwrite fp n k);;
          mret k
    end.

Definition feof (fp : Z) : M world Z :=
  f ← stream fp;
  let ret := if f_eof f then 1 else 0 in
  log (c_feof fp ret);;
  mret ret.

Definition ferror (fp : Z) : M world Z :=
  f ← stream fp;
  let ret := if f_err f then 1 else 0 in
  log (c_ferror fp ret);;
  mret ret.

(** [fflush]: the model keeps no user-space buffer, so there is nothing
    to write out and the call succeeds. *)
Definition fflush (fp : Z) : M world Z :=
  _ ← stream fp;
  log (c_fflush fp 0);;
  mret 0.

(** *** class FileDisk *)

Record FileDisk : Type := mkFileDisk { _file : Z }.

Definition state : Type := FileDisk * world.

(** [FileDisk::FileDisk()] *)
Definition FileDisk_ctor : FileDisk := mkFileDisk NULL.

(** [bool is_open() const] *)
Definition is_open (f : FileDisk) : bool := negb (_file f =? NULL).

Section Methods.
(** Whether the build enables assertions. *)
Variable dbg : bool.

Definition open (path : string) (mode : FileOpenMode) : M state unit :=
  fp ← native (fopen path (if mode is READ then rb else wb));
  set_this (λ _, mkFileDisk fp);;
  CE_ASSERT dbg (negb (fp =? NULL)) "fopen".

Definition close : M state unit :=
  f ← this;
  if is_open f then
    native (fclose (_file f));;
    set_this (λ _, mkFileDisk NULL)
  else mret tt.

(** [virtual ~FileDisk()] *)
Definition FileDisk_dtor : M state unit := close.

Definition size : M state Z :=
  f ← this;
  pos ← native (ftell (_file f));
  CE_ASSERT dbg (negb (pos =? -1)) "ftell";;
  err ← native (fseek (_file f) 0 SEEK_END);
  CE_ASSERT dbg (err =? 0) "fseek";;
  size ← native (ftell (_file f));
  CE_ASSERT dbg (negb (size =? -1)) "ftell";;
  err ← native (fseek (_file f) (to_long pos) SEEK_SET);
  CE_ASSERT dbg (err =? 0) "fseek";;
  mret (to_u32 size).

Definition position : M state Z :=
  f ← this;
  pos ← native (ftell (_file f));
  CE_ASSERT dbg (negb (pos =? -1)) "ftell";;
  mret (to_u32 pos).

Definition end_of_file : M state bool :=
  f ← this;
  r ← native (feof (_file f));
  mret (negb (r =? 0)).

Definition seek (position : Z) : M state unit :=
  f ← this;
  err ← native (fseek (_file f) (to_long position) SEEK_SET);
  CE_ASSERT dbg (err =? 0) "fseek".

Definition seek_to_end : M state unit :=
  f ← this;
  err ← native (fseek (_file f) 0 SEEK_END);
  CE_ASSERT dbg (err =? 0) "fseek".

Definition skip (bytes : Z) : M state unit :=
  f ← this;
  err ← native (fseek (_file f) (to_long bytes) SEEK_CUR);
  CE_ASSERT dbg (err =? 0) "fseek".

(** Returns the count together with the buffer as the call left it. *)
Definition read (data : option (list Byte.byte)) (size : Z)
  : M state (Z * list Byte.byte) :=
  CE_ASSERT dbg (non_null data) "Data must be != NULL";;
  f ← this;
  '(bytes_read, buf) ← native (fread data size (_file f));
  e ← native (ferror (_file f));
  CE_ASSERT dbg (e =? 0) "fread error";;
  mret (to_u32 bytes_read, buf).

Definition write (data : option (list Byte.byte)) (size : Z) : M state Z :=
  CE_ASSERT dbg (non_null data) "Data must be != NULL";;
  f ← this;
  bytes_written ← native (fwrite data size (_file f));
  e ← native (ferror (_file f));
  CE_ASSERT dbg (e =? 0) "fwrite error";;
  mret (to_u32 bytes_written).

Definition flush : M state unit :=
  f ← this;
  err ← native (fflush (_file f));
  CE_ASSERT dbg (err =? 0) "fflush".
End Methods.


(** *** States of a handle *)

(** The handle is bound to the open stream [f]. *)
Definition bound (st : state) (f : FILE) : Prop :=
  streams st.2 !! _file st.1 = Some f.

(** A handle that is open refers to a stream that is open: what the
    methods keep true of a handle from its construction on. *)
Definition consistent (st : state) : Prop :=
  is_open st.1 = true → is_Some (streams st.2 !! _file st.1).

(** The bytes of the file a stream is bound to. *)
Definition file_of (w : world) (f : FILE) : list Byte.byte :=
  default [] (disk w !! f_path f).

(** The world after one more native call is recorded, and after the
    stream [s] at [fp] is moved to position [np] by a successful [fseek]. *)
Definition logged (c : call) (w : world) : world :=
  mkWorld (disk w) (disk_free w) (streams w) (c :: trace w).

Definition moved (fp : Z) (s : FILE) (np : Z) (w : world) : world :=
  mkWorld (disk w) (disk_free w)
    (<[fp := mkFILE (f_path s) (f_mode s) np false (f_err s)]> (streams w))
    (trace w).

(** The position an [fseek] offset is counted from. *)
Definition seek_base (w : world) (s : FILE) (origin : whence) : Z :=
  match origin with
  | SEEK_SET => 0
  | SEEK_CUR => f_pos s
  | SEEK_END => zlen (file_of w s)
  end.

(** The number of [fclose] calls in a trace. *)
Fixpoint releases (t : list call) : nat :=
  match t with
  | [] => 0
  | c_fclose _ :: t' => S (releases t')
  | _ :: t' => releases t'
  end.

(** A call of a method of the handle, and a sequence of such calls made
    one after the other on the same handle (results dropped). *)
Inductive method : Type :=
| m_open (path : string) (mode : FileOpenMode)
| m_close
| m_size
| m_position
| m_end_of_file
| m_seek (position : Z)
| m_seek_to_end
| m_skip (bytes : Z)
| m_read (data : option (list Byte.byte)) (size : Z)
| m_write (data : option (list Byte.byte)) (size : Z)
| m_flush.

Definition invoke (dbg : bool) (m : method) : M state unit :=
  match m with
  | m_open path mode => open dbg path mode
  | m_close => close
  | m_size => size dbg;; mret tt
  | m_position => position dbg;; mret tt
  | m_end_of_file => end_of_file;; mret tt
  | m_seek k => seek dbg k
  | m_seek_to_end => seek_to_end dbg
  | m_skip k => skip dbg k
  | m_read data n => read dbg data n;; mret tt
  | m_write data n => write dbg data n;; mret tt
  | m_flush => flush dbg
  end.

Fixpoint run (dbg : bool) (ms : list method) : M state unit :=
  match ms with
  | [] => mret tt
  | m :: ms' => invoke dbg m;; run dbg ms'
  end.

End Posix.

(** ** The Win32 variant ([CROWN_PLATFORM_WINDOWS]) *)

Module Windows.

(** *** Win32 file handles *)

Inductive access : Set := GENERIC_READ | GENERIC_WRITE.
Inductive disposition : Set :=
| CREATE_NEW | CREATE_ALWAYS | OPEN_EXISTING | OPEN_ALWAYS | TRUNCATE_EXISTING.
Inductive move_method : Set := FILE_BEGIN | FILE_CURRENT | FILE_END.

#[global] Instance access_eq_dec : EqDecision access.
Proof. solve_decision. Defined.

(** What the kernel keeps for an open file handle: the file, the access
    and share mode it was opened with, and the file pointer. *)
Record HFILE : Type := mkHFILE {
  h_path : string;
  h_access : access;
  h_share : Z;
  h_pos : Z
}.

(** A native call, with its arguments and what it returned. *)
Inductive call : Type :=
| c_CreateFile (path : string) (a : access) (share : Z) (d : disposition) (ret : Z)
| c_CloseHandle (h : Z) (ret : bool)
| c_GetFileSize (h ret : Z)
| c_SetFilePointer (h distance : Z) (m : move_method) (ret : Z)
| c_ReadFile (h n : Z) (ret : bool) (bytes_read : Z)
| c_WriteFile (h n : Z) (ret : bool) (bytes_written : Z)
| c_FlushFileBuffers (h : Z) (ret : bool).

(** The native state: the regular files by path, the number of bytes
    the device still takes, the open handles, and the native calls made
    so far, the most recent first. *)
Record world : Type := mkWorld {
  disk : gmap string (list Byte.byte);
  disk_free : Z;
  handles : gmap Z HFILE;
  trace : list call
}.

Definition INVALID_HANDLE_VALUE : Z := -1.
Definition INVALID_FILE_SIZE : Z := 0xFFFFFFFF.
Definition INVALID_SET_FILE_POINTER : Z := 0xFFFFFFFF.
Definition FILE_ATTRIBUTE_NORMAL : Z := 0x80.

Definition log (c : call) : M world unit :=
  modify (λ w, mkWorld (disk w) (disk_free w) (handles w) (c :: trace w)).

Definition set_handle (h : Z) (f : HFILE) : M world unit :=
  modify (λ w, mkWorld (disk w) (disk_free w) (<[h := f]> (handles w)) (trace w)).

Definition set_content (path : string) (c : list Byte.byte) : M world unit :=
  modify (λ w, mkWorld (<[path := c]> (disk w)) (disk_free w) (handles w) (trace w)).

Definition content (w : world) (path : string) : list Byte.byte :=
  default [] (disk w !! path).

(** A sharing violation: the file is open through a handle that shares
    nothing, or the new handle is to share nothing with an open one. *)
Definition sharing_violation (w : world) (path : string) (share : Z) : bool :=
  existsb (λ kv, String.eqb (h_path kv.2) path
                 && ((h_share kv.2 =? 0) || (share =? 0)))
          (map_to_list (handles w)).

(** [CreateFile(path, access, share, NULL, disposition, attributes, NULL)]:
    fails ([INVALID_HANDLE_VALUE]) on the empty path and on a sharing
    violation; otherwise by the creation disposition:
    - [CREATE_NEW] creates the file, fails if it exists;
    - [CREATE_ALWAYS] creates the file or truncates the existing one;
    - [OPEN_EXISTING] opens the file, fails if it does not exist;
    - [OPEN_ALWAYS] opens the file if it exists and creates it if not;
    - [TRUNCATE_EXISTING] truncates the existing file (the handle must
      have write access), fails if it does not exist. *)
Definition CreateFile (path : string) (a : access) (share : Z)
    (d : disposition) (attributes : Z) : M world Z :=
  w ← get;
  let present := if disk w !! path is Some _ then true else false in
  let ok := negb (String.eqb path EmptyString) && negb (sharing_violation w path share)
            && match d with
               | CREATE_NEW => negb present
               | CREATE_ALWAYS | OPEN_ALWAYS => true
               | OPEN_EXISTING => present
               | TRUNCATE_EXISTING => present && bool_decide (a = GENERIC_WRITE)
               end in
  if ok then
    let h := fresh ({[INVALID_HANDLE_VALUE; 0]} ∪ dom (handles w)) in
    let empties := match d with
                   | CREATE_NEW | CREATE_ALWAYS | TRUNCATE_EXISTING => true
                   | OPEN_ALWAYS => negb present
                   | OPEN_EXISTING => false
                   end in
    (if empties then set_content path [] else mret tt);;
    set_handle h (mkHFILE path a share 0);;
    log (c_CreateFile path a share d h);;
    mret h
  else
    log (c_CreateFile path a share d INVALID_HANDLE_VALUE);;
    mret INVALID_HANDLE_VALUE.

(** The calls below fail, without touching anything, on a value that is
    not an open handle. *)
Definition CloseHandle (h : Z) : M world bool :=
  w ← get;
  match handles w !! h with
  | Some _ =>
      modify (λ w, mkWorld (disk w) (disk_free w) (delete h (handles w)) (trace w));;
      log (c_CloseHandle h true);;
      mret true
  | None => log (c_CloseHandle h false);; mret false
  end.

(** [GetFileSize(h, NULL)]: the low-order doubleword of the file size,
    [INVALID_FILE_SIZE] on failure. *)
Definition GetFileSize (h : Z) : M world Z :=
  w ← get;
  let ret := match handles w !! h with
             | Some f => to_u32 (zlen (content w (h_path f)))
             | None => INVALID_FILE_SIZE
             end in
  log (c_GetFileSize h ret);;
  mret ret.

(** [SetFilePointer(h, distance, NULL, method)]: [distance] is a [LONG],
    a signed 32-bit value. Fails ([INVALID_SET_FILE_POINTER], pointer not
    moved) when the new pointer would be negative or does not fit in 32
    bits; otherwise returns the new pointer. Moving past the end of the
    file is allowed. *)
Definition SetFilePointer (h distance : Z) (m : move_method) : M world Z :=
  w ← get;
  match handles w !! h with
  | Some f =>
      let base := match m with
                  | FILE_BEGIN => 0
                  | FILE_CURRENT => h_pos f
                  | FILE_END => zlen (content w (h_path f))
                  end in
      let np := base + distance in
      if (0 <=? np) && (np <? 2 ^ 32) then
        set_handle h (mkHFILE (h_path f) (h_access f) (h_share f) np);;
        log (c_SetFilePointer h distance m np);;
        mret np
      else
        log (c_SetFilePointer h distance m INVALID_SET_FILE_POINTER);;
        mret INVALID_SET_FILE_POINTER
  | None =>
      log (c_SetFilePointer h distance m INVALID_SET_FILE_POINTER);;
      mret INVALID_SET_FILE_POINTER
  end.

(** [ReadFile(h, data, n, &bytes_read, NULL)]: the count is set to zero
    before anything else is done. Fails on a handle without read access;
    at the end of the file it succeeds with a count of zero. Returns the
    [BOOL], the count and the buffer. A NULL buffer, or one too small
    for what is read, is undefined. *)
Definition ReadFile (h : Z) (data : option (list Byte.byte)) (n : Z)
  : M world (bool * Z * list Byte.byte) :=
  w ← get;
  match handles w !! h, data with
  | Some f, Some buf =>
      if bool_decide (h_access f = GENERIC_READ) then
        let bytes := read_at (content w (h_path f)) (h_pos f) n in
        let k := zlen bytes in
        if zlen buf <? k then undefined
        else
          set_handle h (mkHFILE (h_path f) (h_access f) (h_share f) (h_pos f + k));;
          log (c_ReadFile h n true k);;
          mret (true, k, bytes ++ drop (length bytes) buf)
      else log (c_ReadFile h n false 0);; mret (false, 0, buf)
  | Some f, None => undefined
  | None, _ => log (c_ReadFile h n false 0);; mret (false, 0, default [] data)
  end.

(** [WriteFile(h, data, n, &bytes_written, NULL)]: the count is set to
    zero before anything else is done. Fails on a handle without write
    access; a device that takes only part of the data makes the call
    fail with that part written. A NULL buffer, or one shorter than
    [n], is undefined. *)
Definition WriteFile (h : Z) (data : option (list Byte.byte)) (n : Z)
  : M world (bool * Z) :=
  w ← get;
  match handles w !! h, data with
  | Some f, Some buf =>
      if bool_decide (h_access f = GENERIC_WRITE) then
        if zlen buf <? n then undefined
        else
          let k := Z.min n (Z.max 0 (disk_free w)) in
          (if k =? 0 then mret tt
           else set_content (h_path f)
                  (write_at (content w (h_path f)) (h_pos f)
                            (take (Z.to_nat k) buf)));;
          modify (λ w, mkWorld (disk w) (disk_free w - k) (handles w) (trace w));;
          set_handle h (mkHFILE (h_path f) (h_access f) (h_share f) (h_pos f + k));;
          log (c_WriteFile h n (k =? n) k);;
          mret (k =? n, k)
      else log (c_WriteFile h n false 0);; mret (false, 0)
  | Some f, None => undefined
  | None, _ => log (c_WriteFile h n false 0);; mret (false, 0)
  end.

(** [FlushFileBuffers]: the handle must have write access. *)
Definition FlushFileBuffers (h : Z) : M world bool :=
  w ← get;
  let ret := match handles w !! h with
             | Some f => bool_decide (h_access f = GENERIC_WRITE)
             | None => false
             end in
  log (c_FlushFileBuffers h ret);;
  mret ret.

(** *** class FileDisk *)

Record FileDisk : Type := mkFileDisk { _file : Z; _eof : bool }.

Definition state : Type := FileDisk * world.

(** [FileDisk::FileDisk()] *)
Definition FileDisk_ctor : FileDisk := mkFileDisk INVALID_HANDLE_VALUE false.

(** [bool is_open() const] *)
Definition is_open (f : FileDisk) : bool :=
  negb (_file f =? INVALID_HANDLE_VALUE).

Section Methods.
(** Whether the build enables assertions. *)
Variable dbg : bool.

Definition open (path : string) (mode : FileOpenMode) : M state unit :=
  h ← native (CreateFile path
                (if mode is READ then GENERIC_READ else GENERIC_WRITE)
                0 OPEN_ALWAYS FILE_ATTRIBUTE_NORMAL);
  set_this (λ f, mkFileDisk h (_eof f));;
  CE_ASSERT dbg (negb (h =? INVALID_HANDLE_VALUE)) "CreateFile".

Definition close : M state unit :=
  f ← this;
  if is_open f then
    native (CloseHandle (_file f));;
    set_this (λ f, mkFileDisk INVALID_HANDLE_VALUE (_eof f))
  else mret tt.

(** [virtual ~FileDisk()] *)
Definition FileDisk_dtor : M state unit := close.

Definition size : M state Z :=
  f ← this;
  native (GetFileSize (_file f)).

Definition position : M state Z :=
  f ← this;
  pos ← native (SetFilePointer (_file f) 0 FILE_CURRENT);
  CE_ASSERT dbg (negb (pos =? INVALID_SET_FILE_POINTER)) "SetFilePointer";;
  mret (to_u32 pos).

Definition end_of_file : M state bool :=
  f ← this;
  mret (_eof f).

Definition seek (position : Z) : M state unit :=
  f ← this;
  err ← native (SetFilePointer (_file f) (to_LONG position) FILE_BEGIN);
  CE_ASSERT dbg (negb (err =? INVALID_SET_FILE_POINTER)) "SetFilePointer".

Definition seek_to_end : M state unit :=
  f ← this;
  err ← native (SetFilePointer (_file f) 0 FILE_END);
  CE_ASSERT dbg (negb (err =? INVALID_SET_FILE_POINTER)) "SetFilePointer".

Definition skip (bytes : Z) : M state unit :=
  f ← this;
  err ← native (SetFilePointer (_file f) (to_LONG bytes) FILE_CURRENT);
  CE_ASSERT dbg (negb (err =? INVALID_SET_FILE_POINTER)) "SetFilePointer".

(** Returns the count together with the buffer as the call left it. *)
Definition read (data : option (list Byte.byte)) (size : Z)
  : M state (Z * list Byte.byte) :=
  CE_ASSERT dbg (non_null data) "Data must be != NULL";;
  f ← this;
  '(err, bytes_read, buf) ← native (ReadFile (_file f) data size);
  CE_ASSERT dbg err "ReadFile";;
  set_this (λ f, mkFileDisk (_file f) (err && (bytes_read =? 0)));;
  mret (bytes_read, buf).

Definition write (data : option (list Byte.byte)) (size : Z) : M state Z :=
  CE_ASSERT dbg (non_null data) "Data must be != NULL";;
  f ← this;
  '(_, bytes_written) ← native (WriteFile (_file f) data size);
  CE_ASSERT dbg (size =? bytes_written) "WriteFile";;
  mret bytes_written.

Definition flush : M state unit :=
  f ← this;
  err ← native (FlushFileBuffers (_file f));
  CE_ASSERT dbg err "FlushFileBuffers".
End Methods.


(** *** States and histories of a handle *)

(** The handle is bound to the open native handle [f]. *)
Definition bound (st : state) (f : HFILE) : Prop :=
  handles st.2 !! _file st.1 = Some f.

(** The bytes of the file a native handle is bound to. *)
Definition file_of (w : world) (f : HFILE) : list Byte.byte :=
  content w (h_path f).

(** The world after one more native call is recorded, and after the file
    pointer of the handle [f] at [h] is moved to [np]. *)
Definition logged (c : call) (w : world) : world :=
  mkWorld (disk w) (disk_free w) (handles w) (c :: trace w).

Definition moved (h : Z) (f : HFILE) (np : Z) (w : world) : world :=
  mkWorld (disk w) (disk_free w)
    (<[h := mkHFILE (h_path f) (h_access f) (h_share f) np]> (handles w))
    (trace w).

(** The position a [SetFilePointer] distance is counted from. *)
Definition move_base (w : world) (f : HFILE) (m : move_method) : Z :=
  match m with
  | FILE_BEGIN => 0
  | FILE_CURRENT => h_pos f
  | FILE_END => zlen (file_of w f)
  end.

(** The number of [CloseHandle] calls in a trace. *)
Fixpoint releases (t : list call) : nat :=
  match t with
  | [] => 0
  | c_CloseHandle _ _ :: t' => S (releases t')
  | _ :: t' => releases t'
  end.

(** The most recent [ReadFile] call of a trace: whether it succeeded
    and the count it gave. *)
Fixpoint last_read (t : list call) : option (bool * Z) :=
  match t with
  | [] => None
  | c_ReadFile _ _ ret bytes_read :: _ => Some (ret, bytes_read)
  | _ :: t' => last_read t'
  end.

(** The end-of-file flag a trace calls for: set exactly when the most
    recent [ReadFile] succeeded with a count of zero. *)
Definition eof_by_history (t : list call) : bool :=
  match last_read t with
  | Some (ret, bytes_read) => ret && (bytes_read =? 0)
  | None => false
  end.

(** The flag of the handle agrees with the trace. *)
Definition eof_agrees (st : state) : Prop :=
  _eof st.1 = eof_by_history (trace st.2).

(** A call of a method of the handle, and a sequence of such calls made
    one after the other on the same handle (results dropped). *)
Inductive method : Type :=
| m_open (path : string) (mode : FileOpenMode)
| m_close
| m_size
| m_position
| m_end_of_file
| m_seek (position : Z)
| m_seek_to_end
| m_skip (bytes : Z)
| m_read (data : option (list Byte.byte)) (size : Z)
| m_write (data : option (list Byte.byte)) (size : Z)
| m_flush.

Definition invoke (dbg : bool) (m : method) : M state unit :=
  match m with
  | m_open path mode => open dbg path mode
  | m_close => close
  | m_size => size;; mret tt
  | m_position => position dbg;; mret tt
  | m_end_of_file => end_of_file;; mret tt
  | m_seek k => seek dbg k
  | m_seek_to_end => seek_to_end dbg
  | m_skip k => skip dbg k
  | m_read data n => read dbg data n;; mret tt
  | m_write data n => write dbg data n;; mret tt
  | m_flush => flush dbg
  end.

Fixpoint run (dbg : bool) (ms : list method) : M state unit :=
  match ms with
  | [] => mret tt
  | m :: ms' => invoke dbg m;; run dbg ms'
  end.

End Windows.

(** ** The interface [File] *)

(** The abstract class [File] of [core/filesystem/file.h], with the
    construction and destruction the facade performs through its
    allocator ([CE_NEW], [CE_DELETE]). [F] is the object, [W] the native
    state; methods that contain an assertion take the build flag. *)
Class File (F W : Type) : Type := {
  File_new : F;
  File_delete : M (F * W) unit;
  File_open : bool → string → FileOpenMode → M (F * W) unit;
  File_close : M (F * W) unit;
  File_is_open : F → bool;
  File_size : bool → M (F * W) Z;
  File_position : bool → M (F * W) Z;
  File_end_of_file : M (F * W) bool;
  File_seek : bool → Z → M (F * W) unit;
  File_seek_to_end : bool → M (F * W) unit;
  File_skip : bool → Z → M (F * W) unit;
  File_read : bool → option (list Byte.byte) → Z → M (F * W) (Z * list Byte.byte);
  File_write : bool → option (list Byte.byte) → Z → M (F * W) Z;
  File_flush : bool → M (F * W) unit
}.

#[global] Instance Posix_File : File Posix.FileDisk Posix.world := {
  File_new := Posix.FileDisk_ctor;
  File_delete := Posix.FileDisk_dtor;
  File_open := Posix.open;
  File_close := Posix.close;
  File_is_open := Posix.is_open;
  File_size := Posix.size;
  File_position := Posix.position;
  File_end_of_file := Posix.end_of_file;
  File_seek := Posix.seek;
  File_seek_to_end := Posix.seek_to_end;
  File_skip := Posix.skip;
  File_read := Posix.read;
  File_write := Posix.write;
  File_flush := Posix.flush
}.

#[global] Instance Windows_File : File Windows.FileDisk Windows.world := {
  File_new := Windows.FileDisk_ctor;
  File_delete := Windows.FileDisk_dtor;
  File_open := Windows.open;
  File_close := Windows.close;
  File_is_open := Windows.is_open;
  File_size := λ _, Windows.size;
  File_position := Windows.position;
  File_end_of_file := Windows.end_of_file;
  File_seek := Windows.seek;
  File_seek_to_end := Windows.seek_to_end;
  File_skip := Windows.skip;
  File_read := Windows.read;
  File_write := Windows.write;
  File_flush := Windows.flush
}.

(** ** The facade's collaborators *)

(** The path utilities of [core/filesystem/path.h] the facade calls; they
    are not among the sources and are taken as parameters. [join a b] is
    the string [path::join(out, a, b)] leaves in [out]. *)
Class Path : Type := {
  is_absolute : string → bool;
  join : string → string → string
}.

(** The OS primitives of [core/os.h] the facade delegates to, over a
    state [S] of the file system; not among the sources either. Each takes
    an already resolved path. [os_list_files p files s] is the vector
    [os::list_files(p, files)] leaves in [files]. *)
Class Os (S : Type) : Type := {
  os_exists : string → S → bool;
  os_is_directory : string → S → bool;
  os_is_file : string → S → bool;
  os_mtime : string → S → Z;
  os_create_directory : string → S → S;
  os_delete_directory : string → S → S;
  os_create_file : string → S → S;
  os_delete_file : string → S → S;
  os_list_files : string → list string → S → list string
}.

(** The calls into [os::], in the order they are made (most recent
    first), each with the path it was given. *)
Inductive os_call : Set :=
| call_exists (path : string)
| call_is_directory (path : string)
| call_is_file (path : string)
| call_mtime (path : string)
| call_create_directory (path : string)
| call_delete_directory (path : string)
| call_create_file (path : string)
| call_delete_file (path : string)
| call_list_files (path : string).

Record os_world (S : Type) : Type := mkOsWorld {
  os_state : S;
  os_trace : list os_call
}.
Arguments mkOsWorld {S} _ _.
Arguments os_state {S} _.
Arguments os_trace {S} _.

(** A call that only asks, and a call that changes the file system. *)
Definition os_query {S A} (c : os_call) (f : S → A) : M (os_world S) A :=
  λ w, Done (f (os_state w), mkOsWorld (os_state w) (c :: os_trace w)).

Definition os_command {S} (c : os_call) (f : S → S) : M (os_world S) unit :=
  λ w, Done (tt, mkOsWorld (f (os_state w)) (c :: os_trace w)).

(** Reading through a [const char*]: NULL is not a string. *)
Definition c_str {S} (p : option string) : M S string :=
  if p is Some s then mret s else undefined.

(** ** class FilesystemDisk *)

(** The prefix; the allocator is represented by [File_new] and
    [File_delete]. *)
Record FilesystemDisk : Type := mkFilesystemDisk { _prefix : string }.

(** [FilesystemDisk::FilesystemDisk(Allocator& a)]: the prefix starts empty. *)
Definition FilesystemDisk_ctor : FilesystemDisk := mkFilesystemDisk EmptyString.

Definition FilesystemDisk_set_prefix (fs : FilesystemDisk) (prefix : string)
  : FilesystemDisk := mkFilesystemDisk prefix.

Section Facade.
Context {PU : Path}.
(** Whether the build enables assertions. *)
Variable dbg : bool.

(** [get_absolute_path(path, os_path)]: the string left in [os_path],
    which every caller passes in freshly constructed. *)
Definition FilesystemDisk_get_absolute_path (fs : FilesystemDisk)
    (path : string) : string :=
  if is_absolute path then path
  else join (_prefix fs) path.

Section Handles.
Context {F W : Type} {FI : File F W}.

Definition FilesystemDisk_open (fs : FilesystemDisk) (path : option string)
    (mode : FileOpenMode) : M W F :=
  CE_ENSURE dbg (non_null path);;
  p ← c_str path;
  let abs_path := FilesystemDisk_get_absolute_path fs p in
  let file := File_new in
  '(_, file) ← on_object file (File_open dbg abs_path mode);
  mret file.

(** [CE_DELETE] on the file: runs the destructor; the object is gone
    afterwards. *)
Definition FilesystemDisk_close (fs : FilesystemDisk) (file : F) : M W unit :=
  on_object file File_delete;;
  mret tt.
End Handles.

Section Delegation.
Context {S : Type} {OS : Os S}.

Definition FilesystemDisk_exists (fs : FilesystemDisk) (path : option string)
  : M (os_world S) bool :=
  CE_ENSURE dbg (non_null path);;
  p ← c_str path;
  let abs_path := FilesystemDisk_get_absolute_path fs p in
  os_query (call_exists abs_path) (os_exists abs_path).

Definition FilesystemDisk_is_directory (fs : FilesystemDisk)
    (path : option string) : M (os_world S) bool :=
  CE_ENSURE dbg (non_null path);;
  p ← c_str path;
  let abs_path := FilesystemDisk_get_absolute_path fs p in
  os_query (call_is_directory abs_path) (os_is_directory abs_path).

Definition FilesystemDisk_is_file (fs : FilesystemDisk) (path : option string)
  : M (os_world S) bool :=
  CE_ENSURE dbg (non_null path);;
  p ← c_str path;
  let abs_path := FilesystemDisk_get_absolute_path fs p in
  os_query (call_is_file abs_path) (os_is_file abs_path).

Definition FilesystemDisk_last_modified_time (fs : FilesystemDisk)
    (path : option string) : M (os_world S) Z :=
  CE_ENSURE dbg (non_null path);;
  p ← c_str path;
  let abs_path := FilesystemDisk_get_absolute_path fs p in
  os_query (call_mtime abs_path) (os_mtime abs_path).

Definition FilesystemDisk_create_directory (fs : FilesystemDisk)
    (path : option string) : M (os_world S) unit :=
  CE_ENSURE dbg (non_null path);;
  p ← c_str path;
  let abs_path := FilesystemDisk_get_absolute_path fs p in
  present ← os_query (call_exists abs_path) (os_exists abs_path);
  if negb present then
    os_command (call_create_directory abs_path) (os_create_directory abs_path)
  else mret tt.

Definition FilesystemDisk_delete_directory (fs : FilesystemDisk)
    (path : option string) : M (os_world S) unit :=
  CE_ENSURE dbg (non_null path);;
  p ← c_str path;
  let abs_path := FilesystemDisk_get_absolute_path fs p in
  os_command (call_delete_directory abs_path) (os_delete_directory abs_path).

Definition FilesystemDisk_create_file (fs : FilesystemDisk)
    (path : option string) : M (os_world S) unit :=
  CE_ENSURE dbg (non_null path);;
  p ← c_str path;
  let abs_path := FilesystemDisk_get_absolute_path fs p in
  os_command (call_create_file abs_path) (os_create_file abs_path).

Definition FilesystemDisk_delete_file (fs : FilesystemDisk)
    (path : option string) : M (os_world S) unit :=
  CE_ENSURE dbg (non_null path);;
  p ← c_str path;
  let abs_path := FilesystemDisk_get_absolute_path fs p in
  os_command (call_delete_file abs_path) (os_delete_file abs_path).

Definition FilesystemDisk_list_files (fs : FilesystemDisk)
    (path : option string) (files : list string)
  : M (os_world S) (list string) :=
  CE_ENSURE dbg (non_null path);;
  p ← c_str path;
  let abs_path := FilesystemDisk_get_absolute_path fs p in
  os_query (call_list_files abs_path) (os_list_files abs_path files).
End Delegation.
End Facade.

(** ** Concrete collaborators *)

(** Modelled from the spec: [path::is_absolute] and [path::join] of
    [core/filesystem/path.h], for a platform whose separator is '/'. The
    spec says only "platform-defined absolute-path syntax" and
    "platform-correct join of the prefix and path (separator insertion)",
    with the scenario prefix "/data/game", path "levels/intro.bin",
    resolved "/data/game/levels/intro.bin". *)
Definition slash_is_absolute (path : string) : bool :=
  String.prefix "/" path.

Definition slash_join (path_a path_b : string) : string :=
  path_a +:+ "/" +:+ path_b.

Definition slash_path : Path :=
  {| is_absolute := slash_is_absolute; join := slash_join |}.

(** Modelled from the spec: the OS primitives of [core/os.h], over a file
    system that is a finite map from resolved paths to the kind of node
    there. The spec gives their contract as "existence semantics":
    after [create_file(p)], [exists(p)] and [is_file(p)] hold and
    [is_directory(p)] does not; after [delete_file(p)], [exists(p)] does
    not hold. Modification times and listings are left trivial. *)
Inductive node : Set := Directory | Regular.

Definition tree_os : Os (gmap string node) := {|
  os_exists p s := if s !! p is Some _ then true else false;
  os_is_directory p s := if s !! p is Some Directory then true else false;
  os_is_file p s := if s !! p is Some Regular then true else false;
  os_mtime p s := 0;
  os_create_directory p s := <[p := Directory]> s;
  os_delete_directory p s := if s !! p is Some Directory then delete p s else s;
  os_create_file p s := <[p := Regular]> s;
  os_delete_file p s := if s !! p is Some Regular then delete p s else s;
  os_list_files p files s := files
|}.

(** ** Sample states *)

(** A file of five bytes and handles open on it, for the examples. *)
Definition sample_bytes : list Byte.byte :=
  [Byte.x68; Byte.x65; Byte.x6c; Byte.x6c; Byte.x6f].

Definition Posix_sample_world : Posix.world :=
  Posix.mkWorld {[ "/data/a.bin" := sample_bytes ]} 1024 ∅ [].

Definition Posix_sample_open (mode : Posix.stdio_mode) : Posix.state :=
  (Posix.mkFileDisk 1,
   Posix.mkWorld {[ "/data/a.bin" := sample_bytes ]} 1024
     {[ 1 := Posix.mkFILE "/data/a.bin" mode 0 false false ]} []).

Definition Windows_sample_world : Windows.world :=
  Windows.mkWorld {[ "/data/a.bin" := sample_bytes ]} 1024 ∅ [].

Definition Windows_sample_open (a : Windows.access) : Windows.state :=
  (Windows.mkFileDisk 1 false,
   Windows.mkWorld {[ "/data/a.bin" := sample_bytes ]} 1024
     {[ 1 := Windows.mkHFILE "/data/a.bin" a 0 0 ]} []).

(** A handle open for writing on an empty file, on a device that takes
    two more bytes. *)
Definition Windows_sample_full : Windows.state :=
  (Windows.mkFileDisk 1 false,
   Windows.mkWorld {[ "/data/a.bin" := [] ]} 2
     {[ 1 := Windows.mkHFILE "/data/a.bin" Windows.GENERIC_WRITE 0 0 ]} []).

(** A handle open on a file of 2^31 bytes. *)
Definition Windows_sample_2GiB : Windows.state :=
  (Windows.mkFileDisk 1 false,
   Windows.mkWorld
     {[ "/data/big.bin" := replicate (Z.to_nat (2 ^ 31)) Byte.x00 ]} 1024
     {[ 1 := Windows.mkHFILE "/data/big.bin" Windows.GENERIC_READ 0 0 ]} []).

(** What a call returned, without the state it left. *)
Definition returned {A S} (o : outcome (A * S)) : outcome A :=
  match o with
  | Done (a, _) => Done a
  | Fatal msg => Fatal msg
  | Undefined => Undefined
  end.

(** * Properties *)

Ltac unfold_monad :=
  unfold CE_ENSURE, CE_ASSERT in *;
  unfold mbind, mret, M_bind, M_ret, get, put, modify, abort, undefined,
    native, this, set_this, on_object in *.

(** ** Machine integers *)

Lemma to_u32_small z : 0 ≤ z < 2 ^ 32 → to_u32 z = z.
Proof. intros. unfold to_u32. apply Z.mod_small. lia. Qed.

Lemma to_long_small z : - 2 ^ 63 ≤ z < 2 ^ 63 → to_long z = z.
Proof. intros. unfold to_long. rewrite Z.mod_small; lia. Qed.

Lemma to_LONG_small z : - 2 ^ 31 ≤ z < 2 ^ 31 → to_LONG z = z.
Proof. intros. unfold to_LONG. rewrite Z.mod_small; lia. Qed.

Lemma to_LONG_high z : 2 ^ 31 ≤ z < 2 ^ 32 → to_LONG z = z - 2 ^ 32.
Proof.
  intros. unfold to_LONG.
  replace (z + 2 ^ 31) with ((z - 2 ^ 31) + 1 * 2 ^ 32) by lia.
  rewrite Z.mod_add by lia. rewrite Z.mod_small; lia.
Qed.

(** ** Path resolution and delegation in the facade *)

Section Resolution.
Context {PU : Path}.

Lemma get_absolute_path_absolute fs path :
  is_absolute path = true → FilesystemDisk_get_absolute_path fs path = path.
Proof. intros Habs. unfold FilesystemDisk_get_absolute_path. by rewrite Habs. Qed.

Lemma get_absolute_path_relative fs path :
  is_absolute path = false →
  FilesystemDisk_get_absolute_path fs path = join (_prefix fs) path.
Proof. intros Hrel. unfold FilesystemDisk_get_absolute_path. by rewrite Hrel. Qed.

(** With a non-null path the entry check passes in every build. *)
Lemma entry_check {S A} dbg (path : string) (k : string → M S A) (s : S) :
  (CE_ENSURE dbg (non_null (Some path));; p ← c_str (Some path); k p) s = k path s.
Proof. unfold_monad. simpl. by destruct dbg. Qed.

End Resolution.



(** C8. [create_directory] is conditional: when the resolved path already
    exists it asks [os::exists] and makes no creation call, leaving the
    file system as it was; otherwise it asks and then calls
    [os::create_directory] exactly once. [delete_directory], [create_file]
    and [delete_file] make their one call on the resolved path without
    asking [os::exists] first. *)
Theorem C8_create_directory_conditional {PU : Path} {S : Type} {OS : Os S}
    (dbg : bool) (fs : FilesystemDisk) (path : string) (w : os_world S) :
  let abs_path := FilesystemDisk_get_absolute_path fs path in
  (os_exists abs_path (os_state w) = true →
     FilesystemDisk_create_directory dbg fs (Some path) w =
       Done (tt, mkOsWorld (os_state w) (call_exists abs_path :: os_trace w))) ∧
  (os_exists abs_path (os_state w) = false →
     FilesystemDisk_create_directory dbg fs (Some path) w =
       Done (tt, mkOsWorld (os_create_directory abs_path (os_state w))
                   (call_create_directory abs_path
                    :: call_exists abs_path :: os_trace w))) ∧
  FilesystemDisk_delete_directory dbg fs (Some path) w =
    Done (tt, mkOsWorld (os_delete_directory abs_path (os_state w))
                (call_delete_directory abs_path :: os_trace w)) ∧
  FilesystemDisk_create_file dbg fs (Some path) w =
    Done (tt, mkOsWorld (os_create_file abs_path (os_state w))
                (call_create_file abs_path :: os_trace w)) ∧
  FilesystemDisk_delete_file dbg fs (Some path) w =
    Done (tt, mkOsWorld (os_delete_file abs_path (os_state w))
                (call_delete_file abs_path :: os_trace w)).
Proof.
  intros abs_path. split_and!.
  - intros Hex. unfold FilesystemDisk_create_directory. rewrite entry_check.
    fold abs_path. unfold_monad. unfold os_query. simpl. by rewrite Hex.
  - intros Hex. unfold FilesystemDisk_create_directory. rewrite entry_check.
    fold abs_path. unfold_monad. unfold os_query. simpl. by rewrite Hex.
  - unfold FilesystemDisk_delete_directory. by rewrite entry_check.
  - unfold FilesystemDisk_create_file. by rewrite entry_check.
  - unfold FilesystemDisk_delete_file. by rewrite entry_check.
Qed.

Lemma C8_create_directory_conditional_witness :
  FilesystemDisk_create_directory (PU := slash_path) (OS := tree_os) true
    (mkFilesystemDisk "/data/game") (Some "levels")
    (mkOsWorld {[ "/data/game/levels" := Directory ]} [])
  = Done (tt, mkOsWorld {[ "/data/game/levels" := Directory ]}
                [call_exists "/data/game/levels"]) ∧
  FilesystemDisk_create_directory (PU := slash_path) (OS := tree_os) true
    (mkFilesystemDisk "/data/game") (Some "levels") (mkOsWorld ∅ [])
  = Done (tt, mkOsWorld {[ "/data/game/levels" := Directory ]}
                [call_create_directory "/data/game/levels";
                 call_exists "/data/game/levels"]).
Proof.
  split.
  - exact (proj1 (C8_create_directory_conditional (PU := slash_path)
             (OS := tree_os) true (mkFilesystemDisk "/data/game") "levels"
             (mkOsWorld {[ "/data/game/levels" := Directory ]} [])) eq_refl).
  - exact (proj1 (proj2 (C8_create_directory_conditional (PU := slash_path)
             (OS := tree_os) true (mkFilesystemDisk "/data/game") "levels"
             (mkOsWorld ∅ []))) eq_refl).
Defined.

(** ** A handle from its construction *)

(** C10. A freshly constructed handle is closed: its native reference is
    the sentinel ([NULL], [INVALID_HANDLE_VALUE]) and [is_open()] is
    false, in both variants; in the Win32 variant the end-of-file flag
    starts false, so [end_of_file()] on the new handle returns false (and
    changes nothing). The handle the facade allocates is such a one. *)
Theorem C10_fresh_handle_closed :
  Posix._file Posix.FileDisk_ctor = Posix.NULL ∧
  Posix.is_open Posix.FileDisk_ctor = false ∧
  Windows._file Windows.FileDisk_ctor = Windows.INVALID_HANDLE_VALUE ∧
  Windows.is_open Windows.FileDisk_ctor = false ∧
  Windows._eof Windows.FileDisk_ctor = false ∧
  (∀ w : Windows.world,
     Windows.end_of_file (Windows.FileDisk_ctor, w)
     = Done (false, (Windows.FileDisk_ctor, w))) ∧
  File_is_open (F := Posix.FileDisk) File_new = false ∧
  File_is_open (F := Windows.FileDisk) File_new = false.
Proof. split_and!; try reflexivity. Qed.

(** ** Closing *)

Lemma Posix_close_closed (st : Posix.state) :
  Posix.is_open st.1 = false → Posix.close st = Done (tt, st).
Proof.
  destruct st as [f w]. simpl. intros Hc.
  unfold Posix.close. unfold_monad. by rewrite Hc.
Qed.

Lemma Posix_close_open (f : Posix.FileDisk) (w : Posix.world) (s : Posix.FILE) :
  Posix.is_open f = true →
  Posix.streams w !! Posix._file f = Some s →
  Posix.close (f, w)
  = Done (tt, (Posix.mkFileDisk Posix.NULL,
               Posix.mkWorld (Posix.disk w) (Posix.disk_free w)
                 (delete (Posix._file f) (Posix.streams w))
                 (Posix.c_fclose (Posix._file f) :: Posix.trace w))).
Proof.
  intros Ho Hs. unfold Posix.close, Posix.fclose, Posix.stream, Posix.log.
  unfold_monad. by rewrite Ho, Hs.
Qed.

Lemma Windows_close_closed (st : Windows.state) :
  Windows.is_open st.1 = false → Windows.close st = Done (tt, st).
Proof.
  destruct st as [f w]. simpl. intros Hc.
  unfold Windows.close. unfold_monad. by rewrite Hc.
Qed.

Lemma Windows_close_open (f : Windows.FileDisk) (w : Windows.world) :
  Windows.is_open f = true →
  ∃ w', Windows.close (f, w)
        = Done (tt, (Windows.mkFileDisk Windows.INVALID_HANDLE_VALUE
                       (Windows._eof f), w')) ∧
        Windows.releases (Windows.trace w') = S (Windows.releases (Windows.trace w)) ∧
        Windows.handles w' !! Windows._file f = None.
Proof.
  intros Ho. unfold Windows.close, Windows.CloseHandle, Windows.log.
  unfold_monad. rewrite Ho.
  destruct (Windows.handles w !! Windows._file f) eqn:Hh; simpl;
    eexists; (split; [reflexivity|]); simpl; split; try done.
  apply lookup_delete_eq.
Qed.

(** C5. [close()] is idempotent and cannot fail. It returns normally in
    every build; afterwards [is_open()] is false; it calls the native
    release ([fclose], [CloseHandle]) once if the handle was open and not
    at all otherwise (so a handle never opened is left as it was); a
    second [close()], and the destructor after it, return normally,
    change nothing and release nothing. *)
Theorem C5_close_idempotent :
  (∀ st : Posix.state, Posix.consistent st →
     ∃ st1, Posix.close st = Done (tt, st1) ∧
            Posix.is_open st1.1 = false ∧
            Posix.close st1 = Done (tt, st1) ∧
            Posix.FileDisk_dtor st1 = Done (tt, st1) ∧
            Posix.releases (Posix.trace st1.2)
            = (Posix.releases (Posix.trace st.2)
               + (if Posix.is_open st.1 then 1 else 0))%nat ∧
            (Posix.is_open st.1 = false → st1 = st) ∧
            (Posix.is_open st.1 = true →
             Posix.streams st1.2 !! Posix._file st.1 = None)) ∧
  (∀ st : Windows.state,
     ∃ st1, Windows.close st = Done (tt, st1) ∧
            Windows.is_open st1.1 = false ∧
            Windows.close st1 = Done (tt, st1) ∧
            Windows.FileDisk_dtor st1 = Done (tt, st1) ∧
            Windows.releases (Windows.trace st1.2)
            = (Windows.releases (Windows.trace st.2)
               + (if Windows.is_open st.1 then 1 else 0))%nat ∧
            (Windows.is_open st.1 = false → st1 = st) ∧
            (Windows.is_open st.1 = true →
             Windows.handles st1.2 !! Windows._file st.1 = None)).
Proof.
  split.
  - intros [f w] Hcons. unfold Posix.FileDisk_dtor.
    destruct (Posix.is_open f) eqn:Ho.
    + destruct (Hcons Ho) as [s Hs]. simpl in Hs.
      eexists. split; [by apply (Posix_close_open f w s)|].
      simpl. rewrite Ho. split_and!; try done; try lia.
      intros _. apply lookup_delete_eq.
    + exists (f, w). rewrite !Posix_close_closed by done.
      simpl. rewrite Ho. split_and!; try done; lia.
  - intros [f w]. unfold Windows.FileDisk_dtor.
    destruct (Windows.is_open f) eqn:Ho.
    + destruct (Windows_close_open f w Ho) as (w' & Hclose & Hrel & Hgone).
      eexists. split; [exact Hclose|].
      simpl. rewrite Ho, Hrel. split_and!; try done; lia.
    + exists (f, w). rewrite !Windows_close_closed by done.
      simpl. rewrite Ho. split_and!; try done; lia.
Qed.

Lemma C5_close_idempotent_witness :
  ∃ st1, Posix.close (Posix_sample_open Posix.rb) = Done (tt, st1) ∧
         Posix.is_open st1.1 = false ∧
         Posix.close st1 = Done (tt, st1) ∧
         Posix.FileDisk_dtor st1 = Done (tt, st1) ∧
         Posix.releases (Posix.trace st1.2)
         = (Posix.releases (Posix.trace (Posix_sample_open Posix.rb).2)
            + (if Posix.is_open (Posix_sample_open Posix.rb).1 then 1 else 0))%nat ∧
         (Posix.is_open (Posix_sample_open Posix.rb).1 = false →
          st1 = Posix_sample_open Posix.rb) ∧
         (Posix.is_open (Posix_sample_open Posix.rb).1 = true →
          Posix.streams st1.2 !! Posix._file (Posix_sample_open Posix.rb).1 = None).
Proof.
  apply (proj1 C5_close_idempotent (Posix_sample_open Posix.rb)).
  intros _. eexists. reflexivity.
Defined.

(** ** The native calls on an open stream *)

Section PosixNative.
Import Posix.

Lemma ftell_run w fp s :
  streams w !! fp = Some s → 0 ≤ f_pos s ≤ LONG_MAX →
  ftell fp w = Done (f_pos s, logged (c_ftell fp (f_pos s)) w).
Proof.
  intros Hs Hp. unfold ftell, stream, log, logged. unfold_monad.
  rewrite Hs. simpl.
  destruct (f_pos s <=? LONG_MAX) eqn:Hle; [done | lia].
Qed.

Lemma fseek_run w fp s offset origin :
  streams w !! fp = Some s →
  0 ≤ seek_base w s origin + offset ≤ LONG_MAX →
  fseek fp offset origin w
  = Done (0, logged (c_fseek fp offset origin 0)
               (moved fp s (seek_base w s origin + offset) w)).
Proof.
  intros Hs Hp. unfold fseek, stream, content, set_stream, log, logged, moved.
  unfold_monad. rewrite Hs. simpl.
  unfold seek_base, file_of in Hp.
  destruct origin; simpl in *;
    (case_match; [done | exfalso; apply andb_false_iff in H as [H|H]; lia]).
Qed.

Lemma fseek_fails w fp s offset origin :
  streams w !! fp = Some s →
  ¬ (0 ≤ seek_base w s origin + offset ≤ LONG_MAX) →
  fseek fp offset origin w
  = Done (-1, logged (c_fseek fp offset origin (-1)) w).
Proof.
  intros Hs Hp. unfold fseek, stream, content, set_stream, log, logged.
  unfold_monad. rewrite Hs. simpl.
  unfold seek_base, file_of in Hp.
  destruct origin; simpl in *;
    (case_match; [exfalso; apply andb_true_iff in H as [H1 H2]; lia | done]).
Qed.

End PosixNative.


(** ** Running a method step by step *)

Lemma bind_this {F W A} (k : F → M (F * W) A) (f : F) (w : W) :
  (x ← this; k x) (f, w) = k f (f, w).
Proof. done. Qed.

Lemma bind_native {F W A B} (m : M W A) (k : A → M (F * W) B) f w a w' :
  m w = Done (a, w') → (x ← native m; k x) (f, w) = k a (f, w').
Proof. intros Hm. unfold_monad. by rewrite Hm. Qed.

Lemma bind_done {S A B} (m : M S A) (k : A → M S B) s a s' :
  m s = Done (a, s') → (x ← m; k x) s = k a s'.
Proof. intros Hm. unfold_monad. by rewrite Hm. Qed.

Lemma assert_pass {S} dbg c msg (s : S) :
  c = true → CE_ASSERT dbg c msg s = Done (tt, s).
Proof. intros ->. by destruct dbg. Qed.

Lemma bind_assert {S B} dbg c msg (k : M S B) (s : S) :
  c = true → (CE_ASSERT dbg c msg;; k) s = k s.
Proof. intros ->. by destruct dbg. Qed.

(** ** The cursor of an open handle, stdio variant *)

Section PosixCursor.
Import Posix.
Variable dbg : bool.

Lemma Posix_position_run f w s :
  streams w !! _file f = Some s → 0 ≤ f_pos s ≤ LONG_MAX →
  position dbg (f, w)
  = Done (to_u32 (f_pos s), (f, logged (c_ftell (_file f) (f_pos s)) w)).
Proof.
  intros Hs Hp. unfold position. rewrite bind_this.
  rewrite (bind_native _ _ _ _ _ _ (ftell_run _ _ _ Hs Hp)).
  rewrite bind_assert; [done|].
  apply negb_true_iff. lia.
Qed.

Lemma Posix_fseek_method f w s offset origin :
  streams w !! _file f = Some s →
  0 ≤ seek_base w s origin + offset ≤ LONG_MAX →
  (err ← native (fseek (_file f) offset origin);
   CE_ASSERT dbg (err =? 0) "fseek") (f, w)
  = Done (tt, (f, logged (c_fseek (_file f) offset origin 0)
                    (moved (_file f) s (seek_base w s origin + offset) w))).
Proof.
  intros Hs Hp.
  rewrite (bind_native _ _ _ _ _ _ (fseek_run _ _ _ _ _ Hs Hp)).
  by apply assert_pass.
Qed.

Lemma Posix_seek_run f w s k :
  streams w !! _file f = Some s → 0 ≤ k < 2 ^ 32 →
  seek dbg k (f, w)
  = Done (tt, (f, logged (c_fseek (_file f) k SEEK_SET 0) (moved (_file f) s k w))).
Proof.
  intros Hs Hk. unfold seek.
  rewrite to_long_small by lia. rewrite bind_this.
  rewrite (Posix_fseek_method f w s k SEEK_SET Hs); [done|].
  simpl. unfold LONG_MAX. lia.
Qed.

Lemma Posix_seek_to_end_run f w s :
  streams w !! _file f = Some s → zlen (file_of w s) ≤ LONG_MAX →
  seek_to_end dbg (f, w)
  = Done (tt, (f, logged (c_fseek (_file f) 0 SEEK_END 0)
                    (moved (_file f) s (zlen (file_of w s)) w))).
Proof.
  intros Hs Hk. unfold seek_to_end. rewrite bind_this.
  rewrite (Posix_fseek_method f w s 0 SEEK_END Hs).
  - simpl. by rewrite Z.add_0_r.
  - simpl. unfold zlen in *. lia.
Qed.

Lemma Posix_skip_run f w s k :
  streams w !! _file f = Some s →
  0 ≤ k < 2 ^ 32 → 0 ≤ f_pos s → f_pos s + k ≤ LONG_MAX →
  skip dbg k (f, w)
  = Done (tt, (f, logged (c_fseek (_file f) k SEEK_CUR 0)
                    (moved (_file f) s (f_pos s + k) w))).
Proof.
  intros Hs Hk Hp Hpk. unfold skip.
  rewrite to_long_small by lia. rewrite bind_this.
  rewrite (Posix_fseek_method f w s k SEEK_CUR Hs); [done|].
  simpl. lia.
Qed.

Lemma Posix_size_run f w s :
  streams w !! _file f = Some s →
  0 ≤ f_pos s ≤ LONG_MAX → zlen (file_of w s) ≤ LONG_MAX →
  ∃ w', size dbg (f, w) = Done (to_u32 (zlen (file_of w s)), (f, w')) ∧
        streams w' !! _file f
        = Some (mkFILE (f_path s) (f_mode s) (f_pos s) false (f_err s)) ∧
        disk w' = disk w.
Proof.
  intros Hs Hp Hlen. unfold size. rewrite bind_this.
  assert (0 ≤ zlen (file_of w s)) as Hlen0 by (unfold zlen; lia).
  rewrite (bind_native _ _ _ _ _ _ (ftell_run _ _ _ Hs Hp)).
  rewrite bind_assert by (apply negb_true_iff; lia).
  set (w1 := logged _ w).
  assert (streams w1 !! _file f = Some s) as Hs1 by done.
  assert (0 ≤ seek_base w1 s SEEK_END + 0 ≤ LONG_MAX) as Hb1
    by (simpl; change (file_of w1 s) with (file_of w s); lia).
  rewrite (bind_native _ _ _ _ _ _ (fseek_run w1 _ s 0 SEEK_END Hs1 Hb1)).
  rewrite bind_assert by done.
  simpl seek_base. change (file_of w1 s) with (file_of w s).
  rewrite Z.add_0_r.
  set (w2 := logged _ _).
  set (s2 := mkFILE (f_path s) (f_mode s) (zlen (file_of w s)) false (f_err s)).
  assert (streams w2 !! _file f = Some s2) as Hs2 by apply lookup_insert_eq.
  assert (0 ≤ f_pos s2 ≤ LONG_MAX) as Hp2 by (simpl; lia).
  rewrite (bind_native _ _ _ _ _ _ (ftell_run w2 _ s2 Hs2 Hp2)).
  rewrite bind_assert by (apply negb_true_iff; simpl; lia).
  set (w3 := logged _ w2).
  assert (streams w3 !! _file f = Some s2) as Hs3 by apply lookup_insert_eq.
  rewrite to_long_small by (unfold LONG_MAX in *; lia).
  assert (0 ≤ seek_base w3 s2 SEEK_SET + f_pos s ≤ LONG_MAX) as Hb3
    by (simpl; lia).
  rewrite (bind_native _ _ _ _ _ _ (fseek_run w3 _ s2 _ SEEK_SET Hs3 Hb3)).
  rewrite bind_assert by done.
  eexists. split; [reflexivity|].
  split; [|done]. simpl. by rewrite lookup_insert_eq.
Qed.

End PosixCursor.

(** ** The native calls on an open handle, and the cursor, Win32 variant *)

Section WindowsCursor.
Import Windows.
Variable dbg : bool.

Lemma SetFilePointer_run w h f distance m :
  handles w !! h = Some f →
  0 ≤ move_base w f m + distance < 2 ^ 32 →
  SetFilePointer h distance m w
  = Done (move_base w f m + distance,
          logged (c_SetFilePointer h distance m (move_base w f m + distance))
            (moved h f (move_base w f m + distance) w)).
Proof.
  intros Hh Hp. unfold SetFilePointer, set_handle, log, logged, moved.
  unfold_monad. rewrite Hh.
  unfold move_base, file_of in Hp.
  destruct m; simpl in *;
    (case_match; [done | exfalso; apply andb_false_iff in H as [H|H]; lia]).
Qed.

Lemma SetFilePointer_fails w h f distance m :
  handles w !! h = Some f →
  ¬ (0 ≤ move_base w f m + distance < 2 ^ 32) →
  SetFilePointer h distance m w
  = Done (INVALID_SET_FILE_POINTER,
          logged (c_SetFilePointer h distance m INVALID_SET_FILE_POINTER) w).
Proof.
  intros Hh Hp. unfold SetFilePointer, set_handle, log, logged.
  unfold_monad. rewrite Hh.
  unfold move_base, file_of in Hp.
  destruct m; simpl in *;
    (case_match; [exfalso; apply andb_true_iff in H as [H1 H2]; lia | done]).
Qed.

Lemma SetFilePointer_invalid w h distance m :
  handles w !! h = None →
  SetFilePointer h distance m w
  = Done (INVALID_SET_FILE_POINTER,
          logged (c_SetFilePointer h distance m INVALID_SET_FILE_POINTER) w).
Proof.
  intros Hh. unfold SetFilePointer, log, logged. unfold_monad. by rewrite Hh.
Qed.

Lemma GetFileSize_run w h :
  GetFileSize h w
  = Done (match handles w !! h with
          | Some f => to_u32 (zlen (file_of w f))
          | None => INVALID_FILE_SIZE
          end,
          logged (c_GetFileSize h
                    match handles w !! h with
                    | Some f => to_u32 (zlen (file_of w f))
                    | None => INVALID_FILE_SIZE
                    end) w).
Proof. done. Qed.

Lemma Windows_size_run f w :
  size (f, w)
  = Done (match handles w !! _file f with
          | Some hf => to_u32 (zlen (file_of w hf))
          | None => INVALID_FILE_SIZE
          end,
          (f, logged (c_GetFileSize (_file f)
                        match handles w !! _file f with
                        | Some hf => to_u32 (zlen (file_of w hf))
                        | None => INVALID_FILE_SIZE
                        end) w)).
Proof. done. Qed.

Lemma Windows_move_method f w hf distance m :
  handles w !! _file f = Some hf →
  0 ≤ move_base w hf m + distance < 2 ^ 32 - 1 →
  (err ← native (SetFilePointer (_file f) distance m);
   CE_ASSERT dbg (negb (err =? INVALID_SET_FILE_POINTER)) "SetFilePointer") (f, w)
  = Done (tt, (f, logged (c_SetFilePointer (_file f) distance m
                            (move_base w hf m + distance))
                    (moved (_file f) hf (move_base w hf m + distance) w))).
Proof.
  intros Hh Hp.
  assert (0 ≤ move_base w hf m + distance < 2 ^ 32) as Hp' by lia.
  rewrite (bind_native _ _ _ _ _ _ (SetFilePointer_run _ _ _ _ _ Hh Hp')).
  apply assert_pass. apply negb_true_iff.
  unfold INVALID_SET_FILE_POINTER. lia.
Qed.

Lemma Windows_position_run f w hf :
  handles w !! _file f = Some hf → 0 ≤ h_pos hf < 2 ^ 32 - 1 →
  position dbg (f, w)
  = Done (h_pos hf,
          (f, logged (c_SetFilePointer (_file f) 0 FILE_CURRENT (h_pos hf))
                (moved (_file f) hf (h_pos hf) w))).
Proof.
  intros Hh Hp. unfold position. rewrite bind_this.
  assert (0 ≤ move_base w hf FILE_CURRENT + 0 < 2 ^ 32) as Hp'
    by (simpl; lia).
  rewrite (bind_native _ _ _ _ _ _ (SetFilePointer_run _ _ _ _ _ Hh Hp')).
  simpl move_base. rewrite Z.add_0_r.
  rewrite bind_assert
    by (apply negb_true_iff; unfold INVALID_SET_FILE_POINTER; lia).
  unfold_monad. by rewrite to_u32_small by lia.
Qed.

Lemma Windows_seek_run f w hf k :
  handles w !! _file f = Some hf → 0 ≤ k < 2 ^ 31 →
  seek dbg k (f, w)
  = Done (tt, (f, logged (c_SetFilePointer (_file f) k FILE_BEGIN k)
                    (moved (_file f) hf k w))).
Proof.
  intros Hh Hk. unfold seek. rewrite bind_this.
  rewrite to_LONG_small by lia.
  rewrite (Windows_move_method f w hf k FILE_BEGIN Hh); [done|].
  simpl. lia.
Qed.

Lemma Windows_seek_to_end_run f w hf :
  handles w !! _file f = Some hf → zlen (file_of w hf) < 2 ^ 32 - 1 →
  seek_to_end dbg (f, w)
  = Done (tt, (f, logged (c_SetFilePointer (_file f) 0 FILE_END
                            (zlen (file_of w hf)))
                    (moved (_file f) hf (zlen (file_of w hf)) w))).
Proof.
  intros Hh Hk. unfold seek_to_end. rewrite bind_this.
  rewrite (Windows_move_method f w hf 0 FILE_END Hh).
  - simpl. by rewrite Z.add_0_r.
  - simpl. unfold zlen in *. lia.
Qed.

Lemma Windows_skip_run f w hf k :
  handles w !! _file f = Some hf →
  0 ≤ k < 2 ^ 31 → 0 ≤ h_pos hf → h_pos hf + k < 2 ^ 32 - 1 →
  skip dbg k (f, w)
  = Done (tt, (f, logged (c_SetFilePointer (_file f) k FILE_CURRENT
                            (h_pos hf + k))
                    (moved (_file f) hf (h_pos hf + k) w))).
Proof.
  intros Hh Hk Hp Hpk. unfold skip. rewrite bind_this.
  rewrite to_LONG_small by lia.
  rewrite (Windows_move_method f w hf k FILE_CURRENT Hh); [done|].
  simpl. lia.
Qed.

(** From 2^31 on the [u32] offset turns into a negative [LONG]: [seek]
    would move before the start of the file and the native call fails;
    [skip] fails whenever the position asked for, [p + k], is one a [u32]
    holds. *)
Lemma Windows_move_method_fails f w hf distance m :
  handles w !! _file f = Some hf →
  ¬ (0 ≤ move_base w hf m + distance < 2 ^ 32) →
  (err ← native (SetFilePointer (_file f) distance m);
   CE_ASSERT true (negb (err =? INVALID_SET_FILE_POINTER)) "SetFilePointer") (f, w)
  = Fatal "SetFilePointer".
Proof.
  intros Hh Hp.
  by rewrite (bind_native _ _ _ _ _ _ (SetFilePointer_fails _ _ _ _ _ Hh Hp)).
Qed.

Lemma Windows_seek_high_fails f w hf k :
  handles w !! _file f = Some hf → 2 ^ 31 ≤ k < 2 ^ 32 →
  seek true k (f, w) = Fatal "SetFilePointer".
Proof.
  intros Hh Hk. unfold seek. rewrite bind_this.
  rewrite to_LONG_high by lia.
  apply (Windows_move_method_fails f w hf _ FILE_BEGIN Hh). simpl. lia.
Qed.

Lemma Windows_skip_high_fails f w hf k :
  handles w !! _file f = Some hf → 2 ^ 31 ≤ k < 2 ^ 32 →
  h_pos hf + k < 2 ^ 32 →
  skip true k (f, w) = Fatal "SetFilePointer".
Proof.
  intros Hh Hk Hp. unfold skip. rewrite bind_this.
  rewrite to_LONG_high by lia.
  apply (Windows_move_method_fails f w hf _ FILE_CURRENT Hh). simpl. lia.
Qed.

End WindowsCursor.

Lemma Windows_position_logged dbg f c w :
  returned (Windows.position dbg (f, Windows.logged c w))
  = returned (Windows.position dbg (f, w)).
Proof.
  unfold Windows.position, Windows.SetFilePointer, Windows.set_handle,
    Windows.log, Windows.logged.
  unfold_monad. simpl.
  destruct (Windows.handles w !! Windows._file f); simpl;
    repeat (case_match; simpl in *; simplify_eq); done.
Qed.

Lemma Posix_stream_moved c fp s np w :
  Posix.streams (Posix.logged c (Posix.moved fp s np w)) !! fp
  = Some (Posix.mkFILE (Posix.f_path s) (Posix.f_mode s) np false (Posix.f_err s)).
Proof. apply lookup_insert_eq. Qed.

Lemma Windows_handle_moved c h f np w :
  Windows.handles (Windows.logged c (Windows.moved h f np w)) !! h
  = Some (Windows.mkHFILE (Windows.h_path f) (Windows.h_access f)
            (Windows.h_share f) np).
Proof. apply lookup_insert_eq. Qed.

(** ** Size and cursor *)

(** C6. On an open handle [size()] returns the byte length of the file
    (as a [u32]: the length itself when it is below 2^32) and leaves the
    cursor where it was: [position()] asked after [size()] returns what it
    returns before. The stdio variant gets the size by seeking to the end
    and back; the handle stays bound to the same stream at the same
    position and the file is not changed. The Win32 variant asks
    [GetFileSize], which moves nothing. *)
Theorem C6_size_keeps_position (dbg : bool) :
  (∀ (st : Posix.state) (s : Posix.FILE),
     Posix.bound st s →
     0 ≤ Posix.f_pos s ≤ LONG_MAX →
     zlen (Posix.file_of st.2 s) ≤ LONG_MAX →
     ∃ st',
       Posix.size dbg st = Done (to_u32 (zlen (Posix.file_of st.2 s)), st') ∧
       (zlen (Posix.file_of st.2 s) < 2 ^ 32 →
        returned (Posix.size dbg st) = Done (zlen (Posix.file_of st.2 s))) ∧
       returned (Posix.position dbg st') = returned (Posix.position dbg st) ∧
       returned (Posix.position dbg st) = Done (to_u32 (Posix.f_pos s)) ∧
       (∃ s', Posix.bound st' s' ∧ Posix.f_pos s' = Posix.f_pos s) ∧
       Posix.disk st'.2 = Posix.disk st.2 ∧
       st'.1 = st.1) ∧
  (∀ (st : Windows.state) (h : Windows.HFILE),
     Windows.bound st h →
     ∃ st',
       Windows.size st = Done (to_u32 (zlen (Windows.file_of st.2 h)), st') ∧
       (zlen (Windows.file_of st.2 h) < 2 ^ 32 →
        returned (Windows.size st) = Done (zlen (Windows.file_of st.2 h))) ∧
       returned (Windows.position dbg st') = returned (Windows.position dbg st) ∧
       Windows.bound st' h ∧
       Windows.disk st'.2 = Windows.disk st.2 ∧
       st'.1 = st.1).
Proof.
  split.
  - intros [f w] s Hs Hp Hlen. unfold Posix.bound in Hs. simpl in *.
    destruct (Posix_size_run dbg f w s Hs Hp Hlen) as (w' & Hsize & Hs' & Hdisk).
    exists (f, w'). rewrite Hsize. simpl. split_and!; try done.
    + intros Hsmall. rewrite to_u32_small; [done|].
      unfold zlen, Posix.file_of in *. lia.
    + rewrite (Posix_position_run dbg f w' _ Hs') by done.
      by rewrite (Posix_position_run dbg f w s Hs Hp).
    + by rewrite (Posix_position_run dbg f w s Hs Hp).
    + eexists. split; [exact Hs'|done].
  - intros [f w] h Hh. unfold Windows.bound in Hh. simpl in *.
    eexists. rewrite Windows_size_run, Hh. simpl.
    split_and!; try done.
    + intros Hsmall. rewrite to_u32_small; [done|].
      unfold zlen, Windows.file_of in *. lia.
    + apply Windows_position_logged.
Qed.

Lemma C6_size_keeps_position_witness :
  ∃ st',
    Posix.size true (Posix_sample_open Posix.rb) = Done (5, st') ∧
    returned (Posix.position true st')
    = returned (Posix.position true (Posix_sample_open Posix.rb)).
Proof.
  destruct (proj1 (C6_size_keeps_position true) (Posix_sample_open Posix.rb)
              (Posix.mkFILE "/data/a.bin" Posix.rb 0 false false))
    as (st' & Hsize & _ & Hpos & _).
  - reflexivity.
  - simpl. unfold LONG_MAX. lia.
  - vm_compute. discriminate.
  - exists st'. split; [exact Hsize | exact Hpos].
Defined.

(** The cursor invariants of an open handle, in every build, while the
    offsets stay in the range the native call takes. Stdio variant (the
    offset goes into a 64-bit [long]): for every [k] of [u32], [seek(k)]
    then [position()] gives [k]; [seek_to_end()] then [position()] gives
    what [size()] gives; [skip(k)] from position [p] with [p + k] below
    2^32 then [position()] gives [p + k]. Win32 variant (the offset goes
    into [SetFilePointer]'s signed 32-bit distance, with no high part):
    the same for [k] below 2^31, a file shorter than 2^32 - 1 bytes, and
    [p + k] below 2^32 - 1. *)
Lemma cursor_invariants_in_range (dbg : bool) :
  (∀ (st : Posix.state) (s : Posix.FILE) (k : Z),
     Posix.bound st s →
     0 ≤ Posix.f_pos s →
     0 ≤ k < 2 ^ 32 →
     returned ((Posix.seek dbg k;; Posix.position dbg) st) = Done k ∧
     (zlen (Posix.file_of st.2 s) ≤ LONG_MAX →
      ∃ st1, Posix.seek_to_end dbg st = Done (tt, st1) ∧
             returned (Posix.position dbg st1) = returned (Posix.size dbg st1) ∧
             returned (Posix.position dbg st1)
             = Done (to_u32 (zlen (Posix.file_of st.2 s)))) ∧
     (Posix.f_pos s + k < 2 ^ 32 →
      returned (Posix.position dbg st) = Done (Posix.f_pos s) ∧
      returned ((Posix.skip dbg k;; Posix.position dbg) st)
      = Done (Posix.f_pos s + k))) ∧
  (∀ (st : Windows.state) (h : Windows.HFILE) (k : Z),
     Windows.bound st h →
     0 ≤ Windows.h_pos h →
     0 ≤ k < 2 ^ 31 →
     returned ((Windows.seek dbg k;; Windows.position dbg) st) = Done k ∧
     (zlen (Windows.file_of st.2 h) < 2 ^ 32 - 1 →
      ∃ st1, Windows.seek_to_end dbg st = Done (tt, st1) ∧
             returned (Windows.position dbg st1) = returned (Windows.size st1) ∧
             returned (Windows.position dbg st1)
             = Done (zlen (Windows.file_of st.2 h))) ∧
     (Windows.h_pos h + k < 2 ^ 32 - 1 →
      returned (Windows.position dbg st) = Done (Windows.h_pos h) ∧
      returned ((Windows.skip dbg k;; Windows.position dbg) st)
      = Done (Windows.h_pos h + k))).
Proof.
  split.
  - intros [f w] s k Hs Hp Hk. unfold Posix.bound in Hs. simpl in *.
    split_and!.
    + rewrite (bind_done _ _ _ _ _ (Posix_seek_run dbg f w s k Hs Hk)).
      rewrite (Posix_position_run dbg f _ _ (Posix_stream_moved _ _ _ _ _))
        by (simpl; unfold LONG_MAX; lia).
      simpl. by rewrite to_u32_small.
    + intros Hlen. eexists.
      split; [by apply (Posix_seek_to_end_run dbg f w s)|].
      assert (0 ≤ zlen (Posix.file_of w s)) as Hlen0 by (unfold zlen; lia).
      rewrite (Posix_position_run dbg f _ _ (Posix_stream_moved _ _ _ _ _))
        by (simpl; lia).
      edestruct (Posix_size_run dbg f) as (w' & Hsize & _);
        [apply Posix_stream_moved | | | rewrite Hsize]; simpl; try done; lia.
    + intros Hpk.
      rewrite (Posix_position_run dbg f w s Hs) by (unfold LONG_MAX; lia).
      rewrite (bind_done _ _ _ _ _ (Posix_skip_run dbg f w s k Hs Hk Hp
                 ltac:(unfold LONG_MAX; lia))).
      rewrite (Posix_position_run dbg f _ _ (Posix_stream_moved _ _ _ _ _))
        by (simpl; unfold LONG_MAX; lia).
      simpl. by rewrite !to_u32_small by lia.
  - intros [f w] h k Hh Hp Hk. unfold Windows.bound in Hh. simpl in *.
    split_and!.
    + rewrite (bind_done _ _ _ _ _ (Windows_seek_run dbg f w h k Hh Hk)).
      by rewrite (Windows_position_run dbg f _ _ (Windows_handle_moved _ _ _ _ _))
        by (simpl; lia).
    + intros Hlen. eexists.
      split; [by apply (Windows_seek_to_end_run dbg f w h)|].
      assert (0 ≤ zlen (Windows.file_of w h)) as Hlen0 by (unfold zlen; lia).
      rewrite (Windows_position_run dbg f _ _ (Windows_handle_moved _ _ _ _ _))
        by (simpl; lia).
      rewrite Windows_size_run. simpl. rewrite lookup_insert_eq.
      simpl. split; [|done].
      change (Windows.file_of _ _) with (Windows.file_of w h).
      by rewrite to_u32_small by lia.
    + intros Hpk.
      rewrite (Windows_position_run dbg f w h Hh) by lia.
      rewrite (bind_done _ _ _ _ _ (Windows_skip_run dbg f w h k Hh Hk Hp Hpk)).
      by rewrite (Windows_position_run dbg f _ _ (Windows_handle_moved _ _ _ _ _))
        by (simpl; lia).
Qed.

(** Where assertions are not enabled the failed move is not noticed. *)
Lemma Windows_seek_high_release f w hf k :
  Windows.handles w !! Windows._file f = Some hf →
  2 ^ 31 ≤ k < 2 ^ 32 →
  Windows.seek false k (f, w)
  = Done (tt, (f, Windows.logged
                    (Windows.c_SetFilePointer (Windows._file f) (k - 2 ^ 32)
                       Windows.FILE_BEGIN Windows.INVALID_SET_FILE_POINTER) w)).
Proof.
  intros Hh Hk. unfold Windows.seek. rewrite bind_this.
  rewrite to_LONG_high by lia.
  assert (¬ (0 ≤ Windows.move_base w hf Windows.FILE_BEGIN + (k - 2 ^ 32)
             < 2 ^ 32)) as Hout by (simpl; lia).
  by rewrite (bind_native _ _ _ _ _ _
                (SetFilePointer_fails w _ hf _ Windows.FILE_BEGIN Hh Hout)).
Qed.

Lemma Windows_skip_high_release f w hf k :
  Windows.handles w !! Windows._file f = Some hf →
  2 ^ 31 ≤ k < 2 ^ 32 → Windows.h_pos hf + k < 2 ^ 32 →
  Windows.skip false k (f, w)
  = Done (tt, (f, Windows.logged
                    (Windows.c_SetFilePointer (Windows._file f) (k - 2 ^ 32)
                       Windows.FILE_CURRENT Windows.INVALID_SET_FILE_POINTER)
                    w)).
Proof.
  intros Hh Hk Hp. unfold Windows.skip. rewrite bind_this.
  rewrite to_LONG_high by lia.
  assert (¬ (0 ≤ Windows.move_base w hf Windows.FILE_CURRENT + (k - 2 ^ 32)
             < 2 ^ 32)) as Hout by (simpl; lia).
  by rewrite (bind_native _ _ _ _ _ _
                (SetFilePointer_fails w _ hf _ Windows.FILE_CURRENT Hh Hout)).
Qed.

(** C7, on the code. The cursor methods hand their [u32] offset to the
    native call. The stdio variant converts it to a [long] of 64 bits,
    and there the invariants hold for every offset of [u32]: [seek(k)]
    then [position()] gives [k]; [seek_to_end()] then [position()] gives
    what [size()] gives; [skip(k)] from position [p], with [p + k] a
    [u32], then [position()] gives [p + k]. The Win32 variant converts
    the offset to [SetFilePointer]'s signed 32-bit distance and passes
    no high part. Below 2^31 the invariants hold as on stdio. From 2^31
    on the distance is negative: [seek(k)] fails in [SetFilePointer]
    whatever the length of the file, so also for [k ≤ size()] on a file
    of 2^31 bytes or more, and [skip(k)] from [p] fails when [p + k] is
    a [u32]. Where assertions are enabled the call aborts; where they
    are not it returns and [position()] still gives [p]. *)
Theorem C7_offset_as_signed_distance (dbg : bool) :
  (∀ (st : Posix.state) (s : Posix.FILE) (k : Z),
     Posix.bound st s →
     0 ≤ Posix.f_pos s →
     0 ≤ k < 2 ^ 32 →
     returned ((Posix.seek dbg k;; Posix.position dbg) st) = Done k ∧
     (zlen (Posix.file_of st.2 s) ≤ LONG_MAX →
      ∃ st1, Posix.seek_to_end dbg st = Done (tt, st1) ∧
             returned (Posix.position dbg st1) = returned (Posix.size dbg st1) ∧
             returned (Posix.position dbg st1)
             = Done (to_u32 (zlen (Posix.file_of st.2 s)))) ∧
     (Posix.f_pos s + k < 2 ^ 32 →
      returned (Posix.position dbg st) = Done (Posix.f_pos s) ∧
      returned ((Posix.skip dbg k;; Posix.position dbg) st)
      = Done (Posix.f_pos s + k))) ∧
  (∀ (st : Windows.state) (h : Windows.HFILE) (k : Z),
     Windows.bound st h →
     0 ≤ Windows.h_pos h →
     0 ≤ k < 2 ^ 31 →
     returned ((Windows.seek dbg k;; Windows.position dbg) st) = Done k ∧
     (zlen (Windows.file_of st.2 h) < 2 ^ 32 - 1 →
      ∃ st1, Windows.seek_to_end dbg st = Done (tt, st1) ∧
             returned (Windows.position dbg st1) = returned (Windows.size st1) ∧
             returned (Windows.position dbg st1)
             = Done (zlen (Windows.file_of st.2 h))) ∧
     (Windows.h_pos h + k < 2 ^ 32 - 1 →
      returned (Windows.position dbg st) = Done (Windows.h_pos h) ∧
      returned ((Windows.skip dbg k;; Windows.position dbg) st)
      = Done (Windows.h_pos h + k))) ∧
  (∀ (st : Windows.state) (h : Windows.HFILE) (k : Z),
     Windows.bound st h →
     0 ≤ Windows.h_pos h < 2 ^ 32 - 1 →
     2 ^ 31 ≤ k < 2 ^ 32 →
     Windows.seek true k st = Fatal "SetFilePointer" ∧
     returned ((Windows.seek false k;; Windows.position false) st)
     = Done (Windows.h_pos h) ∧
     (k ≤ zlen (Windows.file_of st.2 h) < 2 ^ 32 →
      returned (Windows.size st) = Done (zlen (Windows.file_of st.2 h))) ∧
     (Windows.h_pos h + k < 2 ^ 32 →
      Windows.skip true k st = Fatal "SetFilePointer" ∧
      returned ((Windows.skip false k;; Windows.position false) st)
      = Done (Windows.h_pos h))).
Proof.
  split; [apply (cursor_invariants_in_range dbg)|].
  split; [apply (cursor_invariants_in_range dbg)|].
  intros [f w] h k Hh Hp Hk. unfold Windows.bound in Hh.
  cbn [fst snd] in *.
  split_and!.
  - by apply (Windows_seek_high_fails f w h).
  - rewrite (bind_done _ _ _ _ _ (Windows_seek_high_release f w h k Hh Hk)).
    rewrite Windows_position_logged.
    by rewrite (Windows_position_run false f w h Hh Hp).
  - intros Hlen. rewrite Windows_size_run, Hh. simpl.
    by rewrite to_u32_small by lia.
  - intros Hpk. split; [by apply (Windows_skip_high_fails f w h)|].
    rewrite (bind_done _ _ _ _ _
               (Windows_skip_high_release f w h k Hh Hk Hpk)).
    rewrite Windows_position_logged.
    by rewrite (Windows_position_run false f w h Hh Hp).
Qed.

(** The length of the sample file of 2^31 bytes, without building it. *)
Lemma zlen_2GiB :
  zlen (Windows.file_of Windows_sample_2GiB.2
          (Windows.mkHFILE "/data/big.bin" Windows.GENERIC_READ 0 0))
  = 2 ^ 31.
Proof.
  unfold Windows.file_of, Windows.content, Windows_sample_2GiB.
  cbn [snd Windows.disk Windows.h_path].
  rewrite lookup_singleton_eq. cbn [default from_option id].
  unfold zlen. rewrite length_replicate. apply Z2Nat.id. lia.
Qed.

Lemma C7_offset_as_signed_distance_witness :
  (returned ((Posix.skip true 0x80000000;; Posix.position true)
               (Posix_sample_open Posix.rb)) = Done (0 + 0x80000000) ∧
   Windows.skip true 0x80000000 (Windows_sample_open Windows.GENERIC_READ)
   = Fatal "SetFilePointer" ∧
   returned ((Windows.skip false 0x80000000;; Windows.position false)
               (Windows_sample_open Windows.GENERIC_READ)) = Done 0) ∧
  (returned (Windows.size Windows_sample_2GiB) = Done (2 ^ 31) ∧
   Windows.seek true 0x80000000 Windows_sample_2GiB = Fatal "SetFilePointer").
Proof.
  pose proof (C7_offset_as_signed_distance true) as (Hposix & _ & Hhigh).
  split; [split_and!|split].
  - refine (proj2 (proj2 (proj2 (Hposix (Posix_sample_open Posix.rb)
              (Posix.mkFILE "/data/a.bin" Posix.rb 0 false false)
              0x80000000 _ _ _)) _)).
    + reflexivity.
    + simpl. lia.
    + lia.
    + simpl. lia.
  - refine (proj1 (proj2 (proj2 (proj2 (Hhigh
              (Windows_sample_open Windows.GENERIC_READ)
              (Windows.mkHFILE "/data/a.bin" Windows.GENERIC_READ 0 0)
              0x80000000 _ _ _))) _)).
    + reflexivity.
    + simpl. lia.
    + lia.
    + simpl. lia.
  - refine (proj2 (proj2 (proj2 (proj2 (Hhigh
              (Windows_sample_open Windows.GENERIC_READ)
              (Windows.mkHFILE "/data/a.bin" Windows.GENERIC_READ 0 0)
              0x80000000 _ _ _))) _)).
    + reflexivity.
    + simpl. lia.
    + lia.
    + simpl. lia.
  - rewrite <- zlen_2GiB.
    refine (proj1 (proj2 (proj2 (Hhigh Windows_sample_2GiB
              (Windows.mkHFILE "/data/big.bin" Windows.GENERIC_READ 0 0)
              0x80000000 _ _ _))) _).
    + reflexivity.
    + cbn [Windows.h_pos]. lia.
    + lia.
    + rewrite zlen_2GiB. lia.
  - refine (proj1 (Hhigh Windows_sample_2GiB
              (Windows.mkHFILE "/data/big.bin" Windows.GENERIC_READ 0 0)
              0x80000000 _ _ _)).
    + reflexivity.
    + cbn [Windows.h_pos]. lia.
    + lia.
Defined.

(** ** Writing *)

Lemma fwrite_run w fp s buf n :
  Posix.streams w !! fp = Some s → 0 ≤ n → n ≤ zlen buf →
  ∃ k w1 s1,
    Posix.fwrite (Some buf) n fp w = Done (k, w1) ∧
    Posix.streams w1 !! fp = Some s1 ∧
    (k = n ∨ Posix.f_err s1 = true) ∧
    (Posix.f_mode s = Posix.wb → Posix.f_err s = false → n ≤ Posix.disk_free w →
     k = n ∧ Posix.f_err s1 = false).
Proof.
  intros Hs Hn Hbuf.
  unfold Posix.fwrite, Posix.stream, Posix.content, Posix.set_content,
    Posix.set_stream, Posix.log.
  unfold_monad. rewrite Hs. simpl.
  destruct (n =? 0) eqn:Hn0.
  { exists 0, (Posix.logged (Posix.c_fwrite fp n 0) w), s.
    split_and!; try done; [left|intros _ He _; split]; try lia. done. }
  destruct (Posix.f_mode s) eqn:Hmode.
  { do 3 eexists. simpl. split; [reflexivity|]. simpl.
    rewrite lookup_insert_eq. split_and!; try done. by right. }
  destruct (zlen buf <? n) eqn:Hshort; [lia|].
  destruct (Z.min n (Z.max 0 (Posix.disk_free w)) =? 0) eqn:Hk0; simpl;
    do 3 eexists; (split; [reflexivity|]); simpl;
    rewrite lookup_insert_eq; (split; [reflexivity|]); simpl.
  all: split;
    [ destruct (Z.min n (Z.max 0 (Posix.disk_free w)) <? n) eqn:Hlt;
      [right; by rewrite orb_true_r | left; lia]
    | intros _ He Hfree; rewrite He; simpl; split; [lia|];
      apply Z.ltb_ge; lia ].
Qed.

Lemma ferror_run w fp s :
  Posix.streams w !! fp = Some s →
  Posix.ferror fp w
  = Done (if Posix.f_err s then 1 else 0,
          Posix.logged (Posix.c_ferror fp (if Posix.f_err s then 1 else 0)) w).
Proof.
  intros Hs. unfold Posix.ferror, Posix.stream, Posix.log. unfold_monad.
  by rewrite Hs.
Qed.

Lemma WriteFile_run w h buf n :
  0 ≤ n → n ≤ zlen buf →
  ∃ ok k w1, Windows.WriteFile h (Some buf) n w = Done ((ok, k), w1) ∧
             (Windows.handles w !! h = None → k = 0).
Proof.
  intros Hn Hbuf.
  unfold Windows.WriteFile, Windows.set_content, Windows.set_handle, Windows.log.
  unfold_monad.
  destruct (Windows.handles w !! h) as [f|]; simpl; [|by do 3 eexists].
  case_bool_decide; [|by do 3 eexists].
  destruct (zlen buf <? n) eqn:Hshort; [lia|].
  destruct (Z.min n (Z.max 0 (Windows.disk_free w)) =? 0); simpl;
    by do 3 eexists.
Qed.

(** C9, as the code has it. No partial writes where assertions are
    enabled. Given an open handle (stdio variant: bound to an open
    stream) and a non-null buffer holding at least [n] bytes,
    [write(buffer, n)] either returns exactly [n] or aborts in an
    assertion: the stdio variant asserts that the stream's error
    indicator is clear, which [fwrite] sets whenever it writes fewer
    than [n]; the Win32 variant asserts that the count written equals
    [n]. It does return [n] when the stream is writable, free of errors
    and the device takes [n] more bytes. Where assertions are not
    enabled nothing stands between the native call and the caller:
    [write] returns the count that [fwrite] or [WriteFile] reported,
    short or not. *)
Theorem C9_no_partial_writes :
  (∀ (st : Posix.state) (s : Posix.FILE) (buf : list Byte.byte) (n : Z),
     Posix.bound st s → 0 ≤ n < 2 ^ 32 → n ≤ zlen buf →
     ((∃ st', Posix.write true (Some buf) n st = Done (n, st')) ∨
      (∃ msg, Posix.write true (Some buf) n st = Fatal msg)) ∧
     (Posix.f_mode s = Posix.wb → Posix.f_err s = false →
      n ≤ Posix.disk_free st.2 →
      ∃ st', Posix.write true (Some buf) n st = Done (n, st'))) ∧
  (∀ (st : Windows.state) (buf : list Byte.byte) (n : Z),
     0 ≤ n < 2 ^ 32 → n ≤ zlen buf →
     (∃ st', Windows.write true (Some buf) n st = Done (n, st')) ∨
     (∃ msg, Windows.write true (Some buf) n st = Fatal msg)) ∧
  (∀ (st : Posix.state) (s : Posix.FILE) (buf : list Byte.byte) (n k : Z)
     (w1 : Posix.world),
     Posix.bound st s →
     Posix.fwrite (Some buf) n (Posix._file st.1) st.2 = Done (k, w1) →
     returned (Posix.write false (Some buf) n st) = Done (to_u32 k)) ∧
  (∀ (st : Windows.state) (buf : list Byte.byte) (n k : Z) (ok : bool)
     (w1 : Windows.world),
     Windows.WriteFile (Windows._file st.1) (Some buf) n st.2
     = Done ((ok, k), w1) →
     Windows.write false (Some buf) n st = Done (k, (st.1, w1))).
Proof.
  split_and!.
  - intros [f w] s buf n Hs Hn Hbuf. unfold Posix.bound in Hs. simpl in *.
    destruct (fwrite_run w _ s buf n Hs ltac:(lia) Hbuf)
      as (k & w1 & s1 & Hw & Hs1 & Hk & Hgood).
    assert (Posix.write true (Some buf) n (f, w)
            = if Posix.f_err s1 then Fatal "fwrite error"
              else Done (to_u32 k,
                         (f, Posix.logged (Posix.c_ferror (Posix._file f) 0) w1)))
      as Hwrite.
    { unfold Posix.write. rewrite bind_assert by done. rewrite bind_this.
      rewrite (bind_native _ _ _ _ _ _ Hw).
      rewrite (bind_native _ _ _ _ _ _ (ferror_run _ _ _ Hs1)).
      by destruct (Posix.f_err s1). }
    rewrite Hwrite. split.
    + destruct (Posix.f_err s1) eqn:He; [right; by eexists|].
      left. destruct Hk as [->|?]; [|done].
      rewrite to_u32_small by lia. by eexists.
    + intros Hmode He Hfree. destruct (Hgood Hmode He Hfree) as [-> ->].
      rewrite to_u32_small by lia. by eexists.
  - intros [f w] buf n Hn Hbuf.
    destruct (WriteFile_run w (Windows._file f) buf n ltac:(lia) Hbuf)
      as (ok & k & w1 & Hw & _).
    unfold Windows.write. rewrite bind_assert by done. rewrite bind_this.
    rewrite (bind_native _ _ _ _ _ _ Hw). simpl.
    unfold_monad.
    destruct (n =? k) eqn:Hnk; [left | right]; eexists; [|done].
    by replace k with n by lia.
  - intros [f w] s buf n k w1 Hs Hw. unfold Posix.bound in Hs.
    cbn [fst snd] in *.
    assert (∃ s1, Posix.streams w1 !! Posix._file f = Some s1) as [s1 Hs1].
    { revert Hw.
      unfold Posix.fwrite, Posix.stream, Posix.content, Posix.set_content,
        Posix.set_stream, Posix.log.
      unfold_monad. rewrite Hs. simpl.
      repeat (case_match; simpl in *; simplify_eq); intros; simplify_eq;
        simpl; rewrite ?lookup_insert_eq; eauto. }
    unfold Posix.write. rewrite bind_assert by done. rewrite bind_this.
    rewrite (bind_native _ _ _ _ _ _ Hw).
    by rewrite (bind_native _ _ _ _ _ _ (ferror_run _ _ _ Hs1)).
  - intros [f w] buf n k ok w1 Hw. cbn [fst snd] in *.
    unfold Windows.write. rewrite bind_assert by done. rewrite bind_this.
    by rewrite (bind_native _ _ _ _ _ _ Hw).
Qed.

Lemma C9_no_partial_writes_witness :
  ∃ st', Posix.write true (Some sample_bytes) 5 (Posix_sample_open Posix.wb)
         = Done (5, st').
Proof.
  refine (proj2 (proj1 C9_no_partial_writes (Posix_sample_open Posix.wb)
            (Posix.mkFILE "/data/a.bin" Posix.wb 0 false false)
            sample_bytes 5 _ _ _) _ _ _).
  - reflexivity.
  - lia.
  - vm_compute. discriminate.
  - reflexivity.
  - reflexivity.
  - vm_compute. discriminate.
Defined.

(** C9 as the specification states it fails where assertions are not
    enabled. Win32 variant, a handle open for writing on a device that
    takes 2 more bytes, [write] of 5 bytes: [WriteFile] writes 2 bytes
    and fails, nothing checks its count, and 2 comes back to the caller
    with the two bytes in the file. *)
Lemma C9_no_partial_writes_counterexample :
  Windows.is_open Windows_sample_full.1 = true ∧
  Windows.write false (Some sample_bytes) 5 Windows_sample_full
  = Done (2,
      (Windows.mkFileDisk 1 false,
       Windows.mkWorld
         {[ "/data/a.bin" := [Byte.x68; Byte.x65] ]} 0
         {[ 1 := Windows.mkHFILE "/data/a.bin" Windows.GENERIC_WRITE 0 2 ]}
         [Windows.c_WriteFile 1 5 false 2])) ∧
  Windows.write true (Some sample_bytes) 5 Windows_sample_full
  = Fatal "WriteFile" ∧
  ¬ (∀ dbg : bool,
       (∃ st', Windows.write dbg (Some sample_bytes) 5 Windows_sample_full
               = Done (5, st')) ∨
       (∃ msg, Windows.write dbg (Some sample_bytes) 5 Windows_sample_full
               = Fatal msg)).
Proof.
  split_and!.
  - reflexivity.
  - vm_compute. reflexivity.
  - vm_compute. reflexivity.
  - intros Hclaim. destruct (Hclaim false) as [[st' H]|[msg H]];
      vm_compute in H; discriminate.
Qed.

(** ** Operating on a closed handle *)

Lemma Windows_closed_file f :
  Windows.is_open f = false → Windows._file f = Windows.INVALID_HANDLE_VALUE.
Proof. unfold Windows.is_open. intros Hc. apply negb_false_iff in Hc. lia. Qed.

Lemma Posix_closed_file f :
  Posix.is_open f = false → Posix._file f = Posix.NULL.
Proof. unfold Posix.is_open. intros Hc. apply negb_false_iff in Hc. lia. Qed.

Ltac run_closed Hnone :=
  unfold Windows.SetFilePointer, Windows.FlushFileBuffers, Windows.ReadFile,
    Windows.WriteFile, Windows.GetFileSize, Windows.log,
    Posix.ftell, Posix.fseek, Posix.fread, Posix.fwrite, Posix.feof,
    Posix.ferror, Posix.fflush, Posix.stream;
  unfold_monad; simpl; rewrite ?Hnone; simpl.




(** ** Opening *)

Lemma Windows_fresh_handle_valid (w : Windows.world) :
  let h : Z := fresh ({[Windows.INVALID_HANDLE_VALUE; 0]} ∪ dom (Windows.handles w)) in
  (h =? Windows.INVALID_HANDLE_VALUE) = false.
Proof.
  intros h. apply Z.eqb_neq. intros Heq.
  pose proof (is_fresh ({[Windows.INVALID_HANDLE_VALUE; 0]}
                          ∪ dom (Windows.handles w))) as Hfresh.
  fold h in Hfresh. rewrite Heq in Hfresh. set_solver.
Qed.

Lemma Posix_fresh_stream_valid (w : Posix.world) :
  let fp : Z := fresh ({[Posix.NULL]} ∪ dom (Posix.streams w)) in
  (fp =? Posix.NULL) = false.
Proof.
  intros fp. apply Z.eqb_neq. intros Heq.
  pose proof (is_fresh ({[Posix.NULL]} ∪ dom (Posix.streams w))) as Hfresh.
  fold fp in Hfresh. rewrite Heq in Hfresh. set_solver.
Qed.

Lemma Posix_open_read_disk dbg path st st' :
  Posix.open dbg path READ st = Done (tt, st') →
  Posix.disk st'.2 = Posix.disk st.2.
Proof.
  destruct st as [f w].
  unfold Posix.open, Posix.fopen, Posix.set_stream, Posix.log.
  unfold_monad. simpl.
  destruct (Posix.disk w !! path); simpl; destruct dbg; simpl;
    repeat (case_match; simpl in *; simplify_eq);
    intros; by simplify_eq.
Qed.

(** C3, on the code. Opening for READ a path that does not exist: the
    Win32 variant passes [OPEN_ALWAYS] to [CreateFile] for both modes, so
    (path not empty, no sharing violation) the call succeeds in every
    build, the handle is open and an empty file now exists at the path.
    The stdio variant passes "rb": a READ open never changes the files;
    on a path that does not exist it aborts where assertions are enabled
    and otherwise returns with the handle closed. For WRITE the stdio
    variant ("wb") leaves an empty file at the path, created or
    truncated; the Win32 variant creates it when missing and opens an
    existing file as it is, without truncation. *)
Theorem C3_open_read_may_create (dbg : bool) :
  (∀ (f : Windows.FileDisk) (w : Windows.world) (path : string),
     path ≠ EmptyString →
     Windows.disk w !! path = None →
     Windows.sharing_violation w path 0 = false →
     ∃ st', Windows.open dbg path READ (f, w) = Done (tt, st') ∧
            Windows.is_open st'.1 = true ∧
            Windows.disk st'.2 !! path = Some []) ∧
  (∀ (st st' : Posix.state) (path : string),
     Posix.open dbg path READ st = Done (tt, st') →
     Posix.disk st'.2 = Posix.disk st.2) ∧
  (∀ (f : Posix.FileDisk) (w : Posix.world) (path : string),
     Posix.disk w !! path = None →
     Posix.open true path READ (f, w) = Fatal "fopen" ∧
     ∃ st', Posix.open false path READ (f, w) = Done (tt, st') ∧
            Posix.is_open st'.1 = false ∧
            Posix.disk st'.2 !! path = None) ∧
  (∀ (st : Posix.state) (path : string),
     path ≠ EmptyString →
     ∃ st', Posix.open dbg path WRITE st = Done (tt, st') ∧
            Posix.is_open st'.1 = true ∧
            Posix.disk st'.2 !! path = Some []) ∧
  (∀ (f : Windows.FileDisk) (w : Windows.world) (path : string) c,
     Windows.disk w !! path = Some c →
     ∀ st', Windows.open dbg path WRITE (f, w) = Done (tt, st') →
            Windows.disk st'.2 = Windows.disk w).
Proof.
  split_and!.
  - intros f w path Hpath Hnew Hshare.
    unfold Windows.open, Windows.CreateFile, Windows.set_content,
      Windows.set_handle, Windows.log.
    unfold_monad. simpl. rewrite Hnew, Hshare.
    apply String.eqb_neq in Hpath. rewrite Hpath. simpl.
    pose proof (Windows_fresh_handle_valid w) as Hvalid. simpl in Hvalid.
    unfold Windows.is_open. simpl. rewrite Hvalid. simpl.
    eexists. split; [by destruct dbg|]. simpl.
    split; [by rewrite Hvalid|]. apply lookup_insert_eq.
  - intros st st' path. apply Posix_open_read_disk.
  - intros f w path Hnew.
    unfold Posix.open, Posix.fopen, Posix.log. unfold_monad. simpl.
    rewrite Hnew. simpl. split; [done|].
    eexists. split; [reflexivity|]. done.
  - intros [f w] path Hpath.
    unfold Posix.open, Posix.fopen, Posix.set_content, Posix.set_stream,
      Posix.log.
    unfold_monad. simpl.
    apply String.eqb_neq in Hpath. rewrite Hpath. simpl.
    pose proof (Posix_fresh_stream_valid w) as Hvalid. simpl in Hvalid.
    unfold Posix.is_open. simpl. rewrite Hvalid. simpl.
    eexists. split; [by destruct dbg|]. simpl.
    split; [by rewrite Hvalid|]. apply lookup_insert_eq.
  - intros f w path c Hc st'.
    unfold Windows.open, Windows.CreateFile, Windows.set_content,
      Windows.set_handle, Windows.log.
    unfold_monad. simpl. rewrite Hc.
    destruct dbg; simpl;
      repeat (case_match; simpl in *; simplify_eq);
      intros; by simplify_eq.
Qed.

Lemma C3_open_read_may_create_witness :
  ∃ st', Windows.open true "/data/new.bin" READ
           (Windows.FileDisk_ctor, Windows_sample_world) = Done (tt, st') ∧
         Windows.is_open st'.1 = true ∧
         Windows.disk st'.2 !! "/data/new.bin" = Some [].
Proof.
  apply (proj1 (C3_open_read_may_create true)).
  - discriminate.
  - reflexivity.
  - reflexivity.
Defined.

(** The two variants side by side on the same input: no file at
    "/data/new.bin", a new handle, [open(path, READ)], assertions
    enabled. *)
Lemma open_read_missing_file :
  Windows.disk Windows_sample_world !! "/data/new.bin" = None ∧
  Posix.disk Posix_sample_world !! "/data/new.bin" = None ∧
  returned (Windows.open true "/data/new.bin" READ
              (Windows.FileDisk_ctor, Windows_sample_world)) = Done tt ∧
  returned (Posix.open true "/data/new.bin" READ
              (Posix.FileDisk_ctor, Posix_sample_world)) = Fatal "fopen".
Proof. split_and!; vm_compute; reflexivity. Qed.

(** ** The end-of-file flag of the Win32 variant *)

Section WindowsEof.
Import Windows.
Variable dbg : bool.

Ltac run_method :=
  unfold open, close, size, position, end_of_file, seek, seek_to_end, skip,
    read, write, flush, CreateFile, CloseHandle, GetFileSize, SetFilePointer,
    ReadFile, WriteFile, FlushFileBuffers, set_content, set_handle, log;
  unfold_monad; simpl;
  repeat (case_match; simpl in *; simplify_eq);
  intros; simplify_eq; simpl in *.

(** [read] sets the flag from what [ReadFile] just returned. *)
Lemma read_sets_eof data n st bytes_read buf st2 :
  read dbg data n st = Done ((bytes_read, buf), st2) →
  ∃ ok, last_read (trace st2.2) = Some (ok, bytes_read) ∧
        (dbg = true → ok = true) ∧
        _eof st2.1 = ok && (bytes_read =? 0).
Proof.
  destruct st as [f w]. revert st2. run_method; try done.
  all: eexists; (split; [reflexivity|]); split; try done.
Qed.

(** No other method touches the flag or calls [ReadFile]. *)
Lemma invoke_keeps_eof_agrees m st st' :
  invoke dbg m st = Done (tt, st') → eof_agrees st → eof_agrees st'.
Proof.
  intros Hm Hagree. destruct st as [f w].
  destruct m; simpl in Hm; revert st' Hm; run_method;
    unfold eof_agrees, eof_by_history in *; simpl in *; done.
Qed.

Lemma run_keeps_eof_agrees ms st st' :
  run dbg ms st = Done (tt, st') → eof_agrees st → eof_agrees st'.
Proof.
  revert st. induction ms as [|m ms IH]; intros st Hrun Hagree.
  - simpl in Hrun. unfold_monad. by simplify_eq.
  - simpl in Hrun. unfold mbind, M_bind in Hrun.
    destruct (invoke dbg m st) as [[[] st1]| |] eqn:Hm; try done.
    eapply IH; [exact Hrun|]. by eapply invoke_keeps_eof_agrees.
Qed.

End WindowsEof.

(** C2. End of file on the Win32 variant. After any sequence of method
    calls on a handle since its construction (in a world where no
    [ReadFile] was made before), [end_of_file()] returns true exactly when
    the most recent [ReadFile] succeeded and gave a count of zero; with no
    read so far it returns false. Step by step: a [read] that returns
    leaves the flag equal to "the native call succeeded and the count is
    zero" (where assertions are enabled a [read] that returns did succeed
    natively), so a read of zero bytes sets it and a later successful
    non-empty read clears it; no other method changes it. *)
Theorem C2_eof_tracks_last_read (dbg : bool) :
  (∀ (w : Windows.world) (ms : list Windows.method) (st' : Windows.state),
     Windows.last_read (Windows.trace w) = None →
     Windows.run dbg ms (Windows.FileDisk_ctor, w) = Done (tt, st') →
     ∃ b, Windows.end_of_file st' = Done (b, st') ∧
          (b = true ↔ Windows.last_read (Windows.trace st'.2) = Some (true, 0))) ∧
  (∀ (st st2 : Windows.state) data n bytes_read buf,
     Windows.read dbg data n st = Done ((bytes_read, buf), st2) →
     ∃ ok, Windows.last_read (Windows.trace st2.2) = Some (ok, bytes_read) ∧
           (dbg = true → ok = true) ∧
           Windows.end_of_file st2 = Done (ok && (bytes_read =? 0), st2)) ∧
  (∀ (m : Windows.method) (st st' : Windows.state),
     (∀ data n, m ≠ Windows.m_read data n) →
     Windows.invoke dbg m st = Done (tt, st') →
     Windows._eof st'.1 = Windows._eof st.1).
Proof.
  split_and!.
  - intros w ms st' Hnone Hrun.
    assert (Windows.eof_agrees st') as Hagree.
    { eapply run_keeps_eof_agrees; [exact Hrun|].
      unfold Windows.eof_agrees, Windows.eof_by_history. simpl.
      by rewrite Hnone. }
    destruct st' as [f' w']. exists (Windows._eof f'). split; [done|].
    unfold Windows.eof_agrees, Windows.eof_by_history in Hagree.
    simpl in *. rewrite Hagree.
    destruct (Windows.last_read (Windows.trace w')) as [[ok k]|]; [|done].
    split.
    + intros Heof. apply andb_true_iff in Heof as [-> Hk].
      apply Z.eqb_eq in Hk. by subst.
    + intros. by simplify_eq.
  - intros st st2 data n bytes_read buf Hread.
    destruct (read_sets_eof dbg data n st bytes_read buf st2 Hread)
      as (ok & Hlast & Hok & Heof).
    exists ok. split_and!; try done.
    destruct st2 as [f2 w2]. simpl in *.
    unfold Windows.end_of_file. unfold_monad. by rewrite Heof.
  - intros m [f w] st' Hm.
    destruct m; simpl; try (by (exfalso; eapply Hm));
      unfold Windows.open, Windows.close, Windows.size, Windows.position,
        Windows.end_of_file, Windows.seek, Windows.seek_to_end, Windows.skip,
        Windows.write, Windows.flush;
      unfold_monad; simpl;
      repeat (case_match; simpl in *; simplify_eq);
      intros; by simplify_eq.
Qed.

Lemma C2_eof_tracks_last_read_witness :
  ∃ st',
    Windows.run true
      [Windows.m_open "/data/a.bin" READ;
       Windows.m_read (Some sample_bytes) 5;
       Windows.m_read (Some sample_bytes) 5]
      (Windows.FileDisk_ctor, Windows_sample_world) = Done (tt, st') ∧
    ∃ b, Windows.end_of_file st' = Done (b, st') ∧
         (b = true ↔ Windows.last_read (Windows.trace st'.2) = Some (true, 0)).
Proof.
  eexists. split.
  - vm_compute. reflexivity.
  - eapply (proj1 (C2_eof_tracks_last_read true) Windows_sample_world
              [Windows.m_open "/data/a.bin" READ;
               Windows.m_read (Some sample_bytes) 5;
               Windows.m_read (Some sample_bytes) 5]).
    + reflexivity.
    + vm_compute. reflexivity.
Defined.

(** A handle through a read to the end, a read at the end, a seek back
    and another read: the flag is clear, set, still set after the seek,
    and clear again. *)
Lemma eof_over_a_session :
  returned ((Windows.open true "/data/a.bin" READ;;
             Windows.read true (Some sample_bytes) 5;;
             Windows.end_of_file)
              (Windows.FileDisk_ctor, Windows_sample_world)) = Done false ∧
  returned ((Windows.open true "/data/a.bin" READ;;
             Windows.read true (Some sample_bytes) 5;;
             Windows.read true (Some sample_bytes) 5;;
             Windows.end_of_file)
              (Windows.FileDisk_ctor, Windows_sample_world)) = Done true ∧
  returned ((Windows.open true "/data/a.bin" READ;;
             Windows.read true (Some sample_bytes) 5;;
             Windows.read true (Some sample_bytes) 5;;
             Windows.seek true 0;;
             Windows.end_of_file)
              (Windows.FileDisk_ctor, Windows_sample_world)) = Done true ∧
  returned ((Windows.open true "/data/a.bin" READ;;
             Windows.read true (Some sample_bytes) 5;;
             Windows.read true (Some sample_bytes) 5;;
             Windows.seek true 0;;
             Windows.read true (Some sample_bytes) 2;;
             Windows.end_of_file)
              (Windows.FileDisk_ctor, Windows_sample_world)) = Done false.
Proof. split_and!; vm_compute; reflexivity. Qed.

(** ** What holds of every handle from its construction on *)

(** The theorems above take a handle of the stdio variant consistent, or
    bound to an open stream, and the sentinel not to be a native
    resource. The methods keep both true. *)

Section PosixConsistent.
Import Posix.
Variable dbg : bool.

Ltac run_method :=
  unfold open, close, size, position, end_of_file, seek, seek_to_end, skip,
    read, write, flush, fopen, fclose, ftell, fseek, fread, fwrite, feof,
    ferror, fflush, stream, content, set_content, set_stream, log;
  unfold_monad; simpl;
  repeat (case_match; simpl in *; simplify_eq);
  intros; simplify_eq; simpl in *.

Lemma invoke_keeps_consistent m st st' :
  invoke dbg m st = Done (tt, st') → consistent st → consistent st'.
Proof.
  intros Hm Hcons. destruct st as [f w]. unfold consistent in *. simpl in Hcons.
  destruct m; simpl in Hm; revert st' Hm; run_method;
    rewrite ?lookup_insert_eq; eauto.
Qed.

Lemma run_keeps_consistent ms st st' :
  run dbg ms st = Done (tt, st') → consistent st → consistent st'.
Proof.
  revert st. induction ms as [|m ms IH]; intros st Hrun Hcons.
  - simpl in Hrun. unfold_monad. by simplify_eq.
  - simpl in Hrun. unfold mbind, M_bind in Hrun.
    destruct (invoke dbg m st) as [[[] st1]| |] eqn:Hm; try done.
    eapply IH; [exact Hrun|]. by eapply invoke_keeps_consistent.
Qed.

(** Whatever was done with a handle since its construction, it is
    consistent. *)
Lemma reachable_consistent ms w st' :
  run dbg ms (FileDisk_ctor, w) = Done (tt, st') → consistent st'.
Proof. intros Hrun. eapply run_keeps_consistent; [exact Hrun|]. done. Qed.

End PosixConsistent.


(** The sentinel ([NULL], [INVALID_HANDLE_VALUE]) never becomes a native
    resource. *)

Section Sentinels.
Variable dbg : bool.

Ltac run_windows :=
  unfold Windows.open, Windows.close, Windows.size, Windows.position,
    Windows.end_of_file, Windows.seek, Windows.seek_to_end, Windows.skip,
    Windows.read, Windows.write, Windows.flush, Windows.CreateFile,
    Windows.CloseHandle, Windows.GetFileSize, Windows.SetFilePointer,
    Windows.ReadFile, Windows.WriteFile, Windows.FlushFileBuffers,
    Windows.set_content, Windows.set_handle, Windows.log;
  unfold_monad; simpl;
  repeat (case_match; simpl in *; simplify_eq);
  intros; simplify_eq; simpl in *.

Ltac run_posix :=
  unfold Posix.open, Posix.close, Posix.size, Posix.position,
    Posix.end_of_file, Posix.seek, Posix.seek_to_end, Posix.skip, Posix.read,
    Posix.write, Posix.flush, Posix.fopen, Posix.fclose, Posix.ftell,
    Posix.fseek, Posix.fread, Posix.fwrite, Posix.feof, Posix.ferror,
    Posix.fflush, Posix.stream, Posix.content, Posix.set_content,
    Posix.set_stream, Posix.log;
  unfold_monad; simpl;
  repeat (case_match; simpl in *; simplify_eq);
  intros; simplify_eq; simpl in *.

Ltac keep_unbound :=
  repeat match goal with
  | |- <[fresh ?X := _]> _ !! _ = None =>
      let Heq := fresh "Heq" in
      let Hf := fresh "Hf" in
      rewrite lookup_insert_ne;
        [| intros Heq; pose proof (is_fresh X) as Hf; rewrite Heq in Hf;
           set_solver]
  | |- delete _ _ !! _ = None =>
      rewrite lookup_delete; case_decide; [done|]
  | |- <[?k := _]> _ !! ?s = None =>
      let Heq := fresh "Heq" in
      rewrite lookup_insert_ne; [| intros Heq; rewrite Heq in *; congruence]
  end; try done.

Lemma Windows_invoke_keeps_sentinel m st st' :
  Windows.invoke dbg m st = Done (tt, st') →
  Windows.handles st.2 !! Windows.INVALID_HANDLE_VALUE = None →
  Windows.handles st'.2 !! Windows.INVALID_HANDLE_VALUE = None.
Proof.
  intros Hm Hnone. destruct st as [f w]. simpl in Hnone.
  destruct m; simpl in Hm; revert st' Hm; run_windows; keep_unbound.
Qed.

Lemma Posix_invoke_keeps_sentinel m st st' :
  Posix.invoke dbg m st = Done (tt, st') →
  Posix.streams st.2 !! Posix.NULL = None →
  Posix.streams st'.2 !! Posix.NULL = None.
Proof.
  intros Hm Hnone. destruct st as [f w]. simpl in Hnone.
  destruct m; simpl in Hm; revert st' Hm; run_posix; keep_unbound.
Qed.

Lemma Windows_run_keeps_sentinel ms st st' :
  Windows.run dbg ms st = Done (tt, st') →
  Windows.handles st.2 !! Windows.INVALID_HANDLE_VALUE = None →
  Windows.handles st'.2 !! Windows.INVALID_HANDLE_VALUE = None.
Proof.
  revert st. induction ms as [|m ms IH]; intros st Hrun Hnone.
  - simpl in Hrun. unfold_monad. by simplify_eq.
  - simpl in Hrun. unfold mbind, M_bind in Hrun.
    destruct (Windows.invoke dbg m st) as [[[] st1]| |] eqn:Hm; try done.
    eapply IH; [exact Hrun|]. by eapply Windows_invoke_keeps_sentinel.
Qed.

Lemma Posix_run_keeps_sentinel ms st st' :
  Posix.run dbg ms st = Done (tt, st') →
  Posix.streams st.2 !! Posix.NULL = None →
  Posix.streams st'.2 !! Posix.NULL = None.
Proof.
  revert st. induction ms as [|m ms IH]; intros st Hrun Hnone.
  - simpl in Hrun. unfold_monad. by simplify_eq.
  - simpl in Hrun. unfold mbind, M_bind in Hrun.
    destruct (Posix.invoke dbg m st) as [[[] st1]| |] eqn:Hm; try done.
    eapply IH; [exact Hrun|]. by eapply Posix_invoke_keeps_sentinel.
Qed.

End Sentinels.

(** * Further properties of the handle and the facade *)

(** ** Bytes read and written *)

Lemma zlen_nonneg {A} (l : list A) : 0 ≤ zlen l.
Proof. unfold zlen. lia. Qed.

Lemma zlen_read_at c pos n :
  0 ≤ pos → 0 ≤ n →
  zlen (read_at c pos n) = Z.min n (Z.max 0 (zlen c - pos)).
Proof.
  intros Hp Hn. unfold zlen, read_at. rewrite length_take, length_drop. lia.
Qed.

Lemma read_at_start data n : n = zlen data → read_at data 0 n = data.
Proof.
  intros ->. unfold read_at, zlen. rewrite Nat2Z.id.
  change (Z.to_nat 0) with 0%nat. rewrite drop_0. by rewrite take_ge.
Qed.

Lemma read_at_prefix data rest n :
  n = zlen data → read_at (data ++ rest) 0 n = data.
Proof.
  intros ->. unfold read_at, zlen. rewrite Nat2Z.id.
  change (Z.to_nat 0) with 0%nat. rewrite drop_0. apply take_app_length.
Qed.

Lemma write_at_start c data :
  write_at c 0 data = data ++ drop (length data) c.
Proof. unfold write_at. by change (Z.to_nat 0) with 0%nat. Qed.

Lemma take_all_bytes (data : list Byte.byte) n :
  n = zlen data → take (Z.to_nat n) data = data.
Proof. intros ->. unfold zlen. rewrite Nat2Z.id. by rewrite take_ge. Qed.

(** ** The stdio calls of a handle, step by step *)

Section PosixSteps.
Import Posix.
Variable dbg : bool.

Lemma Posix_open_write_run f w path :
  path ≠ EmptyString →
  open dbg path WRITE (f, w)
  = Done (tt,
      (mkFileDisk (fresh ({[NULL]} ∪ dom (streams w))),
       mkWorld (<[path := []]> (disk w)) (disk_free w)
         (<[fresh ({[NULL]} ∪ dom (streams w))
            := mkFILE path wb 0 false false]> (streams w))
         (c_fopen path wb (fresh ({[NULL]} ∪ dom (streams w))) :: trace w))).
Proof.
  intros Hpath. apply String.eqb_neq in Hpath.
  unfold open, fopen, set_content, set_stream, log. unfold_monad. simpl.
  rewrite Hpath. simpl.
  pose proof (Posix_fresh_stream_valid w) as Hv. simpl in Hv. rewrite Hv.
  by destruct dbg.
Qed.

Lemma Posix_open_read_run f w path c :
  disk w !! path = Some c →
  open dbg path READ (f, w)
  = Done (tt,
      (mkFileDisk (fresh ({[NULL]} ∪ dom (streams w))),
       mkWorld (disk w) (disk_free w)
         (<[fresh ({[NULL]} ∪ dom (streams w))
            := mkFILE path rb 0 false false]> (streams w))
         (c_fopen path rb (fresh ({[NULL]} ∪ dom (streams w))) :: trace w))).
Proof.
  intros Hc.
  unfold open, fopen, set_content, set_stream, log. unfold_monad. simpl.
  rewrite Hc. simpl.
  pose proof (Posix_fresh_stream_valid w) as Hv. simpl in Hv. rewrite Hv.
  by destruct dbg.
Qed.

Lemma Posix_write_run f w s buf n :
  streams w !! _file f = Some s →
  f_mode s = wb → f_err s = false →
  0 < n < 2 ^ 32 → n ≤ zlen buf → n ≤ disk_free w →
  write dbg (Some buf) n (f, w)
  = Done (n,
      (f, mkWorld
            (<[f_path s := write_at (file_of w s) (f_pos s)
                             (take (Z.to_nat n) buf)]> (disk w))
            (disk_free w - n)
            (<[_file f := mkFILE (f_path s) (f_mode s) (f_pos s + n)
                            (f_eof s) false]> (streams w))
            (c_ferror (_file f) 0 :: c_fwrite (_file f) n n :: trace w))).
Proof.
  intros Hs Hmode Herr Hn Hbuf Hfree.
  assert ((n =? 0) = false) as Hn0 by lia.
  assert ((zlen buf <? n) = false) as Hcap by lia.
  assert (Z.min n (Z.max 0 (disk_free w)) = n) as Hk by lia.
  unfold write, fwrite, ferror, stream, content, set_content, set_stream, log.
  unfold_monad. destruct dbg; simpl; rewrite Hs; simpl;
    rewrite Hn0, Hmode, Hcap, Hk, Hn0; simpl; rewrite lookup_insert_eq; simpl;
    rewrite Herr, Z.ltb_irrefl; simpl; rewrite to_u32_small by lia;
    unfold file_of; done.
Qed.

Lemma Posix_read_run f w s buf n :
  streams w !! _file f = Some s →
  f_mode s = rb → f_err s = false →
  0 < n < 2 ^ 32 → 0 ≤ f_pos s →
  zlen (read_at (file_of w s) (f_pos s) n) ≤ zlen buf →
  read dbg (Some buf) n (f, w)
  = Done ((zlen (read_at (file_of w s) (f_pos s) n),
           read_at (file_of w s) (f_pos s) n
             ++ drop (length (read_at (file_of w s) (f_pos s) n)) buf),
      (f, mkWorld (disk w) (disk_free w)
            (<[_file f := mkFILE (f_path s) (f_mode s)
                            (f_pos s + zlen (read_at (file_of w s) (f_pos s) n))
                            (f_eof s
                             || (zlen (read_at (file_of w s) (f_pos s) n) <? n))
                            (f_err s)]> (streams w))
            (c_ferror (_file f) 0
             :: c_fread (_file f) n (zlen (read_at (file_of w s) (f_pos s) n))
             :: trace w))).
Proof.
  intros Hs Hmode Herr Hn Hpos Hbuf.
  pose proof (zlen_read_at (file_of w s) (f_pos s) n Hpos ltac:(lia)) as Hlen.
  assert ((n =? 0) = false) as Hn0 by lia.
  assert ((zlen buf <? zlen (read_at (file_of w s) (f_pos s) n)) = false)
    as Hcap by lia.
  unfold file_of in *.
  unfold read, fread, ferror, stream, content, set_content, set_stream, log.
  unfold_monad. destruct dbg; simpl; rewrite Hs; simpl;
    rewrite Hn0, Hmode, Hcap; simpl; rewrite lookup_insert_eq; simpl;
    rewrite Herr; simpl; rewrite to_u32_small by lia; done.
Qed.

End PosixSteps.

Section PosixStepsZero.
Import Posix.
Variable dbg : bool.

Lemma Posix_write_zero f w s buf :
  streams w !! _file f = Some s → f_err s = false →
  write dbg (Some buf) 0 (f, w)
  = Done (0, (f, logged (c_ferror (_file f) 0)
                   (logged (c_fwrite (_file f) 0 0) w))).
Proof.
  intros Hs Herr.
  unfold write, fwrite, ferror, stream, log, logged. unfold_monad.
  destruct dbg; simpl; rewrite Hs; simpl; rewrite Hs; simpl;
    by rewrite Herr.
Qed.

Lemma Posix_read_zero f w s buf :
  streams w !! _file f = Some s → f_err s = false →
  read dbg (Some buf) 0 (f, w)
  = Done ((0, buf), (f, logged (c_ferror (_file f) 0)
                          (logged (c_fread (_file f) 0 0) w))).
Proof.
  intros Hs Herr.
  unfold read, fread, ferror, stream, log, logged. unfold_monad.
  destruct dbg; simpl; rewrite Hs; simpl; rewrite Hs; simpl;
    by rewrite Herr.
Qed.

Lemma Posix_fresh_unbound (w : world) :
  streams w !! fresh ({[NULL]} ∪ dom (streams w)) = None.
Proof.
  apply not_elem_of_dom.
  pose proof (is_fresh ({[NULL]} ∪ dom (streams w))) as Hf. set_solver.
Qed.

Lemma Posix_fresh_open (w : world) :
  is_open (mkFileDisk (fresh ({[NULL]} ∪ dom (streams w)))) = true.
Proof.
  unfold is_open. simpl.
  pose proof (Posix_fresh_stream_valid w) as Hv. simpl in Hv. by rewrite Hv.
Qed.

End PosixStepsZero.

(** ** The Win32 calls of a handle, step by step *)

Section WindowsSteps.
Import Windows.
Variable dbg : bool.

Lemma Windows_fresh_unbound (w : world) :
  handles w !! fresh ({[INVALID_HANDLE_VALUE; 0]} ∪ dom (handles w)) = None.
Proof.
  apply not_elem_of_dom.
  pose proof (is_fresh ({[INVALID_HANDLE_VALUE; 0]} ∪ dom (handles w))) as Hf.
  set_solver.
Qed.

Lemma Windows_fresh_open (w : world) b :
  is_open (mkFileDisk (fresh ({[INVALID_HANDLE_VALUE; 0]} ∪ dom (handles w))) b)
  = true.
Proof.
  unfold is_open. simpl.
  pose proof (Windows_fresh_handle_valid w) as Hv. simpl in Hv. by rewrite Hv.
Qed.

Lemma Windows_open_run f w path mode :
  path ≠ EmptyString →
  sharing_violation w path 0 = false →
  open dbg path mode (f, w)
  = Done (tt,
      (mkFileDisk (fresh ({[INVALID_HANDLE_VALUE; 0]} ∪ dom (handles w))) (_eof f),
       mkWorld (if disk w !! path is Some _ then disk w
                else <[path := []]> (disk w))
         (disk_free w)
         (<[fresh ({[INVALID_HANDLE_VALUE; 0]} ∪ dom (handles w))
            := mkHFILE path (if mode is READ then GENERIC_READ else GENERIC_WRITE) 0 0]> (handles w))
         (c_CreateFile path (if mode is READ then GENERIC_READ else GENERIC_WRITE) 0 OPEN_ALWAYS
            (fresh ({[INVALID_HANDLE_VALUE; 0]} ∪ dom (handles w)))
          :: trace w))).
Proof.
  intros Hpath Hshare. apply String.eqb_neq in Hpath.
  pose proof (Windows_fresh_handle_valid w) as Hv. simpl in Hv.
  unfold open, CreateFile, set_content, set_handle, log.
  unfold_monad.
  destruct dbg, mode; simpl; rewrite Hpath, Hshare; simpl;
    destruct (disk w !! path); simpl; by rewrite ?Hv.
Qed.

Lemma Windows_close_run f w hf :
  is_open f = true →
  handles w !! _file f = Some hf →
  close (f, w)
  = Done (tt,
      (mkFileDisk INVALID_HANDLE_VALUE (_eof f),
       mkWorld (disk w) (disk_free w) (delete (_file f) (handles w))
         (c_CloseHandle (_file f) true :: trace w))).
Proof.
  intros Ho Hh. unfold close, CloseHandle, log. unfold_monad.
  by rewrite Ho, Hh.
Qed.

Lemma Windows_write_run f w hf buf n :
  handles w !! _file f = Some hf →
  h_access hf = GENERIC_WRITE →
  0 < n → n ≤ zlen buf → n ≤ disk_free w →
  write dbg (Some buf) n (f, w)
  = Done (n,
      (f, mkWorld
            (<[h_path hf := write_at (file_of w hf) (h_pos hf)
                              (take (Z.to_nat n) buf)]> (disk w))
            (disk_free w - n)
            (<[_file f := mkHFILE (h_path hf) (h_access hf) (h_share hf)
                            (h_pos hf + n)]> (handles w))
            (c_WriteFile (_file f) n true n :: trace w))).
Proof.
  intros Hh Hacc Hn Hbuf Hfree.
  assert ((n =? 0) = false) as Hn0 by lia.
  assert ((zlen buf <? n) = false) as Hcap by lia.
  assert (Z.min n (Z.max 0 (disk_free w)) = n) as Hk by lia.
  unfold write, WriteFile, set_content, set_handle, log, file_of.
  unfold_monad.
  destruct dbg; simpl; rewrite Hh; simpl; rewrite Hacc; simpl;
    rewrite Hcap, Hk, Hn0; simpl; by rewrite Z.eqb_refl.
Qed.

Lemma Windows_write_zero f w buf :
  write dbg (Some buf) 0 (f, w)
  = Done (0, (f, logged (c_WriteFile (_file f) 0
                           match handles w !! _file f with
                           | Some hf => bool_decide (h_access hf = GENERIC_WRITE)
                           | None => false
                           end 0)
                   match handles w !! _file f with
                   | Some hf =>
                       if bool_decide (h_access hf = GENERIC_WRITE)
                       then moved (_file f) hf (h_pos hf) w
                       else w
                   | None => w
                   end)).
Proof.
  unfold write, WriteFile, set_content, set_handle, log, logged, moved.
  unfold_monad.
  assert ((zlen buf <? 0) = false) as Hcap
    by (apply Z.ltb_ge, zlen_nonneg).
  destruct dbg; simpl; destruct (handles w !! _file f) as [hf|]; simpl;
    try done; case_bool_decide; simpl; try done;
    rewrite Hcap; simpl;
    assert (Z.min 0 (Z.max 0 (disk_free w)) = 0) as -> by lia; simpl;
    by rewrite Z.sub_0_r, Z.add_0_r.
Qed.

Lemma Windows_read_run f w hf buf n :
  handles w !! _file f = Some hf →
  h_access hf = GENERIC_READ →
  0 ≤ n → 0 ≤ h_pos hf →
  zlen (read_at (file_of w hf) (h_pos hf) n) ≤ zlen buf →
  read dbg (Some buf) n (f, w)
  = Done ((zlen (read_at (file_of w hf) (h_pos hf) n),
           read_at (file_of w hf) (h_pos hf) n
             ++ drop (length (read_at (file_of w hf) (h_pos hf) n)) buf),
      (mkFileDisk (_file f)
         (zlen (read_at (file_of w hf) (h_pos hf) n) =? 0),
       mkWorld (disk w) (disk_free w)
         (<[_file f := mkHFILE (h_path hf) (h_access hf) (h_share hf)
                         (h_pos hf + zlen (read_at (file_of w hf) (h_pos hf) n))]>
            (handles w))
         (c_ReadFile (_file f) n true
            (zlen (read_at (file_of w hf) (h_pos hf) n))
          :: trace w))).
Proof.
  intros Hh Hacc Hn Hpos Hbuf.
  assert ((zlen buf <? zlen (read_at (file_of w hf) (h_pos hf) n)) = false)
    as Hcap by lia.
  unfold file_of in *.
  unfold read, ReadFile, set_handle, log. unfold_monad.
  destruct dbg; simpl; rewrite Hh; simpl; rewrite Hacc; simpl;
    by rewrite Hcap.
Qed.

End WindowsSteps.

(** ** Round trips *)

(** X1. Round trip on the stdio variant, in every build. On a new handle:
    [open(path, WRITE)], [write] of the [n] bytes of [data], [size()],
    [close()], [open(path, READ)], [read] of [n] bytes. Given a non-empty
    path, [n] below 2^32, a device that takes [n] more bytes and a buffer
    of at least [n] bytes, every call returns; [write] returns [n],
    [size()] returns [n] whatever the file held before ("wb" truncates),
    [read] returns [n] and leaves [data] at the start of the buffer, and
    the file at [path] holds exactly [data]. *)
Theorem X1_stdio_round_trip (dbg : bool) (w : Posix.world) (path : string)
    (data buf : list Byte.byte) :
  path ≠ EmptyString →
  zlen data < 2 ^ 32 →
  zlen data ≤ Posix.disk_free w →
  zlen data ≤ zlen buf →
  ∃ st',
    (Posix.open dbg path WRITE;;
     written ← Posix.write dbg (Some data) (zlen data);
     sz ← Posix.size dbg;
     Posix.close;;
     Posix.open dbg path READ;;
     r ← Posix.read dbg (Some buf) (zlen data);
     mret (written, sz, r)) (Posix.FileDisk_ctor, w)
    = Done ((zlen data, zlen data,
             (zlen data, data ++ drop (length data) buf)), st') ∧
    Posix.disk st'.2 !! path = Some data.
Proof.
  intros Hpath Hn Hfree Hbuf.
  pose proof (zlen_nonneg data) as Hn0.
  rewrite (bind_done _ _ _ _ _
             (Posix_open_write_run dbg Posix.FileDisk_ctor w path Hpath)).
  set (fp := fresh ({[Posix.NULL]} ∪ dom (Posix.streams w))).
  set (w1 := Posix.mkWorld _ _ _ _).
  set (s1 := Posix.mkFILE path Posix.wb 0 false false).
  assert (Posix.streams w1 !! fp = Some s1) as Hs1 by apply lookup_insert_eq.
  assert (Posix.file_of w1 s1 = []) as Hf1
    by (unfold Posix.file_of; simpl; by rewrite lookup_insert_eq).
  (* the write leaves [data] in the file and the stream at [n] *)
  assert (∃ w2,
            Posix.write dbg (Some data) (zlen data) (Posix.mkFileDisk fp, w1)
            = Done (zlen data, (Posix.mkFileDisk fp, w2)) ∧
            Posix.streams w2 !! fp
            = Some (Posix.mkFILE path Posix.wb (zlen data) false false) ∧
            Posix.disk w2 !! path = Some data) as (w2 & Hwrite & Hs2 & Hd2).
  { destruct (decide (zlen data = 0)) as [Hz|Hz].
    - destruct data as [|b data']; [|unfold zlen in Hz; simpl in Hz; lia].
      eexists. split; [by apply (Posix_write_zero dbg _ w1 s1)|].
      split; [exact Hs1 | apply lookup_insert_eq].
    - eexists. split.
      + apply (Posix_write_run dbg (Posix.mkFileDisk fp) w1 s1); try done; lia.
      + simpl. rewrite !lookup_insert_eq. split; [done|].
        rewrite Hf1, write_at_start, take_all_bytes by done.
        by rewrite drop_nil, app_nil_r. }
  rewrite (bind_done _ _ _ _ _ Hwrite).
  destruct (Posix_size_run dbg (Posix.mkFileDisk fp) w2 _ Hs2)
    as (w3 & Hsize & Hs3 & Hd3).
  { simpl. unfold LONG_MAX. lia. }
  { unfold Posix.file_of. simpl. rewrite Hd2. simpl. unfold LONG_MAX. lia. }
  assert (Posix.file_of w2 (Posix.mkFILE path Posix.wb (zlen data) false false)
          = data) as Hf2 by (unfold Posix.file_of; simpl; by rewrite Hd2).
  rewrite Hf2 in Hsize. rewrite to_u32_small in Hsize by lia.
  rewrite (bind_done _ _ _ _ _ Hsize).
  simpl in Hs3.
  rewrite (bind_done _ _ _ _ _
             (Posix_close_open (Posix.mkFileDisk fp) w3 _
                (Posix_fresh_open w) Hs3)).
  set (w4 := Posix.mkWorld _ _ _ _).
  assert (Posix.disk w4 !! path = Some data) as Hd4
    by (simpl; by rewrite Hd3).
  rewrite (bind_done _ _ _ _ _
             (Posix_open_read_run dbg _ w4 path data Hd4)).
  set (fp5 := fresh ({[Posix.NULL]} ∪ dom (Posix.streams w4))).
  set (w5 := Posix.mkWorld _ _ _ _).
  set (s5 := Posix.mkFILE path Posix.rb 0 false false).
  assert (Posix.streams w5 !! fp5 = Some s5) as Hs5 by apply lookup_insert_eq.
  assert (Posix.file_of w5 s5 = data) as Hf5
    by (unfold Posix.file_of; simpl; by rewrite Hd3, Hd2).
  assert (∃ w6,
            Posix.read dbg (Some buf) (zlen data) (Posix.mkFileDisk fp5, w5)
            = Done ((zlen data, data ++ drop (length data) buf),
                    (Posix.mkFileDisk fp5, w6)) ∧
            Posix.disk w6 = Posix.disk w5) as (w6 & Hread & Hd6).
  { destruct (decide (zlen data = 0)) as [Hz|Hz].
    - destruct data as [|b data']; [|unfold zlen in Hz; simpl in Hz; lia].
      eexists. split; [by apply (Posix_read_zero dbg _ w5 s5)|done].
    - eexists. split.
      + rewrite (Posix_read_run dbg (Posix.mkFileDisk fp5) w5 s5 buf
                   (zlen data) Hs5); try done; try lia.
        * rewrite Hf5, read_at_start by done. reflexivity.
        * rewrite Hf5, read_at_start by done. lia.
      + reflexivity. }
  rewrite (bind_done _ _ _ _ _ Hread).
  eexists. split; [reflexivity|].
  simpl. rewrite Hd6. simpl. by rewrite Hd3.
Qed.

Lemma X1_stdio_round_trip_witness :
  ∃ st',
    (Posix.open true "/data/b.bin" WRITE;;
     written ← Posix.write true (Some sample_bytes) (zlen sample_bytes);
     sz ← Posix.size true;
     Posix.close;;
     Posix.open true "/data/b.bin" READ;;
     r ← Posix.read true (Some sample_bytes) (zlen sample_bytes);
     mret (written, sz, r)) (Posix.FileDisk_ctor, Posix_sample_world)
    = Done ((zlen sample_bytes, zlen sample_bytes,
             (zlen sample_bytes,
              sample_bytes ++ drop (length sample_bytes) sample_bytes)), st') ∧
    Posix.disk st'.2 !! "/data/b.bin" = Some sample_bytes.
Proof.
  apply (X1_stdio_round_trip true Posix_sample_world "/data/b.bin"
           sample_bytes sample_bytes).
  - discriminate.
  - vm_compute. reflexivity.
  - vm_compute. discriminate.
  - vm_compute. discriminate.
Defined.

Lemma Windows_opened_content (w : Windows.world) path :
  (if Windows.disk w !! path is Some _ then Windows.disk w
   else <[path := []]> (Windows.disk w)) !! path
  = Some (Windows.content w path).
Proof.
  unfold Windows.content.
  destruct (Windows.disk w !! path) eqn:Hd; simpl; [done|].
  apply lookup_insert_eq.
Qed.

Lemma Windows_sharing_violation_handles w w' path share :
  Windows.handles w' = Windows.handles w →
  Windows.sharing_violation w' path share
  = Windows.sharing_violation w path share.
Proof. intros Hh. unfold Windows.sharing_violation. by rewrite Hh. Qed.

(** X2. Round trip on the Win32 variant, in every build, and what WRITE
    does to a file that exists. The same calls as in X1, given also that
    the path is not open elsewhere and that the file, if there is one,
    is shorter than 2^32 bytes. Every call returns, [write] returns [n]
    and [read] returns [n] with [data] at the start of the buffer. The
    open does not truncate ([OPEN_ALWAYS]): the file then holds [data]
    followed by the bytes the old file had from offset [n] on, and
    [size()] after the write is the larger of [n] and the old length. *)
Theorem X2_win32_round_trip (dbg : bool) (w : Windows.world) (path : string)
    (data buf : list Byte.byte) :
  path ≠ EmptyString →
  Windows.sharing_violation w path 0 = false →
  zlen data < 2 ^ 32 →
  zlen (Windows.content w path) < 2 ^ 32 →
  zlen data ≤ Windows.disk_free w →
  zlen data ≤ zlen buf →
  ∃ st',
    (Windows.open dbg path WRITE;;
     written ← Windows.write dbg (Some data) (zlen data);
     sz ← Windows.size;
     Windows.close;;
     Windows.open dbg path READ;;
     r ← Windows.read dbg (Some buf) (zlen data);
     mret (written, sz, r)) (Windows.FileDisk_ctor, w)
    = Done ((zlen data, Z.max (zlen data) (zlen (Windows.content w path)),
             (zlen data, data ++ drop (length data) buf)), st') ∧
    Windows.disk st'.2 !! path
    = Some (data ++ drop (length data) (Windows.content w path)).
Proof.
  intros Hpath Hshare Hn Hold Hfree Hbuf.
  pose proof (zlen_nonneg data) as Hn0.
  set (old := Windows.content w path) in *.
  rewrite (bind_done _ _ _ _ _
             (Windows_open_run dbg Windows.FileDisk_ctor w path WRITE
                Hpath Hshare)).
  set (h := fresh ({[Windows.INVALID_HANDLE_VALUE; 0]} ∪ dom (Windows.handles w))).
  set (f1 := Windows.mkFileDisk h _).
  set (w1 := Windows.mkWorld _ _ _ _).
  set (hf1 := Windows.mkHFILE path Windows.GENERIC_WRITE 0 0).
  assert (Windows.handles w1 !! h = Some hf1) as Hh1 by apply lookup_insert_eq.
  assert (Windows.file_of w1 hf1 = old) as Hf1.
  { unfold Windows.file_of. unfold Windows.content at 1. simpl.
    by rewrite Windows_opened_content. }
  assert (∃ w2,
            Windows.write dbg (Some data) (zlen data) (f1, w1)
            = Done (zlen data, (f1, w2)) ∧
            Windows.handles w2
            = <[h := Windows.mkHFILE path Windows.GENERIC_WRITE 0 (zlen data)]>
                (Windows.handles w) ∧
            Windows.disk w2 !! path = Some (data ++ drop (length data) old))
    as (w2 & Hwrite & Hh2 & Hd2).
  { destruct (decide (zlen data = 0)) as [Hz|Hz].
    - destruct data as [|b data']; [|unfold zlen in Hz; simpl in Hz; lia].
      eexists. split; [apply Windows_write_zero|].
      change (Windows._file f1) with h. rewrite Hh1. simpl.
      split; [apply insert_insert_eq|].
      rewrite drop_0. apply Windows_opened_content.
    - eexists. split.
      + apply (Windows_write_run dbg f1 w1 hf1); try done; lia.
      + simpl. split; [apply insert_insert_eq|].
        rewrite lookup_insert_eq, Hf1, write_at_start.
        by rewrite take_all_bytes. }
  rewrite (bind_done _ _ _ _ _ Hwrite).
  rewrite (bind_done _ _ _ _ _ (Windows_size_run f1 w2)).
  change (Windows._file f1) with h.
  assert (Windows.handles w2 !! h
          = Some (Windows.mkHFILE path Windows.GENERIC_WRITE 0 (zlen data)))
    as Hl2 by (rewrite Hh2; apply lookup_insert_eq).
  rewrite Hl2.
  assert (Windows.file_of w2
            (Windows.mkHFILE path Windows.GENERIC_WRITE 0 (zlen data))
          = data ++ drop (length data) old) as Hf2
    by (unfold Windows.file_of, Windows.content; simpl; by rewrite Hd2).
  rewrite Hf2.
  assert (zlen (data ++ drop (length data) old) = Z.max (zlen data) (zlen old))
    as Hmax by (unfold zlen; rewrite length_app, length_drop; lia).
  rewrite Hmax. rewrite to_u32_small by lia.
  set (w3 := Windows.logged _ w2).
  rewrite (bind_done _ _ _ _ _
             (Windows_close_run f1 w3 _ (Windows_fresh_open w _) Hl2)).
  set (f4 := Windows.mkFileDisk _ _).
  set (w4 := Windows.mkWorld _ _ _ _).
  assert (Windows.handles w4 = Windows.handles w) as Hh4.
  { simpl. change (Windows._file f1) with h. rewrite Hh2.
    rewrite delete_insert_eq. apply delete_id, Windows_fresh_unbound. }
  assert (Windows.sharing_violation w4 path 0 = false) as Hshare4
    by (by rewrite (Windows_sharing_violation_handles w w4)).
  rewrite (bind_done _ _ _ _ _
             (Windows_open_run dbg f4 w4 path READ Hpath Hshare4)).
  assert (Windows.disk w4 !! path = Some (data ++ drop (length data) old))
    as Hd4 by done.
  rewrite Hd4.
  set (h5 := fresh ({[Windows.INVALID_HANDLE_VALUE; 0]} ∪ dom (Windows.handles w4))).
  set (f5 := Windows.mkFileDisk h5 _).
  set (w5 := Windows.mkWorld _ _ _ _).
  set (hf5 := Windows.mkHFILE path Windows.GENERIC_READ 0 0).
  assert (Windows.handles w5 !! Windows._file f5 = Some hf5) as Hh5
    by apply lookup_insert_eq.
  assert (read_at (Windows.file_of w5 hf5) (Windows.h_pos hf5) (zlen data)
          = data) as Hr5.
  { unfold Windows.file_of, Windows.content. simpl. rewrite Hd2. simpl.
    by apply read_at_prefix. }
  rewrite (bind_done _ _ _ _ _
             (Windows_read_run dbg f5 w5 hf5 buf (zlen data) Hh5 eq_refl Hn0
                ltac:(done) ltac:(rewrite Hr5; lia))).
  rewrite Hr5.
  eexists. split; [reflexivity|]. simpl. exact Hd2.
Qed.

Lemma X2_win32_round_trip_witness :
  ∃ st',
    (Windows.open true "/data/a.bin" WRITE;;
     written ← Windows.write true (Some [Byte.x41; Byte.x42]) 2;
     sz ← Windows.size;
     Windows.close;;
     Windows.open true "/data/a.bin" READ;;
     r ← Windows.read true (Some sample_bytes) 2;
     mret (written, sz, r)) (Windows.FileDisk_ctor, Windows_sample_world)
    = Done ((2, 5,
             (2, [Byte.x41; Byte.x42; Byte.x6c; Byte.x6c; Byte.x6f])), st') ∧
    Windows.disk st'.2 !! "/data/a.bin"
    = Some [Byte.x41; Byte.x42; Byte.x6c; Byte.x6c; Byte.x6f].
Proof.
  apply (X2_win32_round_trip true Windows_sample_world "/data/a.bin"
           [Byte.x41; Byte.x42] sample_bytes).
  - discriminate.
  - reflexivity.
  - vm_compute. reflexivity.
  - vm_compute. reflexivity.
  - vm_compute. discriminate.
  - vm_compute. discriminate.
Defined.

(** ** Reading *)



(** ** The end-of-file indicator of the stdio variant *)

Lemma Posix_end_of_file_run f w s :
  Posix.streams w !! Posix._file f = Some s →
  Posix.end_of_file (f, w)
  = Done (Posix.f_eof s,
          (f, Posix.logged (Posix.c_feof (Posix._file f)
                              (if Posix.f_eof s then 1 else 0)) w)).
Proof.
  intros Hs. unfold Posix.end_of_file, Posix.feof, Posix.stream, Posix.log.
  unfold_monad. rewrite Hs. simpl. by destruct (Posix.f_eof s).
Qed.

(** X4. End of file on the stdio variant is the stream's indicator: a
    [read] that gets fewer bytes than asked sets it, a [read] that gets
    all it asked for leaves it as it was (reading exactly up to the end
    does not set it), and every repositioning clears it: after [seek],
    and also after [size()], which seeks to the end and back,
    [end_of_file()] is false even right after a short read. *)
Theorem X4_stdio_eof_indicator (dbg : bool) (st : Posix.state) (s : Posix.FILE)
    (buf : list Byte.byte) (n : Z) :
  Posix.bound st s →
  Posix.f_mode s = Posix.rb → Posix.f_err s = false →
  0 ≤ Posix.f_pos s → Posix.f_pos s + n ≤ LONG_MAX →
  zlen (Posix.file_of st.2 s) ≤ LONG_MAX →
  0 < n < 2 ^ 32 → n ≤ zlen buf →
  (zlen (Posix.file_of st.2 s) - Posix.f_pos s < n →
   returned ((Posix.read dbg (Some buf) n;; Posix.end_of_file) st) = Done true) ∧
  (n ≤ zlen (Posix.file_of st.2 s) - Posix.f_pos s →
   returned ((Posix.read dbg (Some buf) n;; Posix.end_of_file) st)
   = Done (Posix.f_eof s)) ∧
  (∀ k, 0 ≤ k < 2 ^ 32 →
   returned ((Posix.read dbg (Some buf) n;; Posix.seek dbg k;;
              Posix.end_of_file) st) = Done false) ∧
  returned ((Posix.read dbg (Some buf) n;; Posix.size dbg;;
             Posix.end_of_file) st) = Done false.
Proof.
  destruct st as [f w]. unfold Posix.bound. simpl.
  intros Hs Hmode Herr Hpos Hmax Hlen Hn Hbuf.
  pose proof (zlen_read_at (Posix.file_of w s) (Posix.f_pos s) n Hpos
                ltac:(lia)) as Hk.
  pose proof (zlen_nonneg (Posix.file_of w s)) as Hlen0.
  assert (zlen (read_at (Posix.file_of w s) (Posix.f_pos s) n) ≤ zlen buf)
    as Hcap by lia.
  pose proof (Posix_read_run dbg f w s buf n Hs Hmode Herr Hn Hpos Hcap)
    as Hread.
  set (k := zlen (read_at (Posix.file_of w s) (Posix.f_pos s) n)) in *.
  set (s1 := Posix.mkFILE (Posix.f_path s) (Posix.f_mode s) (Posix.f_pos s + k)
               (Posix.f_eof s || (k <? n)) (Posix.f_err s)) in *.
  match type of Hread with
  | _ = Done (_, (_, ?w1)) =>
      assert (Posix.streams w1 !! Posix._file f = Some s1) as Hs1
        by apply lookup_insert_eq;
      assert (Posix.file_of w1 s1 = Posix.file_of w s) as Hf1 by done
  end.
  split_and!.
  - intros Hshort. rewrite (bind_done _ _ _ _ _ Hread).
    rewrite (Posix_end_of_file_run f _ _ Hs1). simpl.
    assert ((k <? n) = true) as -> by lia. by rewrite orb_true_r.
  - intros Hfull. rewrite (bind_done _ _ _ _ _ Hread).
    rewrite (Posix_end_of_file_run f _ _ Hs1). simpl.
    assert ((k <? n) = false) as -> by lia. by rewrite orb_false_r.
  - intros k' Hk'. rewrite (bind_done _ _ _ _ _ Hread).
    rewrite (bind_done _ _ _ _ _ (Posix_seek_run dbg f _ _ k' Hs1 Hk')).
    by rewrite (Posix_end_of_file_run f _ _ (Posix_stream_moved _ _ _ _ _)).
  - rewrite (bind_done _ _ _ _ _ Hread).
    destruct (Posix_size_run dbg f _ _ Hs1) as (w' & Hsize & Hs' & _).
    + simpl. lia.
    + by rewrite Hf1.
    + rewrite (bind_done _ _ _ _ _ Hsize).
      by rewrite (Posix_end_of_file_run f _ _ Hs').
Qed.

Lemma X4_stdio_eof_indicator_witness :
  returned ((Posix.read true (Some (sample_bytes ++ sample_bytes)) 9;;
             Posix.end_of_file) (Posix_sample_open Posix.rb)) = Done true ∧
  returned ((Posix.read true (Some (sample_bytes ++ sample_bytes)) 9;;
             Posix.size true;; Posix.end_of_file)
              (Posix_sample_open Posix.rb)) = Done false.
Proof.
  pose proof (X4_stdio_eof_indicator true (Posix_sample_open Posix.rb)
                (Posix.mkFILE "/data/a.bin" Posix.rb 0 false false)
                (sample_bytes ++ sample_bytes) 9) as H.
  destruct H as (Hshort & _ & _ & Hsize).
  - reflexivity.
  - reflexivity.
  - reflexivity.
  - simpl. lia.
  - simpl. unfold LONG_MAX. lia.
  - vm_compute. discriminate.
  - lia.
  - vm_compute. discriminate.
  - split; [apply Hshort; vm_compute; reflexivity | exact Hsize].
Defined.

(** X5. A read of zero bytes. On the Win32 variant [read(buffer, 0)] on
    a handle open for reading succeeds with a count of zero, so it sets
    the end-of-file flag wherever the cursor is, and does not move the
    cursor. On the stdio variant a read of zero bytes leaves the
    indicator as it was. *)
Theorem X5_zero_size_read (dbg : bool) (buf : list Byte.byte) :
  (∀ (st : Windows.state) (h : Windows.HFILE),
     Windows.bound st h →
     Windows.h_access h = Windows.GENERIC_READ →
     0 ≤ Windows.h_pos h →
     returned (Windows.read dbg (Some buf) 0 st) = Done (0, buf) ∧
     returned ((Windows.read dbg (Some buf) 0;; Windows.end_of_file) st)
     = Done true ∧
     ∃ st' h', Windows.read dbg (Some buf) 0 st = Done ((0, buf), st') ∧
               Windows.bound st' h' ∧ Windows.h_pos h' = Windows.h_pos h) ∧
  (∀ (st : Posix.state) (s : Posix.FILE),
     Posix.bound st s →
     Posix.f_err s = false →
     returned (Posix.read dbg (Some buf) 0 st) = Done (0, buf) ∧
     returned ((Posix.read dbg (Some buf) 0;; Posix.end_of_file) st)
     = returned (Posix.end_of_file st)).
Proof.
  split.
  - intros [f w] h Hh Hacc Hpos. unfold Windows.bound in Hh. simpl in Hh.
    assert (read_at (Windows.file_of w h) (Windows.h_pos h) 0 = []) as Hnil
      by (unfold read_at; by change (Z.to_nat 0) with 0%nat).
    pose proof (Windows_read_run dbg f w h buf 0 Hh Hacc ltac:(lia) Hpos)
      as Hread.
    rewrite Hnil in Hread. specialize (Hread (zlen_nonneg buf)).
    simpl in Hread. rewrite Z.add_0_r in Hread.
    split_and!.
    + by rewrite Hread.
    + by rewrite (bind_done _ _ _ _ _ Hread).
    + do 2 eexists. split; [exact Hread|].
      unfold Windows.bound. simpl. by rewrite lookup_insert_eq.
  - intros [f w] s Hs Herr. unfold Posix.bound in Hs. simpl in Hs.
    pose proof (Posix_read_zero dbg f w s buf Hs Herr) as Hread.
    split; [by rewrite Hread|].
    rewrite (bind_done _ _ _ _ _ Hread).
    by rewrite !(Posix_end_of_file_run f _ s) by done.
Qed.

Lemma X5_zero_size_read_witness :
  returned ((Windows.read true (Some sample_bytes) 0;; Windows.end_of_file)
              (Windows_sample_open Windows.GENERIC_READ)) = Done true ∧
  returned ((Posix.read true (Some sample_bytes) 0;; Posix.end_of_file)
              (Posix_sample_open Posix.rb))
  = returned (Posix.end_of_file (Posix_sample_open Posix.rb)).
Proof.
  split.
  - refine (proj1 (proj2 (proj1 (X5_zero_size_read true sample_bytes)
              (Windows_sample_open Windows.GENERIC_READ)
              (Windows.mkHFILE "/data/a.bin" Windows.GENERIC_READ 0 0) _ _ _))).
    + reflexivity.
    + reflexivity.
    + simpl. lia.
  - refine (proj2 (proj2 (X5_zero_size_read true sample_bytes)
              (Posix_sample_open Posix.rb)
              (Posix.mkFILE "/data/a.bin" Posix.rb 0 false false) _ _)).
    + reflexivity.
    + reflexivity.
Defined.

(** ** Using a handle against its mode *)

(** X6. The mode of the handle is enforced by the native layer, and the
    methods turn the failure into an abort only where assertions are
    enabled. Reading [n > 0] bytes from a handle opened for WRITE, or
    writing [n > 0] bytes to a handle opened for READ, aborts in the
    assertion on the native result ("fread error", "fwrite error",
    "ReadFile", "WriteFile"); on the Win32 variant so does [flush] on a
    READ handle. Without assertions these calls return a count of 0 and
    no file is changed. *)
Theorem X6_mode_is_enforced (buf : list Byte.byte) (n : Z) :
  0 < n →
  (∀ (st : Posix.state) (s : Posix.FILE),
     Posix.bound st s → Posix.f_mode s = Posix.wb →
     Posix.read true (Some buf) n st = Fatal "fread error" ∧
     ∃ st', Posix.read false (Some buf) n st = Done ((0, buf), st') ∧
            Posix.disk st'.2 = Posix.disk st.2) ∧
  (∀ (st : Posix.state) (s : Posix.FILE),
     Posix.bound st s → Posix.f_mode s = Posix.rb →
     Posix.write true (Some buf) n st = Fatal "fwrite error" ∧
     ∃ st', Posix.write false (Some buf) n st = Done (0, st') ∧
            Posix.disk st'.2 = Posix.disk st.2) ∧
  (∀ (st : Windows.state) (h : Windows.HFILE),
     Windows.bound st h → Windows.h_access h = Windows.GENERIC_WRITE →
     Windows.read true (Some buf) n st = Fatal "ReadFile" ∧
     ∃ st', Windows.read false (Some buf) n st = Done ((0, buf), st') ∧
            Windows.disk st'.2 = Windows.disk st.2) ∧
  (∀ (st : Windows.state) (h : Windows.HFILE),
     Windows.bound st h → Windows.h_access h = Windows.GENERIC_READ →
     Windows.write true (Some buf) n st = Fatal "WriteFile" ∧
     Windows.flush true st = Fatal "FlushFileBuffers" ∧
     ∃ st', Windows.write false (Some buf) n st = Done (0, st') ∧
            Windows.disk st'.2 = Windows.disk st.2).
Proof.
  intros Hn. assert ((n =? 0) = false) as Hn0 by lia.
  split_and!.
  - intros [f w] s Hs Hmode. unfold Posix.bound in Hs. simpl in Hs.
    unfold Posix.read, Posix.fread, Posix.ferror, Posix.stream,
      Posix.set_stream, Posix.log.
    unfold_monad. simpl. rewrite Hs. simpl. rewrite Hn0, Hmode. simpl.
    rewrite lookup_insert_eq. simpl. split; [done|]. by eexists.
  - intros [f w] s Hs Hmode. unfold Posix.bound in Hs. simpl in Hs.
    unfold Posix.write, Posix.fwrite, Posix.ferror, Posix.stream,
      Posix.set_stream, Posix.log.
    unfold_monad. simpl. rewrite Hs. simpl. rewrite Hn0, Hmode. simpl.
    rewrite lookup_insert_eq. simpl. split; [done|]. by eexists.
  - intros [f w] h Hh Hacc. unfold Windows.bound in Hh. simpl in Hh.
    unfold Windows.read, Windows.ReadFile, Windows.log.
    unfold_monad. simpl. rewrite Hh. simpl. rewrite Hacc. simpl.
    split; [done|]. by eexists.
  - intros [f w] h Hh Hacc. unfold Windows.bound in Hh. simpl in Hh.
    unfold Windows.write, Windows.flush, Windows.WriteFile,
      Windows.FlushFileBuffers, Windows.log.
    unfold_monad. simpl. rewrite Hh. simpl. rewrite Hacc. simpl.
    rewrite Hn0. split_and!; try done. by eexists.
Qed.

Lemma X6_mode_is_enforced_witness :
  Posix.read true (Some sample_bytes) 5 (Posix_sample_open Posix.wb)
  = Fatal "fread error" ∧
  Windows.write true (Some sample_bytes) 5
    (Windows_sample_open Windows.GENERIC_READ) = Fatal "WriteFile".
Proof.
  split.
  - refine (proj1 (proj1 (X6_mode_is_enforced sample_bytes 5 _)
              (Posix_sample_open Posix.wb)
              (Posix.mkFILE "/data/a.bin" Posix.wb 0 false false) _ _));
      [lia | reflexivity | reflexivity].
  - refine (proj1 (proj2 (proj2 (proj2 (X6_mode_is_enforced sample_bytes 5 _)))
              (Windows_sample_open Windows.GENERIC_READ)
              (Windows.mkHFILE "/data/a.bin" Windows.GENERIC_READ 0 0) _ _));
      [lia | reflexivity | reflexivity].
Defined.

(** ** Several native resources *)

Lemma Windows_sharing_violation_bound (w : Windows.world) h0 h :
  Windows.handles w !! h0 = Some h →
  Windows.sharing_violation w (Windows.h_path h) 0 = true.
Proof.
  intros Hh. unfold Windows.sharing_violation.
  apply existsb_exists. exists (h0, h). split.
  - apply list_elem_of_In, elem_of_map_to_list. exact Hh.
  - simpl. rewrite String.eqb_refl. simpl. apply orb_true_r.
Qed.

(** X7. The Win32 variant opens every file with share mode 0: while a
    handle is open on a path, [open] of the same path on another handle,
    in either mode, fails in [CreateFile]. Where assertions are enabled it
    aborts; otherwise it returns with that handle closed and nothing
    changed. The stdio variant has no such exclusion: a second handle
    opens the same existing file for READ. *)
Theorem X7_win32_open_is_exclusive (mode : FileOpenMode) :
  (∀ (st : Windows.state) (h : Windows.HFILE) (f2 : Windows.FileDisk),
     Windows.bound st h →
     Windows.open true (Windows.h_path h) mode (f2, st.2) = Fatal "CreateFile" ∧
     ∃ st', Windows.open false (Windows.h_path h) mode (f2, st.2)
            = Done (tt, st') ∧
            Windows.is_open st'.1 = false ∧
            Windows.handles st'.2 = Windows.handles st.2 ∧
            Windows.disk st'.2 = Windows.disk st.2) ∧
  (∀ (dbg : bool) (st : Posix.state) (s : Posix.FILE) (f2 : Posix.FileDisk),
     Posix.bound st s →
     is_Some (Posix.disk st.2 !! Posix.f_path s) →
     ∃ st', Posix.open dbg (Posix.f_path s) READ (f2, st.2) = Done (tt, st') ∧
            Posix.is_open st'.1 = true ∧
            Posix._file st'.1 ≠ Posix._file st.1 ∧
            Posix.bound (st.1, st'.2) s).
Proof.
  split.
  - intros [f w] h f2 Hh. unfold Windows.bound in Hh. simpl in *.
    pose proof (Windows_sharing_violation_bound w _ h Hh) as Hshare.
    unfold Windows.open, Windows.CreateFile, Windows.log.
    unfold_monad. simpl. rewrite Hshare, andb_false_r. simpl.
    split; [by destruct mode|]. by eexists.
  - intros dbg [f w] s f2 Hs [c Hc]. unfold Posix.bound in *. simpl in *.
    rewrite (Posix_open_read_run dbg f2 w _ c Hc).
    eexists. split; [reflexivity|]. simpl.
    assert (fresh ({[Posix.NULL]} ∪ dom (Posix.streams w)) ≠ Posix._file f)
      as Hne.
    { intros Heq. pose proof (Posix_fresh_unbound w) as Hf.
      rewrite Heq in Hf. congruence. }
    split_and!; [apply Posix_fresh_open | done |].
    by rewrite lookup_insert_ne.
Qed.

Lemma X7_win32_open_is_exclusive_witness :
  Windows.open true "/data/a.bin" READ
    (Windows.FileDisk_ctor, (Windows_sample_open Windows.GENERIC_READ).2)
  = Fatal "CreateFile".
Proof.
  exact (proj1 (proj1 (X7_win32_open_is_exclusive READ)
           (Windows_sample_open Windows.GENERIC_READ)
           (Windows.mkHFILE "/data/a.bin" Windows.GENERIC_READ 0 0)
           Windows.FileDisk_ctor eq_refl)).
Defined.

Lemma Posix_open_run dbg f w path mode :
  path ≠ EmptyString →
  mode = WRITE ∨ is_Some (Posix.disk w !! path) →
  Posix.open dbg path mode (f, w)
  = Done (tt,
      (Posix.mkFileDisk (fresh ({[Posix.NULL]} ∪ dom (Posix.streams w))),
       Posix.mkWorld
         (if mode is WRITE then <[path := []]> (Posix.disk w) else Posix.disk w)
         (Posix.disk_free w)
         (<[fresh ({[Posix.NULL]} ∪ dom (Posix.streams w))
            := Posix.mkFILE path (if mode is READ then Posix.rb else Posix.wb)
                 0 false false]> (Posix.streams w))
         (Posix.c_fopen path (if mode is READ then Posix.rb else Posix.wb)
            (fresh ({[Posix.NULL]} ∪ dom (Posix.streams w))) :: Posix.trace w))).
Proof.
  intros Hpath Hok. destruct mode.
  - destruct Hok as [?|[c Hc]]; [done|]. by apply (Posix_open_read_run dbg f w path c).
  - by apply Posix_open_write_run.
Qed.

(** X8. [open] on a handle that is already open does not close what the
    handle was bound to. The call binds the handle to a new native
    resource and makes no release call; the old stream (or Win32 handle)
    stays open in the native layer with nothing referring to it, and the
    [close()] that follows releases the new resource only. *)
Theorem X8_open_does_not_release (dbg : bool) (path : string)
    (mode : FileOpenMode) :
  path ≠ EmptyString →
  (∀ (st : Posix.state) (s : Posix.FILE),
     Posix.bound st s →
     mode = WRITE ∨ is_Some (Posix.disk st.2 !! path) →
     ∃ st' st'',
       Posix.open dbg path mode st = Done (tt, st') ∧
       Posix.is_open st'.1 = true ∧
       Posix._file st'.1 ≠ Posix._file st.1 ∧
       Posix.streams st'.2 !! Posix._file st.1 = Some s ∧
       Posix.releases (Posix.trace st'.2) = Posix.releases (Posix.trace st.2) ∧
       Posix.close st' = Done (tt, st'') ∧
       Posix.streams st''.2 !! Posix._file st.1 = Some s) ∧
  (∀ (st : Windows.state) (h : Windows.HFILE),
     Windows.bound st h →
     Windows.sharing_violation st.2 path 0 = false →
     ∃ st' st'',
       Windows.open dbg path mode st = Done (tt, st') ∧
       Windows.is_open st'.1 = true ∧
       Windows._file st'.1 ≠ Windows._file st.1 ∧
       Windows.handles st'.2 !! Windows._file st.1 = Some h ∧
       Windows.releases (Windows.trace st'.2)
       = Windows.releases (Windows.trace st.2) ∧
       Windows.close st' = Done (tt, st'') ∧
       Windows.handles st''.2 !! Windows._file st.1 = Some h).
Proof.
  intros Hpath. split.
  - intros [f w] s Hs Hok. unfold Posix.bound in Hs. simpl in *.
    assert (fresh ({[Posix.NULL]} ∪ dom (Posix.streams w)) ≠ Posix._file f)
      as Hne.
    { intros Heq. pose proof (Posix_fresh_unbound w) as Hf.
      rewrite Heq in Hf. congruence. }
    rewrite (Posix_open_run dbg f w path mode Hpath Hok).
    do 2 eexists. split; [reflexivity|]. simpl.
    split_and!; [apply Posix_fresh_open | done | by rewrite lookup_insert_ne
                | done | | ].
    + eapply Posix_close_open; [apply Posix_fresh_open|].
      simpl. apply lookup_insert_eq.
    + simpl. rewrite lookup_delete_ne by done. by rewrite lookup_insert_ne.
  - intros [f w] h Hh Hshare. unfold Windows.bound in Hh. simpl in *.
    assert (fresh ({[Windows.INVALID_HANDLE_VALUE; 0]} ∪ dom (Windows.handles w))
            ≠ Windows._file f) as Hne.
    { intros Heq. pose proof (Windows_fresh_unbound w) as Hf.
      rewrite Heq in Hf. congruence. }
    rewrite (Windows_open_run dbg f w path mode Hpath Hshare).
    do 2 eexists. split; [reflexivity|]. simpl.
    split_and!; [apply Windows_fresh_open | done | by rewrite lookup_insert_ne
                | done | | ].
    + eapply Windows_close_run; [apply Windows_fresh_open|].
      simpl. apply lookup_insert_eq.
    + simpl. rewrite lookup_delete_ne by done. by rewrite lookup_insert_ne.
Qed.

Lemma X8_open_does_not_release_witness :
  ∃ st' st'',
    Posix.open true "/data/b.bin" WRITE (Posix_sample_open Posix.rb)
    = Done (tt, st') ∧
    Posix.is_open st'.1 = true ∧
    Posix._file st'.1 ≠ Posix._file (Posix_sample_open Posix.rb).1 ∧
    Posix.streams st'.2 !! Posix._file (Posix_sample_open Posix.rb).1
    = Some (Posix.mkFILE "/data/a.bin" Posix.rb 0 false false) ∧
    Posix.releases (Posix.trace st'.2)
    = Posix.releases (Posix.trace (Posix_sample_open Posix.rb).2) ∧
    Posix.close st' = Done (tt, st'') ∧
    Posix.streams st''.2 !! Posix._file (Posix_sample_open Posix.rb).1
    = Some (Posix.mkFILE "/data/a.bin" Posix.rb 0 false false).
Proof.
  apply (proj1 (X8_open_does_not_release true "/data/b.bin" WRITE
                  ltac:(discriminate)) (Posix_sample_open Posix.rb)).
  - reflexivity.
  - by left.
Defined.

(** ** The facade's handles *)

Section FacadeHandles.
Context {PU : Path}.

Lemma facade_open_run {F W} {FI : File F W} dbg fs path mode (w : W) :
  FilesystemDisk_open dbg fs (Some path) mode w
  = match File_open dbg (FilesystemDisk_get_absolute_path fs path) mode
            (File_new, w) with
    | Done (_, (file, w')) => Done (file, w')
    | Fatal msg => Fatal msg
    | Undefined => Undefined
    end.
Proof.
  unfold FilesystemDisk_open. rewrite entry_check.
  unfold_monad. by repeat case_match; simplify_eq.
Qed.

Lemma facade_close_run {F W} {FI : File F W} fs (file : F) (w : W) :
  FilesystemDisk_close fs file w
  = match File_delete (file, w) with
    | Done (_, (_, w')) => Done (tt, w')
    | Fatal msg => Fatal msg
    | Undefined => Undefined
    end.
Proof.
  unfold FilesystemDisk_close. unfold_monad.
  by repeat case_match; simplify_eq.
Qed.

End FacadeHandles.

(** X9. A handle obtained from the facade and given back to it leaves no
    native resource behind. When the resolved path can be opened (not
    empty; for READ on the stdio variant the file exists; on the Win32
    variant the path is not open elsewhere), [FilesystemDisk::open]
    returns an open handle bound to the resolved path with the cursor at
    0, and [FilesystemDisk::close] on it makes exactly one release call
    and leaves the table of open native resources as it was before the
    [open]. *)
Theorem X9_facade_open_close {PU : Path} (dbg : bool) (fs : FilesystemDisk)
    (path : string) (mode : FileOpenMode) :
  FilesystemDisk_get_absolute_path fs path ≠ EmptyString →
  (∀ w : Posix.world,
     mode = WRITE
     ∨ is_Some (Posix.disk w !! FilesystemDisk_get_absolute_path fs path) →
     ∃ file w1 w2,
       FilesystemDisk_open dbg fs (Some path) mode w = Done (file, w1) ∧
       Posix.is_open file = true ∧
       Posix.bound (file, w1)
         (Posix.mkFILE (FilesystemDisk_get_absolute_path fs path)
            (if mode is READ then Posix.rb else Posix.wb) 0 false false) ∧
       FilesystemDisk_close fs file w1 = Done (tt, w2) ∧
       Posix.streams w2 = Posix.streams w ∧
       Posix.releases (Posix.trace w2) = S (Posix.releases (Posix.trace w)) ∧
       Posix.disk w2 = Posix.disk w1 ∧
       (mode = READ → Posix.disk w2 = Posix.disk w)) ∧
  (∀ w : Windows.world,
     Windows.sharing_violation w (FilesystemDisk_get_absolute_path fs path) 0
     = false →
     ∃ file w1 w2,
       FilesystemDisk_open dbg fs (Some path) mode w = Done (file, w1) ∧
       Windows.is_open file = true ∧
       Windows.bound (file, w1)
         (Windows.mkHFILE (FilesystemDisk_get_absolute_path fs path)
            (if mode is READ then Windows.GENERIC_READ
             else Windows.GENERIC_WRITE) 0 0) ∧
       FilesystemDisk_close fs file w1 = Done (tt, w2) ∧
       Windows.handles w2 = Windows.handles w ∧
       Windows.releases (Windows.trace w2)
       = S (Windows.releases (Windows.trace w)) ∧
       Windows.disk w2 = Windows.disk w1).
Proof.
  intros Habs. split.
  - intros w Hok.
    rewrite facade_open_run. simpl File_open. simpl File_new.
    rewrite (Posix_open_run dbg _ w _ mode Habs Hok).
    do 3 eexists. split; [reflexivity|].
    split; [apply Posix_fresh_open|].
    split; [apply lookup_insert_eq|].
    rewrite facade_close_run. simpl File_delete. unfold Posix.FileDisk_dtor.
    erewrite Posix_close_open;
      [| apply Posix_fresh_open | simpl; apply lookup_insert_eq].
    split; [reflexivity|]. simpl.
    split_and!; try done.
    all: try (rewrite delete_insert_eq; apply delete_id, Posix_fresh_unbound).
    all: try (by destruct mode).
    all: by intros ->.
  - intros w Hshare.
    rewrite facade_open_run. simpl File_open. simpl File_new.
    rewrite (Windows_open_run dbg _ w _ mode Habs Hshare).
    do 3 eexists. split; [reflexivity|].
    split; [apply Windows_fresh_open|].
    split; [apply lookup_insert_eq|].
    rewrite facade_close_run. simpl File_delete. unfold Windows.FileDisk_dtor.
    erewrite Windows_close_run;
      [| apply Windows_fresh_open | simpl; apply lookup_insert_eq].
    split; [reflexivity|]. simpl.
    split_and!; try done.
    all: rewrite delete_insert_eq; apply delete_id, Windows_fresh_unbound.
Qed.

Lemma X9_facade_open_close_witness :
  ∃ file w1 w2,
    FilesystemDisk_open (PU := slash_path) true (mkFilesystemDisk "/data")
      (Some "a.bin") READ Posix_sample_world = Done (file, w1) ∧
    Posix.is_open file = true ∧
    Posix.bound (file, w1) (Posix.mkFILE "/data/a.bin" Posix.rb 0 false false) ∧
    FilesystemDisk_close (mkFilesystemDisk "/data") file w1 = Done (tt, w2) ∧
    Posix.streams w2 = Posix.streams Posix_sample_world ∧
    Posix.releases (Posix.trace w2)
    = S (Posix.releases (Posix.trace Posix_sample_world)) ∧
    Posix.disk w2 = Posix.disk w1 ∧
    (READ = READ → Posix.disk w2 = Posix.disk Posix_sample_world).
Proof.
  apply (proj1 (X9_facade_open_close (PU := slash_path) true
                  (mkFilesystemDisk "/data") "a.bin" READ
                  ltac:(discriminate)) Posix_sample_world).
  right. eexists. reflexivity.
Defined.

(** X10. A NULL path never reaches path resolution or the OS layer. Where
    assertions are enabled every operation of the facade that takes a
    path aborts in its entry check; where they are not, the NULL pointer
    is handed on to [path::is_absolute], which the model leaves
    undefined. *)
Theorem X10_null_path {PU : Path} {F W S : Type} {FI : File F W} {OS : Os S}
    (fs : FilesystemDisk) (dbg : bool) :
  (∀ mode (w : W),
     FilesystemDisk_open dbg fs None mode w
     = if dbg then Fatal EmptyString else Undefined) ∧
  (∀ w : os_world S,
     FilesystemDisk_exists dbg fs None w
     = (if dbg then Fatal EmptyString else Undefined) ∧
     FilesystemDisk_is_directory dbg fs None w
     = (if dbg then Fatal EmptyString else Undefined) ∧
     FilesystemDisk_is_file dbg fs None w
     = (if dbg then Fatal EmptyString else Undefined) ∧
     FilesystemDisk_last_modified_time dbg fs None w
     = (if dbg then Fatal EmptyString else Undefined) ∧
     FilesystemDisk_create_directory dbg fs None w
     = (if dbg then Fatal EmptyString else Undefined) ∧
     FilesystemDisk_delete_directory dbg fs None w
     = (if dbg then Fatal EmptyString else Undefined) ∧
     FilesystemDisk_create_file dbg fs None w
     = (if dbg then Fatal EmptyString else Undefined) ∧
     FilesystemDisk_delete_file dbg fs None w
     = (if dbg then Fatal EmptyString else Undefined) ∧
     ∀ files,
       FilesystemDisk_list_files dbg fs None files w
       = if dbg then Fatal EmptyString else Undefined).
Proof.
  destruct dbg; (split; [intros; reflexivity|]);
    intros w; split_and!; intros; reflexivity.
Qed.

(** ** What a write leaves in the file *)

Lemma zlen_write_at c pos data :
  0 ≤ pos → zlen (write_at c pos data) = Z.max (zlen c) (pos + zlen data).
Proof.
  intros Hpos. unfold zlen, write_at.
  rewrite !length_app, length_take, length_drop, length_app, length_replicate.
  lia.
Qed.

Lemma write_at_prefix_length (c : list Byte.byte) (pos : Z) :
  length (take (Z.to_nat pos)
            (c ++ replicate (Z.to_nat pos - length c) Byte.x00))
  = Z.to_nat pos.
Proof. rewrite length_take, length_app, length_replicate. lia. Qed.

Lemma read_at_write_at c pos data n :
  n = zlen data → read_at (write_at c pos data) pos n = data.
Proof.
  intros ->. unfold read_at, write_at.
  rewrite drop_app_length' by (by rewrite write_at_prefix_length).
  unfold zlen. rewrite Nat2Z.id. apply take_app_length.
Qed.

Lemma take_write_at c pos data :
  pos ≤ zlen c →
  take (Z.to_nat pos) (write_at c pos data) = take (Z.to_nat pos) c.
Proof.
  intros Hpos. unfold write_at.
  rewrite take_app_length' by (by rewrite write_at_prefix_length).
  apply take_app_le. unfold zlen in Hpos. lia.
Qed.

Lemma Posix_flush_run dbg f w s :
  Posix.streams w !! Posix._file f = Some s →
  Posix.flush dbg (f, w)
  = Done (tt, (f, Posix.logged (Posix.c_fflush (Posix._file f) 0) w)).
Proof.
  intros Hs. unfold Posix.flush, Posix.fflush, Posix.stream, Posix.log.
  unfold_monad. simpl. rewrite Hs. by destruct dbg.
Qed.

(** X11. What [write] does to the files. On a handle open for writing
    (stdio: error indicator clear) with the cursor at [p], a buffer of at
    least [n > 0] bytes and a device that takes [n] more bytes,
    [write(buffer, n)] returns [n] in every build. On the Win32 variant
    once [write] has returned, on the stdio variant once the [flush()]
    that follows it has returned (the stream may hold the bytes until
    then): the cursor is at [p + n]; the file is as long as the larger
    of its old length and [p + n]; its [n] bytes from [p] are the first
    [n] bytes of the buffer; its bytes before [p] are unchanged when [p]
    was within the file; every other file is untouched. *)
Theorem X11_write_changes_one_file (dbg : bool) (buf : list Byte.byte) (n : Z) :
  0 < n < 2 ^ 32 → n ≤ zlen buf →
  (∀ (st : Posix.state) (s : Posix.FILE),
     Posix.bound st s →
     Posix.f_mode s = Posix.wb → Posix.f_err s = false →
     0 ≤ Posix.f_pos s → n ≤ Posix.disk_free st.2 →
     ∃ st' s',
       (written ← Posix.write dbg (Some buf) n;
        Posix.flush dbg;;
        mret written) st = Done (n, st') ∧
       Posix.bound st' s' ∧
       Posix.f_pos s' = Posix.f_pos s + n ∧
       zlen (Posix.file_of st'.2 s')
       = Z.max (zlen (Posix.file_of st.2 s)) (Posix.f_pos s + n) ∧
       read_at (Posix.file_of st'.2 s') (Posix.f_pos s) n
       = take (Z.to_nat n) buf ∧
       (Posix.f_pos s ≤ zlen (Posix.file_of st.2 s) →
        take (Z.to_nat (Posix.f_pos s)) (Posix.file_of st'.2 s')
        = take (Z.to_nat (Posix.f_pos s)) (Posix.file_of st.2 s)) ∧
       (∀ p, p ≠ Posix.f_path s →
             Posix.disk st'.2 !! p = Posix.disk st.2 !! p)) ∧
  (∀ (st : Windows.state) (h : Windows.HFILE),
     Windows.bound st h →
     Windows.h_access h = Windows.GENERIC_WRITE →
     0 ≤ Windows.h_pos h → n ≤ Windows.disk_free st.2 →
     ∃ st' h',
       Windows.write dbg (Some buf) n st = Done (n, st') ∧
       Windows.bound st' h' ∧
       Windows.h_pos h' = Windows.h_pos h + n ∧
       zlen (Windows.file_of st'.2 h')
       = Z.max (zlen (Windows.file_of st.2 h)) (Windows.h_pos h + n) ∧
       read_at (Windows.file_of st'.2 h') (Windows.h_pos h) n
       = take (Z.to_nat n) buf ∧
       (Windows.h_pos h ≤ zlen (Windows.file_of st.2 h) →
        take (Z.to_nat (Windows.h_pos h)) (Windows.file_of st'.2 h')
        = take (Z.to_nat (Windows.h_pos h)) (Windows.file_of st.2 h)) ∧
       (∀ p, p ≠ Windows.h_path h →
             Windows.disk st'.2 !! p = Windows.disk st.2 !! p)).
Proof.
  intros Hn Hbuf.
  assert (zlen (take (Z.to_nat n) buf) = n) as Htake.
  { unfold zlen in *. rewrite length_take. lia. }
  split.
  - intros [f w] s Hs Hmode Herr Hpos Hfree.
    unfold Posix.bound in Hs. simpl in *.
    pose proof (Posix_write_run dbg f w s buf n Hs Hmode Herr Hn Hbuf Hfree)
      as Hwrite.
    set (s1 := Posix.mkFILE (Posix.f_path s) (Posix.f_mode s)
                 (Posix.f_pos s + n) (Posix.f_eof s) false) in *.
    match type of Hwrite with
    | _ = Done (_, (_, ?w1)) =>
        assert (Posix.streams w1 !! Posix._file f = Some s1) as Hs1
          by (simpl; apply lookup_insert_eq)
    end.
    rewrite (bind_done _ _ _ _ _ Hwrite).
    rewrite (bind_done _ _ _ _ _ (Posix_flush_run dbg f _ s1 Hs1)).
    eexists _, s1.
    split; [reflexivity|].
    unfold Posix.bound, Posix.file_of, s1. simpl.
    rewrite !lookup_insert_eq. simpl.
    split_and!; try done.
    + rewrite zlen_write_at by done. by rewrite Htake.
    + by apply read_at_write_at.
    + apply take_write_at.
    + intros p Hp. by rewrite lookup_insert_ne.
  - intros [f w] h Hh Hacc Hpos Hfree.
    unfold Windows.bound in Hh. simpl in *.
    rewrite (Windows_write_run dbg f w h buf n Hh Hacc ltac:(lia) Hbuf Hfree).
    eexists _, (Windows.mkHFILE (Windows.h_path h) (Windows.h_access h)
                  (Windows.h_share h) (Windows.h_pos h + n)).
    split; [reflexivity|].
    unfold Windows.bound, Windows.file_of, Windows.content. simpl.
    rewrite !lookup_insert_eq. simpl.
    split_and!; try done.
    + rewrite zlen_write_at by done. by rewrite Htake.
    + by apply read_at_write_at.
    + apply take_write_at.
    + intros p Hp. by rewrite lookup_insert_ne.
Qed.

Lemma X11_write_changes_one_file_witness :
  ∃ st' s',
    (written ← Posix.write true (Some sample_bytes) 5;
     Posix.flush true;;
     mret written) (Posix_sample_open Posix.wb)
    = Done (5, st') ∧
    Posix.bound st' s' ∧
    Posix.f_pos s' = 0 + 5 ∧
    zlen (Posix.file_of st'.2 s') = Z.max (zlen sample_bytes) (0 + 5) ∧
    read_at (Posix.file_of st'.2 s') 0 5 = take (Z.to_nat 5) sample_bytes ∧
    (0 ≤ zlen sample_bytes →
     take (Z.to_nat 0) (Posix.file_of st'.2 s')
     = take (Z.to_nat 0) sample_bytes) ∧
    (∀ p, p ≠ "/data/a.bin" →
          Posix.disk st'.2 !! p = Posix.disk (Posix_sample_open Posix.wb).2 !! p).
Proof.
  apply (proj1 (X11_write_changes_one_file true sample_bytes 5
                  ltac:(lia) ltac:(vm_compute; discriminate))
           (Posix_sample_open Posix.wb)
           (Posix.mkFILE "/data/a.bin" Posix.wb 0 false false)).
  - reflexivity.
  - reflexivity.
  - reflexivity.
  - simpl. lia.
  - vm_compute. discriminate.
Defined.

(** X12. What [FilesystemDisk::open] hands back. Where assertions are
    enabled, a call that returns gives an open handle, bound to a native
    resource that was not open before, on the resolved path with the
    cursor at 0: a handle that failed to open is never returned. Where
    they are not, the call always returns a handle, and when that handle
    is closed the native layer holds the same files and open resources as
    before. *)
Theorem X12_facade_open_result {PU : Path} (fs : FilesystemDisk)
    (path : string) (mode : FileOpenMode) :
  (∀ (w w1 : Posix.world) (file : Posix.FileDisk),
     FilesystemDisk_open true fs (Some path) mode w = Done (file, w1) →
     Posix.is_open file = true ∧
     Posix.streams w !! Posix._file file = None ∧
     Posix.bound (file, w1)
       (Posix.mkFILE (FilesystemDisk_get_absolute_path fs path)
          (if mode is READ then Posix.rb else Posix.wb) 0 false false)) ∧
  (∀ (w w1 : Windows.world) (file : Windows.FileDisk),
     FilesystemDisk_open true fs (Some path) mode w = Done (file, w1) →
     Windows.is_open file = true ∧
     Windows.handles w !! Windows._file file = None ∧
     Windows.bound (file, w1)
       (Windows.mkHFILE (FilesystemDisk_get_absolute_path fs path)
          (if mode is READ then Windows.GENERIC_READ
           else Windows.GENERIC_WRITE) 0 0)) ∧
  (∀ w : Posix.world,
     ∃ file w1,
       FilesystemDisk_open false fs (Some path) mode w = Done (file, w1) ∧
       (Posix.is_open file = false →
        Posix.streams w1 = Posix.streams w ∧ Posix.disk w1 = Posix.disk w)) ∧
  (∀ w : Windows.world,
     ∃ file w1,
       FilesystemDisk_open false fs (Some path) mode w = Done (file, w1) ∧
       (Windows.is_open file = false →
        Windows.handles w1 = Windows.handles w ∧
        Windows.disk w1 = Windows.disk w)).
Proof.
  split_and!.
  - intros w w1 file. rewrite facade_open_run. simpl File_open. simpl File_new.
    set (abs := FilesystemDisk_get_absolute_path fs path).
    pose proof (Posix_fresh_stream_valid w) as Hv. simpl in Hv.
    pose proof (Posix_fresh_unbound w) as Hu.
    unfold Posix.open, Posix.fopen, Posix.set_content, Posix.set_stream,
      Posix.log, Posix.bound, Posix.is_open.
    unfold_monad. simpl.
    destruct mode; simpl;
      repeat (case_match; simpl in *; simplify_eq);
      intros; simplify_eq; simpl;
      rewrite ?Hv, ?lookup_insert_eq; done.
  - intros w w1 file. rewrite facade_open_run. simpl File_open. simpl File_new.
    set (abs := FilesystemDisk_get_absolute_path fs path).
    pose proof (Windows_fresh_handle_valid w) as Hv. simpl in Hv.
    pose proof (Windows_fresh_unbound w) as Hu.
    unfold Windows.open, Windows.CreateFile, Windows.set_content,
      Windows.set_handle, Windows.log, Windows.bound, Windows.is_open.
    unfold_monad. simpl.
    destruct mode; simpl;
      repeat (case_match; simpl in *; simplify_eq);
      intros; simplify_eq; simpl;
      rewrite ?Hv, ?lookup_insert_eq; done.
  - intros w. rewrite facade_open_run. simpl File_open. simpl File_new.
    pose proof (Posix_fresh_stream_valid w) as Hv. simpl in Hv.
    unfold Posix.open, Posix.fopen, Posix.set_content, Posix.set_stream,
      Posix.log, Posix.is_open.
    unfold_monad. simpl.
    destruct mode; simpl;
      repeat (case_match; simpl in *; simplify_eq);
      do 2 eexists; (split; [reflexivity|]); simpl;
      rewrite ?Hv; done.
  - intros w. rewrite facade_open_run. simpl File_open. simpl File_new.
    pose proof (Windows_fresh_handle_valid w) as Hv. simpl in Hv.
    unfold Windows.open, Windows.CreateFile, Windows.set_content,
      Windows.set_handle, Windows.log, Windows.is_open.
    unfold_monad. simpl.
    destruct mode; simpl;
      repeat (case_match; simpl in *; simplify_eq);
      do 2 eexists; (split; [reflexivity|]); simpl;
      rewrite ?Hv; done.
Qed.

Lemma X12_facade_open_result_witness :
  ∃ file w1,
    FilesystemDisk_open (PU := slash_path) true (mkFilesystemDisk "/data")
      (Some "a.bin") READ Posix_sample_world = Done (file, w1) ∧
    Posix.is_open file = true ∧
    Posix.streams Posix_sample_world !! Posix._file file = None ∧
    Posix.bound (file, w1) (Posix.mkFILE "/data/a.bin" Posix.rb 0 false false).
Proof.
  eexists _, _. split.
  - vm_compute. reflexivity.
  - apply (proj1 (X12_facade_open_result (PU := slash_path)
                    (mkFilesystemDisk "/data") "a.bin" READ)
             Posix_sample_world).
    vm_compute. reflexivity.
Defined.

(** ** Open handles and native resources *)

Section WindowsConsistent.
Import Windows.
Variable dbg : bool.

Ltac run_method :=
  unfold open, close, size, position, end_of_file, seek, seek_to_end, skip,
    read, write, flush, CreateFile, CloseHandle, GetFileSize, SetFilePointer,
    ReadFile, WriteFile, FlushFileBuffers, set_content, set_handle, log;
  unfold_monad; simpl;
  repeat (case_match; simpl in *; simplify_eq);
  intros; simplify_eq; simpl in *.

Lemma Windows_invoke_keeps_bound m st st' :
  invoke dbg m st = Done (tt, st') →
  (is_open st.1 = true → is_Some (handles st.2 !! _file st.1)) →
  (is_open st'.1 = true → is_Some (handles st'.2 !! _file st'.1)).
Proof.
  intros Hm Hcons. destruct st as [f w]. simpl in Hcons.
  destruct m; simpl in Hm; revert st' Hm; run_method;
    rewrite ?lookup_insert_eq; eauto.
  all: by destruct (Hcons ltac:(done)).
Qed.

Lemma Windows_run_keeps_bound ms st st' :
  run dbg ms st = Done (tt, st') →
  (is_open st.1 = true → is_Some (handles st.2 !! _file st.1)) →
  (is_open st'.1 = true → is_Some (handles st'.2 !! _file st'.1)).
Proof.
  revert st. induction ms as [|m ms IH]; intros st Hrun Hcons.
  - simpl in Hrun. unfold_monad. by simplify_eq.
  - simpl in Hrun. unfold mbind, M_bind in Hrun.
    destruct (invoke dbg m st) as [[[] st1]| |] eqn:Hm; try done.
    eapply IH; [exact Hrun|]. by eapply Windows_invoke_keeps_bound.
Qed.

End WindowsConsistent.

(** X13. The handle and the native layer agree. After any sequence of
    method calls that return, made on a handle since its construction,
    in a native layer where the sentinel is not a resource: [is_open()]
    is true exactly when the reference the handle holds is an open native
    resource (a stream, a Win32 handle), and the sentinel is still not a
    resource. So on a handle that reports open no method is handed a
    stale or NULL reference by an earlier method of the same handle. *)
Theorem X13_open_means_bound (dbg : bool) :
  (∀ (ms : list Posix.method) (w : Posix.world) (st' : Posix.state),
     Posix.streams w !! Posix.NULL = None →
     Posix.run dbg ms (Posix.FileDisk_ctor, w) = Done (tt, st') →
     (Posix.is_open st'.1 = true
      ↔ is_Some (Posix.streams st'.2 !! Posix._file st'.1)) ∧
     Posix.streams st'.2 !! Posix.NULL = None) ∧
  (∀ (ms : list Windows.method) (w : Windows.world) (st' : Windows.state),
     Windows.handles w !! Windows.INVALID_HANDLE_VALUE = None →
     Windows.run dbg ms (Windows.FileDisk_ctor, w) = Done (tt, st') →
     (Windows.is_open st'.1 = true
      ↔ is_Some (Windows.handles st'.2 !! Windows._file st'.1)) ∧
     Windows.handles st'.2 !! Windows.INVALID_HANDLE_VALUE = None).
Proof.
  split.
  - intros ms w st' Hnull Hrun.
    pose proof (reachable_consistent dbg ms w st' Hrun) as Hcons.
    pose proof (Posix_run_keeps_sentinel dbg ms _ _ Hrun Hnull) as Hnull'.
    split; [|done]. split; [exact Hcons|].
    intros [s Hs]. destruct (Posix.is_open st'.1) eqn:Ho; [done|].
    apply Posix_closed_file in Ho. rewrite Ho in Hs. congruence.
  - intros ms w st' Hnull Hrun.
    pose proof (Windows_run_keeps_sentinel dbg ms _ _ Hrun Hnull) as Hnull'.
    split; [|done]. split.
    + eapply Windows_run_keeps_bound; [exact Hrun|]. done.
    + intros [h Hh]. destruct (Windows.is_open st'.1) eqn:Ho; [done|].
      apply Windows_closed_file in Ho. rewrite Ho in Hh. congruence.
Qed.

Lemma X13_open_means_bound_witness :
  ∃ st',
    Posix.run true [Posix.m_open "/data/a.bin" READ;
                    Posix.m_read (Some sample_bytes) 3;
                    Posix.m_close;
                    Posix.m_open "/data/b.bin" WRITE]
      (Posix.FileDisk_ctor, Posix_sample_world) = Done (tt, st') ∧
    (Posix.is_open st'.1 = true
     ↔ is_Some (Posix.streams st'.2 !! Posix._file st'.1)) ∧
    Posix.streams st'.2 !! Posix.NULL = None.
Proof.
  eexists. split.
  - vm_compute. reflexivity.
  - eapply (proj1 (X13_open_means_bound true)
              [Posix.m_open "/data/a.bin" READ;
               Posix.m_read (Some sample_bytes) 3;
               Posix.m_close;
               Posix.m_open "/data/b.bin" WRITE] Posix_sample_world).
    + reflexivity.
    + vm_compute. reflexivity.
Defined.

(** ** Offsets at the edge of their types *)

(** X14. Cursor arithmetic on the stdio variant is exact in the [long]
    the stream keeps and wraps only in what [position()] returns: for
    [u32] offsets [k1] and [k2], [seek(k1)] then [skip(k2)] succeeds in
    every build, and [position()] then returns [k1 + k2] modulo 2^32, so
    [k1 + k2 - 2^32] when the sum does not fit. *)
Theorem X14_stdio_position_wraps (dbg : bool) (st : Posix.state)
    (s : Posix.FILE) (k1 k2 : Z) :
  Posix.bound st s →
  0 ≤ k1 < 2 ^ 32 → 0 ≤ k2 < 2 ^ 32 →
  returned ((Posix.seek dbg k1;; Posix.skip dbg k2;; Posix.position dbg) st)
  = Done ((k1 + k2) mod 2 ^ 32) ∧
  (2 ^ 32 ≤ k1 + k2 →
   returned ((Posix.seek dbg k1;; Posix.skip dbg k2;; Posix.position dbg) st)
   = Done (k1 + k2 - 2 ^ 32)).
Proof.
  destruct st as [f w]. unfold Posix.bound. simpl. intros Hs Hk1 Hk2.
  assert (returned ((Posix.seek dbg k1;; Posix.skip dbg k2;;
                     Posix.position dbg) (f, w))
          = Done (to_u32 (k1 + k2))) as Hrun.
  { rewrite (bind_done _ _ _ _ _ (Posix_seek_run dbg f w s k1 Hs Hk1)).
    erewrite (bind_done _ _ _ _ _ (Posix_skip_run dbg f _ _ k2
                (Posix_stream_moved _ _ _ _ _) Hk2 _ _)).
    erewrite (Posix_position_run dbg f _ _ (Posix_stream_moved _ _ _ _ _)).
    - reflexivity.
    - simpl. unfold LONG_MAX. lia. }
  Unshelve. 2: (simpl; lia). 2: (simpl; unfold LONG_MAX; lia).
  rewrite Hrun. unfold to_u32. split; [done|].
  intros Hbig. f_equal.
  replace (k1 + k2) with ((k1 + k2 - 2 ^ 32) + 1 * 2 ^ 32) at 1 by lia.
  rewrite Z.mod_add by lia. apply Z.mod_small. lia.
Qed.

Lemma X14_stdio_position_wraps_witness :
  returned ((Posix.seek true 0xFFFFFFFF;; Posix.skip true 1;;
             Posix.position true) (Posix_sample_open Posix.rb))
  = Done (0xFFFFFFFF + 1 - 2 ^ 32).
Proof.
  refine (proj2 (X14_stdio_position_wraps true (Posix_sample_open Posix.rb)
                   (Posix.mkFILE "/data/a.bin" Posix.rb 0 false false)
                   0xFFFFFFFF 1 _ _ _) _).
  - reflexivity.
  - lia.
  - lia.
  - lia.
Defined.

Lemma Windows_skip_back_run dbg f w hf k :
  Windows.handles w !! Windows._file f = Some hf →
  2 ^ 31 ≤ k < 2 ^ 32 →
  2 ^ 32 ≤ Windows.h_pos hf + k → Windows.h_pos hf < 2 ^ 32 →
  Windows.skip dbg k (f, w)
  = Done (tt,
      (f, Windows.logged
            (Windows.c_SetFilePointer (Windows._file f) (k - 2 ^ 32)
               Windows.FILE_CURRENT (Windows.h_pos hf + (k - 2 ^ 32)))
            (Windows.moved (Windows._file f) hf
               (Windows.h_pos hf + (k - 2 ^ 32)) w))).
Proof.
  intros Hh Hk Hlo Hhi. unfold Windows.skip. rewrite bind_this.
  rewrite to_LONG_high by lia.
  rewrite (Windows_move_method dbg f w hf _ Windows.FILE_CURRENT Hh); [done|].
  simpl. lia.
Qed.

(** X15. Offsets from 2^31 on, Win32 variant. The [u32] offset is passed
    to [SetFilePointer] as a signed 32-bit distance. With assertions
    enabled, [seek(k)] aborts for every [k] from 2^31 on, and so does
    [skip(k)] when the position asked for, [p + k], is below 2^32;
    without assertions that [skip] leaves the cursor at [p]. When
    [p + k] is 2^32 or more, [skip(k)] succeeds in every build and moves
    the cursor backwards, to [p + k - 2^32]. *)
Theorem X15_win32_high_offsets (st : Windows.state) (h : Windows.HFILE)
    (k : Z) :
  Windows.bound st h →
  2 ^ 31 ≤ k < 2 ^ 32 →
  0 ≤ Windows.h_pos h < 2 ^ 32 - 1 →
  Windows.seek true k st = Fatal "SetFilePointer" ∧
  (Windows.h_pos h + k < 2 ^ 32 →
   Windows.skip true k st = Fatal "SetFilePointer" ∧
   returned ((Windows.skip false k;; Windows.position false) st)
   = Done (Windows.h_pos h)) ∧
  (2 ^ 32 ≤ Windows.h_pos h + k →
   ∀ dbg, returned ((Windows.skip dbg k;; Windows.position dbg) st)
          = Done (Windows.h_pos h + k - 2 ^ 32)).
Proof.
  destruct st as [f w]. unfold Windows.bound. simpl. intros Hh Hk Hp.
  split_and!.
  - by apply (Windows_seek_high_fails f w h).
  - intros Hlow. split; [by apply (Windows_skip_high_fails f w h)|].
    assert (Windows.skip false k (f, w)
            = Done (tt, (f, Windows.logged
                              (Windows.c_SetFilePointer (Windows._file f)
                                 (k - 2 ^ 32) Windows.FILE_CURRENT
                                 Windows.INVALID_SET_FILE_POINTER) w)))
      as Hskip.
    { unfold Windows.skip. rewrite bind_this. rewrite to_LONG_high by lia.
      assert (¬ (0 ≤ Windows.move_base w h Windows.FILE_CURRENT
                       + (k - 2 ^ 32) < 2 ^ 32)) as Hout by (simpl; lia).
      by rewrite (bind_native _ _ _ _ _ _
                    (SetFilePointer_fails w _ h _ Windows.FILE_CURRENT Hh
                       Hout)). }
    rewrite (bind_done _ _ _ _ _ Hskip).
    rewrite Windows_position_logged.
    by rewrite (Windows_position_run false f w h Hh Hp).
  - intros Hhigh dbg.
    rewrite (bind_done _ _ _ _ _
               (Windows_skip_back_run dbg f w h k Hh Hk Hhigh ltac:(lia))).
    rewrite (Windows_position_run dbg f _ _ (Windows_handle_moved _ _ _ _ _))
      by (simpl; lia).
    simpl. f_equal. lia.
Qed.

Lemma X15_win32_high_offsets_witness :
  Windows.seek true 0x80000000 (Windows_sample_open Windows.GENERIC_READ)
  = Fatal "SetFilePointer" ∧
  Windows.skip true 0xFFFFFFFF (Windows_sample_open Windows.GENERIC_READ)
  = Fatal "SetFilePointer".
Proof.
  split.
  - refine (proj1 (X15_win32_high_offsets
              (Windows_sample_open Windows.GENERIC_READ)
              (Windows.mkHFILE "/data/a.bin" Windows.GENERIC_READ 0 0)
              0x80000000 _ _ _)); [reflexivity | lia | simpl; lia].
  - refine (proj1 (proj1 (proj2 (X15_win32_high_offsets
              (Windows_sample_open Windows.GENERIC_READ)
              (Windows.mkHFILE "/data/a.bin" Windows.GENERIC_READ 0 0)
              0xFFFFFFFF _ _ _)) _));
      [reflexivity | lia | simpl; lia | simpl; lia].
Defined.

(** ** Creating a directory twice *)

(** X16. [create_directory] is idempotent against an OS layer that keeps
    its word (after [os::create_directory(p)], [os::exists(p)] holds):
    calling it twice in a row on a path that did not exist makes one
    creation call, the second call only asks [os::exists], and the file
    system after the two calls is the one after the first. *)
Theorem X16_create_directory_twice {PU : Path} {S : Type} {OS : Os S}
    (dbg : bool) (fs : FilesystemDisk) (path : string) (w : os_world S) :
  (∀ p s, os_exists p (os_create_directory p s) = true) →
  os_exists (FilesystemDisk_get_absolute_path fs path) (os_state w) = false →
  ∃ w1 w2,
    FilesystemDisk_create_directory dbg fs (Some path) w = Done (tt, w1) ∧
    FilesystemDisk_create_directory dbg fs (Some path) w1 = Done (tt, w2) ∧
    os_state w2 = os_state w1 ∧
    os_state w1
    = os_create_directory (FilesystemDisk_get_absolute_path fs path)
        (os_state w) ∧
    os_trace w2
    = call_exists (FilesystemDisk_get_absolute_path fs path)
      :: call_create_directory (FilesystemDisk_get_absolute_path fs path)
      :: call_exists (FilesystemDisk_get_absolute_path fs path)
      :: os_trace w.
Proof.
  intros Hkeeps Hnew.
  set (abs_path := FilesystemDisk_get_absolute_path fs path).
  exists (mkOsWorld (os_create_directory abs_path (os_state w))
            (call_create_directory abs_path
             :: call_exists abs_path :: os_trace w)).
  exists (mkOsWorld (os_create_directory abs_path (os_state w))
            (call_exists abs_path :: call_create_directory abs_path
             :: call_exists abs_path :: os_trace w)).
  split_and!; try reflexivity.
  - unfold FilesystemDisk_create_directory. rewrite entry_check.
    fold abs_path. unfold_monad. unfold os_query. simpl.
    fold abs_path in Hnew. by rewrite Hnew.
  - unfold FilesystemDisk_create_directory. rewrite entry_check.
    fold abs_path. unfold_monad. unfold os_query. simpl.
    by rewrite Hkeeps.
Qed.

Lemma X16_create_directory_twice_witness :
  ∃ w1 w2,
    FilesystemDisk_create_directory (PU := slash_path) (OS := tree_os) true
      (mkFilesystemDisk "/data/game") (Some "levels") (mkOsWorld ∅ [])
    = Done (tt, w1) ∧
    FilesystemDisk_create_directory (PU := slash_path) (OS := tree_os) true
      (mkFilesystemDisk "/data/game") (Some "levels") w1 = Done (tt, w2) ∧
    os_state w2 = os_state w1 ∧
    os_state w1
    = os_create_directory (Os := tree_os) "/data/game/levels" ∅ ∧
    os_trace w2
    = [call_exists "/data/game/levels";
       call_create_directory "/data/game/levels";
       call_exists "/data/game/levels"].
Proof.
  apply (X16_create_directory_twice (PU := slash_path) (OS := tree_os) true
           (mkFilesystemDisk "/data/game") "levels" (mkOsWorld ∅ [])).
  - intros p s. simpl. by rewrite lookup_insert_eq.
  - reflexivity.
Defined.
